(** * motop console: a model of [libmotop/console.py]

    The module renders a "top"-like display: [Block] is a table with a
    header line and a persistent per-column width memory, [Console] owns
    the terminal, composes blocks into one screen, polls the keyboard and
    prompts for input.

    The development has three layers:
    - [Py]: the interpreter services the module calls ([str], ['%.0f' % x],
      [ljust], slicing, [/]), for the two interpreters the module supports
      (it patches [__builtin__.input] for Python 2 and falls back to the
      Python 3 builtins);
    - the program itself ([ColorStr], [Block], [Console]), written in a
      state-and-exception monad over the process state;
    - the properties of the program. *)

From Stdlib Require Import ZArith Lia List String Ascii DecimalString Floats.
From stdpp Require Import base list.
Import ListNotations.

#[local] Open Scope string_scope.
#[local] Open Scope Z_scope.
#[local] Set Warnings "-inexact-float,-register-all".

(** ** Interpreter services *)

Module Py.

(** The module runs unchanged on Python 2 and on Python 3.  The two differ,
    for this file, in [/] on two integers (floor division on Python 2: the
    file does not import [division] from [__future__]), in ['%f'] on very
    large magnitudes and in [str] of a float. *)
Inductive dialect := Py2 | Py3.

(** The exceptions that the modelled code can raise. *)
Inductive exn :=
| IOError          (* a write to a broken stream *)
| IndexError
| AssertionError
| AttributeError   (* [self.__lines] read before the first [reset] *)
| TypeError        (* [str.join] on a [ColorStr] *)
| OverflowError    (* an integer too large for a float *)
| EOFError         (* [input] at the end of standard input *)
| StrError.        (* whatever [str(value)] raised *)

(** *** Character strings *)

Definition len (s : string) : Z := Z.of_nat (String.length s).

Fixpoint spaces (n : nat) : string :=
  match n with
  | O => ""
  | S n' => String " " (spaces n')
  end.

(** [s.ljust(width)]: padded with spaces on the right up to [width]. *)
Definition ljust (s : string) (width : Z) : string :=
  s ++ spaces (Z.to_nat (width - len s)).

(** [s[:n]]: the first [n] characters, or all but the last [-n] ones. *)
Definition slice_to (s : string) (n : Z) : string :=
  if n <? 0 then String.substring 0 (Z.to_nat (len s + n)) s
  else String.substring 0 (Z.to_nat n) s.

(** [sep.join(parts)]. *)
Fixpoint join (sep : string) (parts : list string) : string :=
  match parts with
  | [] => ""
  | [p] => p
  | p :: rest => p ++ sep ++ join sep rest
  end.

(** [str(n)] for an integer: its decimal digits, with a minus sign. *)
Definition str_int (n : Z) : string := NilZero.string_of_int (Z.to_int n).

Fixpoint zeros (n : nat) : string :=
  match n with
  | O => ""
  | S n' => String "0" (zeros n')
  end.

(** [s.zfill(width)] for a string of digits. *)
Definition zfill (width : nat) (s : string) : string :=
  zeros (width - String.length s) ++ s.

(** Trailing zeros of a string of digits removed. *)
Fixpoint rstrip0 (s : string) : string :=
  match s with
  | "" => ""
  | String c s' =>
      match rstrip0 s' with
      | "" => if Ascii.eqb c "0" then "" else String c ""
      | r => String c r
      end
  end.

(** *** Binary64 numbers

    A Python float is an IEEE 754 binary64 number: the kernel's [float].
    Arithmetic between floats is the primitive one; conversions and
    formatting work on the exact value [m * 2^e] that [Prim2SF] gives. *)

(** The binary64 number nearest to the integer [n], ties to even; an
    infinity when [n] is out of range. *)
Definition sf_of_int (n : Z) : spec_float := binary_normalize 53 1024 n 0 false.


(** [num / den] rounded to the nearest integer, ties to even ([0 < den]). *)
Definition round_half_even (num den : Z) : Z :=
  let q := num / den in
  match 2 * (num mod den) ?= den with
  | Lt => q
  | Gt => q + 1
  | Eq => if Z.even q then q else q + 1
  end.

(** [m * 2^e * 10^p] rounded to an integer. *)
Definition scaled (m : positive) (e : Z) (p : nat) : Z :=
  if 0 <=? e then Z.pos m * 2 ^ e * 10 ^ Z.of_nat p
  else round_half_even (Z.pos m * 10 ^ Z.of_nat p) (2 ^ (- e)).

(** The digits of [N / 10^p] with [p] decimals. *)
Definition fixed_point (p : nat) (N : Z) : string :=
  str_int (N / 10 ^ Z.of_nat p) ++
  match p with
  | O => ""
  | _ => "." ++ zfill p (str_int (N mod 10 ^ Z.of_nat p))
  end.

Definition sign_str (s : bool) : string := if s then "-" else "".

(** ['%.<p>f' % x] in fixed notation: the exact value of [x] correctly
    rounded to [p] decimals. *)
Definition fixed (p : nat) (x : spec_float) : string :=
  match x with
  | S754_nan => "nan"
  | S754_infinity s => sign_str s ++ "inf"
  | S754_zero s => sign_str s ++ fixed_point p 0
  | S754_finite s m e => sign_str s ++ fixed_point p (scaled m e p)
  end.

(** A decimal exponent as ['e+XX'] or ['e-XX'], on two digits at least. *)
Definition exponent_str (x : Z) : string :=
  "e" ++ (if x <? 0 then "-" else "+") ++ zfill 2 (str_int (Z.abs x)).

(** [d.ddd] from the digits [ds] of a mantissa, trailing zeros dropped. *)
Definition mantissa_str (ds : string) : string :=
  match ds with
  | "" => "0"
  | String c rest =>
      match rstrip0 rest with
      | "" => String c ""
      | r => String c ("." ++ r)
      end
  end.

(** ['%.<p>g' % x] for [1e50 <= |x|] and finite [x]: [max p 1] significant
    digits in exponent notation (the exponent is at least 50, so ['%g']
    never chooses the fixed notation here). *)
Definition general_big (p : nat) (x : spec_float) : string :=
  match x with
  | S754_finite s m e =>
      let sig := Z.of_nat (Nat.max p 1) in
      let N := Z.pos m * 2 ^ e in
      let k := len (str_int N) in
      let D := round_half_even N (10 ^ (k - sig)) in
      let '(D, k) := if D =? 10 ^ sig then (10 ^ (sig - 1), k + 1) else (D, k) in
      sign_str s ++ mantissa_str (str_int D) ++ exponent_str (k - 1)
  | _ => fixed p x
  end.

(** The float [1e50]. *)
Definition sf_1e50 : spec_float := Eval vm_compute in Prim2SF 1e50.

(** ['%.<p>f' % x] on the exact value of [x].  Python 2 replaces ['%f'] by
    ['%g'] when [fabs(x) >= 1e50]. *)
Definition pct_f_sf (py : dialect) (p : nat) (x : spec_float) : string :=
  match py with
  | Py2 => if SFleb sf_1e50 (SFabs x) then general_big p x else fixed p x
  | Py3 => fixed p x
  end.

(** ['%.<p>f' % x] for a float [x]. *)
Definition pct_f (py : dialect) (p : nat) (x : float) : string :=
  pct_f_sf py p (Prim2SF x).

(** ['%.<p>f' % n] for an integer [n]: [n] is converted to a float first. *)
Definition pct_f_int (py : dialect) (p : nat) (n : Z) : exn + string :=
  match sf_of_int n with
  | S754_infinity _ => inl OverflowError
  | x => inr (pct_f_sf py p x)
  end.

(** [n / d] on Python 3, for integers [0 < n] and [0 < d]: the exact
    quotient rounded once to a float. *)
Definition int_truediv (n d : positive) : exn + float :=
  match SFdiv 53 1024 (S754_finite false n 0) (S754_finite false d 0) with
  | S754_infinity _ => inl OverflowError
  | q => inr (SF2Prim q)
  end.

(** *** [str] of a float

    Python 3 prints the shortest decimal that reads back as the same float
    and, among those, the nearest; Python 2 prints ['%.12g'].  Both then
    choose between fixed and exponent notation on the position [decpt] of
    the decimal point. *)

(** The [k] with [10^(k-1) <= num/den < 10^k], for [0 < num] and [0 < den]. *)
Definition mag10 (num den : Z) : Z :=
  if den <=? num then len (str_int (num / den))
  else
    let j := len (str_int (den / num)) in
    if num * 10 ^ (j - 1) =? den then 2 - j else 1 - j.

(** [10^q] as a fraction of two positive integers. *)
Definition pow10_frac (q : Z) : Z * Z :=
  if 0 <=? q then (10 ^ q, 1) else (1, 10 ^ (- q)).

Definition pow2_frac (q : Z) : Z * Z :=
  if 0 <=? q then (2 ^ q, 1) else (1, 2 ^ (- q)).

(** The decimal [D * 10^q] with at most [p] digits that reads back as
    [m * 2^e] and is nearest to it, if there is one.  The numbers that read
    back as [m * 2^e] lie between [lo] and [hi], counted in quarters of the
    last binary place; both ends read back when [m] is even. *)
Definition shortest_at (m : positive) (e : Z) (k : Z) (p : Z) : option (Z * Z) :=
  let '(un, ud) := pow2_frac (e - 2) in
  let q := k - p in
  let '(tn, td) := pow10_frac q in
  let X := 4 * Z.pos m in
  let hi := X + 2 in
  let lo := if (Z.pos m =? 2 ^ 52) && (-1074 <? e) then X - 1 else X - 2 in
  let a := un * td in            (* one quarter, over [10^q], is [a / b] *)
  let b := ud * tn in
  let inside D :=
    if Z.even (Z.pos m) then (lo * a <=? D * b) && (D * b <=? hi * a)
    else (lo * a <? D * b) && (D * b <? hi * a) in
  let D0 := (X * a) / b in
  let D1 := D0 + 1 in
  match inside D0, inside D1 with
  | false, false => None
  | true, false => Some (D0, q)
  | false, true => Some (D1, q)
  | true, true =>
      match X * a - D0 * b ?= D1 * b - X * a with
      | Lt => Some (D0, q)
      | Gt => Some (D1, q)
      | Eq => Some (if Z.even D0 then D0 else D1, q)
      end
  end.

Fixpoint shortest_from (m : positive) (e : Z) (k : Z) (p : Z) (fuel : nat) : Z * Z :=
  match fuel with
  | O => (4 * Z.pos m, e - 2)     (* not reached: 17 digits always read back *)
  | S fuel' =>
      match shortest_at m e k p with
      | Some r => r
      | None => shortest_from m e k (p + 1) fuel'
      end
  end.

(** [m * 2^e] rounded to [p] significant decimal digits, as [D * 10^q]. *)
Definition rounded_at (m : positive) (e : Z) (k : Z) (p : Z) : Z * Z :=
  let '(un, ud) := pow2_frac e in
  let q := k - p in
  let '(tn, td) := pow10_frac q in
  (round_half_even (Z.pos m * un * td) (ud * tn), q).

(** The digits [ds] with the decimal point after the first [decpt] of them:
    fixed notation when [-4 < decpt <= limit], exponent notation otherwise. *)
Definition short_str (limit : Z) (D q : Z) : string :=
  let ds := rstrip0 (str_int D) in
  let decpt := len (str_int D) + q in
  if (decpt <=? -4) || (limit <? decpt) then
    mantissa_str ds ++ exponent_str (decpt - 1)
  else if decpt <=? 0 then "0." ++ zeros (Z.to_nat (- decpt)) ++ ds
  else if len ds <=? decpt then ds ++ zeros (Z.to_nat (decpt - len ds)) ++ ".0"
  else
    String.substring 0 (Z.to_nat decpt) ds ++ "." ++
    String.substring (Z.to_nat decpt) (String.length ds) ds.

(** [str(x)] for a float [x]. *)
Definition str_float (py : dialect) (x : float) : string :=
  match Prim2SF x with
  | S754_nan => "nan"
  | S754_infinity s => sign_str s ++ "inf"
  | S754_zero s => sign_str s ++ "0.0"
  | S754_finite s m e =>
      let '(un, ud) := pow2_frac e in
      let k := mag10 (Z.pos m * un) ud in
      sign_str s ++
      match py with
      | Py2 => let '(D, q) := rounded_at m e k 12 in short_str 12 D q
      | Py3 => let '(D, q) := shortest_from m e k 1 17 in short_str 16 D q
      end
  end.

End Py.

Import Py.

(** ** The process state *)

(** What the process has sent to its terminal. *)
Inductive event :=
| Clear                (* [os.system('clear')] *)
| Put (s : string)     (* [print(s, end='')], and the prompt of [input] *)
| Line (s : string).   (* [print(s)]; [print()] is [Line ""] *)

(** The terminal: standard output, standard input and the clock. *)
Record term := mkTerm {
  screen : list event;        (* everything written so far, oldest first *)
  faults : list bool;         (* for each coming write: does it raise IOError? *)
  stdout_isatty : bool;       (* [sys.stdout.isatty()] *)
  stdin_isatty : bool;        (* whether [termios.tcgetattr(sys.stdin)] works *)
  cbreak : bool;              (* the line discipline: set by [tty.setcbreak] *)
  typed : list string;        (* the lines [input] will read *)
  keys : list (Z * ascii);    (* the keystrokes to come, with their arrival times *)
  clock : Z                   (* wall time, in microseconds *)
}.

Definition set_output (t : term) (sc : list event) (fs : list bool) : term :=
  mkTerm sc fs (stdout_isatty t) (stdin_isatty t) (cbreak t) (typed t) (keys t) (clock t).

Definition set_cbreak (t : term) (b : bool) : term :=
  mkTerm (screen t) (faults t) (stdout_isatty t) (stdin_isatty t) b (typed t) (keys t) (clock t).

Definition set_typed (t : term) (ls : list string) : term :=
  mkTerm (screen t) (faults t) (stdout_isatty t) (stdin_isatty t) (cbreak t) ls (keys t) (clock t).



(** ** Computations: state and exceptions

    A statement runs from a state to a state and either completes with a
    value or raises; what it did to the state before raising stays done. *)

Inductive outcome (A : Type) :=
| Ok (a : A)
| Raise (e : exn).
Arguments Ok {A} a.
Arguments Raise {A} e.

Definition M (S A : Type) : Type := S -> outcome A * S.

Definition ret {S A} (a : A) : M S A := fun s => (Ok a, s).

Definition raise {S A} (e : exn) : M S A := fun s => (Raise e, s).

Definition bind {S A B} (c : M S A) (k : A -> M S B) : M S B :=
  fun s =>
    match c s with
    | (Ok a, s') => k a s'
    | (Raise e, s') => (Raise e, s')
    end.

Notation "x <- c ;; k" := (bind c (fun x => k))
  (at level 100, c at next level, right associativity).
Notation "c ;; k" := (bind c (fun _ => k))
  (at level 100, right associativity).

Definition get {S} : M S S := fun s => (Ok s, s).
Definition put {S} (s : S) : M S unit := fun _ => (Ok tt, s).

(** A computation that cannot change the state. *)
Definition lift_exn {S A} (r : exn + A) : M S A :=
  match r with
  | inl e => raise e
  | inr a => ret a
  end.

(** [try: body / except IOError: pass], telling whether [body] completed. *)
Definition attempt {S} (body : M S unit) : M S bool :=
  fun s =>
    match body s with
    | (Ok _, s') => (Ok true, s')
    | (Raise IOError, s') => (Ok false, s')
    | (Raise e, s') => (Raise e, s')
    end.

(** [l[i]]. *)
Definition getitem {S A} (l : list A) (i : nat) : M S A :=
  match l !! i with
  | Some a => ret a
  | None => raise IndexError
  end.

(** A computation on one component of the state. *)
Definition on_term {S A} (c : M term A) : M (S * term) A :=
  fun '(s, t) => let '(r, t') := c t in (r, (s, t')).

(** *** Writing to standard output *)

Definition write (ev : event) : M term unit :=
  fun t =>
    match faults t with
    | true :: fs => (Raise IOError, set_output t (screen t) fs)
    | false :: fs => (Ok tt, set_output t (screen t ++ [ev])%list fs)
    | [] => (Ok tt, set_output t (screen t ++ [ev])%list [])
    end.

(** [print(s, end='')] *)
Definition print_end (s : string) : M term unit := write (Put s).

(** [print(s)] *)
Definition print_ (s : string) : M term unit := write (Line s).

(** ** [class ColorStr] *)

Definition ESC : string := String "027" "".

Record ColorStr := mkColorStr {
  _str : string;
  _color : option string
}.

Module Color.
Definition BLACK := ESC ++ "[0;30m".
Definition RED := ESC ++ "[0;31m".
Definition GREEN := ESC ++ "[0;32m".
Definition YELLOW := ESC ++ "[0;33m".
Definition BLUE := ESC ++ "[0;34m".
Definition PURPLE := ESC ++ "[0;35m".
Definition CYAN := ESC ++ "[0;36m".
Definition WHITE := ESC ++ "[0;37m".
Definition BRIGHT_BLACK := ESC ++ "[1;30m".
Definition BRIGHT_RED := ESC ++ "[1;31m".
Definition BRIGHT_GREEN := ESC ++ "[1;32m".
Definition BRIGHT_YELLOW := ESC ++ "[1;33m".
Definition BRIGHT_BLUE := ESC ++ "[1;34m".
Definition BRIGHT_PURPLE := ESC ++ "[1;35m".
Definition BRIGHT_CYAN := ESC ++ "[1;36m".
Definition BRIGHT_WHITE := ESC ++ "[1;37m".
Definition RESET := ESC ++ "[0m".
End Color.

Module ColorStrM.

(** [self.hasColor()] *)
Definition hasColor (self : ColorStr) : bool :=
  match _color self with
  | Some _ => true
  | None => false
  end.

(** [self.color()], where [hasColor()] holds. *)
Definition color (self : ColorStr) : string :=
  match _color self with
  | Some k => k
  | None => ""
  end.

(** [len(self)] *)
Definition __len__ (self : ColorStr) : Z := len (_str self).

(** [self.ljust(width)] *)
Definition ljust (self : ColorStr) (width : Z) : string := Py.ljust (_str self) width.

End ColorStrM.

(** ** Cell values *)

(** What a row may hold, by the cases [Block.__cell] tells apart. *)
Inductive value :=
| VNone
| VInt (n : Z)                  (* [numbers.Integral] *)
| VFloat (x : float)            (* the other [numbers.Number]: a float *)
| VColorStr (c : ColorStr)
| VList (vs : list value)
| VStr (s : string)             (* a character string *)
| VOther (s : option string).   (* any other object: what [str] returns on
                                   it, [None] when [str] raises *)

(** A number while it is being scaled down: an [int] stays an [int] under
    [/] on Python 2 and becomes a [float] on Python 3. *)
Inductive number :=
| NInt (n : Z)
| NFloat (x : float).

(** What [__cell] returns: a character string or a [ColorStr]. *)
Inductive cell :=
| CStr (s : string)
| CColorStr (c : ColorStr).

(** ** [class Block] *)

Record Block := mkBlock {
  __columnHeaders : list string;
  __columnWidths : list Z;
  __lines : option (list (list value))   (* unset until the first [reset] *)
}.

Module BlockM.

(** [Block(columnHeaders)] *)
Definition __init__ (columnHeaders : list string) : Block :=
  mkBlock columnHeaders (replicate (length columnHeaders) 6) None.

(** [self.reset(lines)] *)
Definition reset (lines : list (list value)) : M (Block * term) unit :=
  fun '(self, t) =>
    (Ok tt, (mkBlock (__columnHeaders self) (__columnWidths self) (Some lines), t)).

(** [len(self)] *)
Definition __len__ : M (Block * term) Z :=
  fun '(self, t) =>
    match __lines self with
    | Some lines => (Ok (Z.of_nat (length lines)), (self, t))
    | None => (Raise AttributeError, (self, t))
    end.

Definition fixes : list string := ["k"; "M"; "G"; "T"; "P"; "E"; "Z"; "Y"].

(** [value < 10000] *)
Definition lt_10000 (value : number) : bool :=
  match value with
  | NInt n => n <? 10000
  | NFloat x => (x <? 10000)%float
  end.

(** ['%.0f' % (value)] and ['%.02f' % (value)] *)
Definition pct_f_num (py : dialect) (p : nat) (value : number) : exn + string :=
  match value with
  | NInt n => pct_f_int py p n
  | NFloat x => inr (pct_f py p x)
  end.

(** [value / 1000], as the first loop writes it. *)
Definition div_1000 (py : dialect) (value : number) : exn + number :=
  match value with
  | NInt n =>
      match py with
      | Py2 => inr (NInt (n / 1000))
      | Py3 =>
          match n with
          | Z0 => inr (NFloat 0)
          | Zpos m =>
              match int_truediv m 1000 with
              | inl e => inl e
              | inr q => inr (NFloat q)
              end
          | Zneg m =>
              match int_truediv m 1000 with
              | inl e => inl e
              | inr q => inr (NFloat (- q))
              end
          end
      end
  | NFloat x => inr (NFloat (x / 1000))
  end.

(** [float(value) / 1000], as the second loop writes it. *)
Definition float_div_1000 (value : number) : exn + number :=
  match value with
  | NInt n =>
      match sf_of_int n with
      | S754_infinity _ => inl OverflowError
      | x => inr (NFloat (SF2Prim x / 1000))
      end
  | NFloat x => inr (NFloat (x / 1000))
  end.

(** The loop of both numeric cases,
<<
    for fix in ('',) + self.fixes:
        if value < 10000:
            return render(value) + fix
        value = divide(value)
>>
    It returns the text, or leaves the loop with the last [value]. *)
Fixpoint for_fix (render : number -> exn + string) (divide : number -> exn + number)
    (fixs : list string) (value : number) : exn + (string + number) :=
  match fixs with
  | [] => inr (inr value)
  | fix_ :: rest =>
      if lt_10000 value then
        match render value with
        | inl e => inl e
        | inr s => inr (inl (s ++ fix_))
        end
      else
        match divide value with
        | inl e => inl e
        | inr value' => for_fix render divide rest value'
        end
  end.

(** [str(value)] for a number. *)
Definition str_num (py : dialect) (value : number) : string :=
  match value with
  | NInt n => str_int n
  | NFloat x => str_float py x
  end.

(** A numeric cell: the loop and, when the loop ends without returning,
    the [str(value)] that the end of [__cell] returns. *)
Definition numeric (py : dialect) (render : number -> exn + string)
    (divide : number -> exn + number) (value : number) : exn + string :=
  match for_fix render divide ("" :: fixes) value with
  | inl e => inl e
  | inr (inl s) => inr s
  | inr (inr value') => inr (str_num py value')
  end.

(** [' / '.join(cells)]: every item must be a character string. *)
Fixpoint strings_of (cells : list cell) : option (list string) :=
  match cells with
  | [] => Some []
  | CStr s :: rest => option_map (cons s) (strings_of rest)
  | CColorStr _ :: _ => None
  end.

(** [len(cell)] and [cell.ljust(width)], on a character string or a
    [ColorStr]. *)
Definition cell_len (c : cell) : Z :=
  match c with
  | CStr s => len s
  | CColorStr k => ColorStrM.__len__ k
  end.

Definition cell_ljust (c : cell) (width : Z) : string :=
  match c with
  | CStr s => ljust s width
  | CColorStr k => ColorStrM.ljust k width
  end.

(** [isinstance(cell, ColorStr) and cell.hasColor()] *)
Definition colored (c : cell) : bool :=
  match c with
  | CStr _ => false
  | CColorStr k => ColorStrM.hasColor k
  end.

(** [self.__cell(value)].  When [str(value)] raises, the handler prints two
    lines (the first one also names the exception) and the [print(value)]
    that follows raises again. *)
Fixpoint __cell (py : dialect) (v : value) {struct v} : M term cell :=
  match v with
  | VList vs =>
      cs <- (fix cells (l : list value) : M term (list cell) :=
               match l with
               | [] => ret []
               | v' :: l' => c <- __cell py v' ;; cs <- cells l' ;; ret (c :: cs)
               end) vs ;;
      match strings_of cs with
      | Some ss => ret (CStr (join " / " ss))
      | None => raise TypeError
      end
  | VInt n =>
      s <- lift_exn (numeric py (pct_f_num py 0) (div_1000 py) (NInt n)) ;;
      ret (CStr s)
  | VFloat x =>
      s <- lift_exn (numeric py (pct_f_num py 2) float_div_1000 (NFloat x)) ;;
      ret (CStr s)
  | VColorStr c => ret (CColorStr c)
  | VStr s => ret (CStr s)
  | VOther (Some s) => ret (CStr s)
  | VOther None =>
      print_ "Unexpected error:" ;; print_ "Value:" ;; raise StrError
  | VNone => ret (CStr "")
  end.

(** The object the method runs on. *)
Definition self_ : M (Block * term) Block := fun '(self, t) => (Ok self, (self, t)).

(** [self.__columnWidths[index] = max(n, self.__columnWidths[index])] *)
Definition grow_columnWidth (i : nat) (n : Z) : M (Block * term) unit :=
  fun '(self, t) =>
    match __columnWidths self !! i with
    | Some w =>
        (Ok tt, (mkBlock (__columnHeaders self)
                         (<[i := Z.max n w]> (__columnWidths self))
                         (__lines self), t))
    | None => (Raise IndexError, (self, t))
    end.

Definition when {S} (b : bool) (c : M S unit) : M S unit :=
  if b then c else ret tt.

(** The loop of [__printLine], from column [i] on: [n] is [len(line)]. *)
Fixpoint printLine_from (py : dialect) (bold : bool) (n : nat) (i : nat)
    (line : list value) (leftWidth : Z) : M (Block * term) unit :=
  match line with
  | [] => ret tt
  | v :: rest =>
      c <- on_term (__cell py v) ;;
      self <- self_ ;;
      header <- getitem (__columnHeaders self) i ;;
      if leftWidth <? len header then ret tt
      else
        when (Z.of_nat i + 1 <? Z.of_nat n) (grow_columnWidth i (cell_len c + 2)) ;;
        tty <- on_term (t <- get ;; ret (stdout_isatty t)) ;;
        when (bold && tty) (on_term (print_end (ESC ++ "[1m"))) ;;
        when (colored c && tty)
          (on_term (print_end (match c with
                               | CColorStr k => ColorStrM.color k
                               | CStr _ => ""
                               end))) ;;
        self <- self_ ;;
        w <- getitem (__columnWidths self) i ;;
        on_term (print_end (slice_to (cell_ljust c w) leftWidth)) ;;
        when ((colored c || bold) && tty) (on_term (print_end Color.RESET)) ;;
        printLine_from py bold n (S i) rest (leftWidth - w)
  end.

(** [self.__printLine(line, leftWidth, bold)] *)
Definition __printLine (py : dialect) (line : list value) (leftWidth : Z)
    (bold : bool) : M (Block * term) unit :=
  printLine_from py bold (length line) 0 line leftWidth ;;
  on_term (print_ "").

(** The loop of [print] over the lines, with [height] left. *)
Fixpoint print_lines (py : dialect) (lines : list (list value)) (height width : Z)
    : M (Block * term) unit :=
  match lines with
  | [] => ret tt
  | line :: rest =>
      if height <=? 1 then ret tt
      else
        self <- self_ ;;
        if (length line <=? length (__columnHeaders self))%nat then
          __printLine py line width false ;;
          print_lines py rest (height - 1) width
        else raise AssertionError
  end.

(** [self.print(height, width)] *)
Definition print (py : dialect) (height width : Z) : M (Block * term) unit :=
  if 1 <? height then
    self <- self_ ;;
    __printLine py (map VStr (__columnHeaders self)) width true ;;
    match __lines self with
    | Some lines => print_lines py lines (height - 1) width
    | None => raise AttributeError
    end
  else raise AssertionError.

End BlockM.

(** ** [class Console] *)

Record Console := mkConsole {
  __height : Z;
  __width : Z;
  __lastCheckTime : option Z;          (* a [datetime], in microseconds *)
  __settings : option (option bool)    (* unset before [__enter__]; then the
                                          saved line discipline, or [None] *)
}.

(** The process: the [Block] objects by address, the one [Console] and the
    terminal. *)
Record world := mkWorld {
  heap : list Block;
  console : Console;
  terminal : term
}.

(** A method call on the block at address [self].  A Python reference
    always leads to an object; an address outside the heap stands for
    none and is reported as [AttributeError]. *)
Definition call (self : nat) {A} (method : M (Block * term) A) : M world A :=
  fun w =>
    match heap w !! self with
    | Some b =>
        let '(r, (b', t')) := method (b, terminal w) in
        (r, mkWorld (<[self := b']> (heap w)) (console w) t')
    | None => (Raise AttributeError, w)
    end.

(** A computation on the terminal alone. *)
Definition io {A} (c : M term A) : M world A :=
  fun w => let '(r, t') := c (terminal w) in (r, mkWorld (heap w) (console w) t').

Definition self_console : M world Console := fun w => (Ok (console w), w).

Definition set_console (c : Console) : M world unit :=
  fun w => (Ok tt, mkWorld (heap w) c (terminal w)).


Module ConsoleM.

(** [Console()]: [size] is what the window-size query answers, if it does. *)
Definition __init__ (size : option (Z * Z)) : Console :=
  match size with
  | Some (height, width) => mkConsole height width None None
  | None => mkConsole 20 80 None None
  end.

(** [self.__enter__()] *)
Definition __enter__ : M world unit :=
  self <- self_console ;;
  t <- io get ;;
  if stdin_isatty t then
    set_console (mkConsole (__height self) (__width self) (__lastCheckTime self)
                           (Some (Some (cbreak t)))) ;;
    io (put (set_cbreak t true))
  else
    set_console (mkConsole (__height self) (__width self) (__lastCheckTime self)
                           (Some None)).

(** [self.__exit__()] *)
Definition __exit__ : M world unit :=
  self <- self_console ;;
  match __settings self with
  | None => raise AttributeError
  | Some None => ret tt
  | Some (Some saved) => t <- io get ;; io (put (set_cbreak t saved))
  end.

(** [with self.__deactiveConsole: body]: [DeactiveConsole.__enter__] calls
    [Console.__exit__] and [DeactiveConsole.__exit__] calls
    [Console.__enter__], also when [body] raises. *)
Definition with_deactiveConsole {A} (body : M world A) : M world A :=
  __exit__ ;;
  fun w =>
    match body w with
    | (Ok a, w') => (__enter__ ;; ret a) w'
    | (Raise e, w') => (__enter__ ;; raise e) w'
    end.








(** [os.system('clear')]: not a write of the process, it cannot raise
    [IOError]. *)
Definition system_clear : M term unit :=
  fun t => (Ok tt, set_output t (screen t ++ [Clear])%list (faults t)).

(** The loop of [refresh] over the blocks, with [leftHeight] lines left. *)
Fixpoint refresh_from (py : dialect) (blocks : list nat) (leftHeight : Z)
    : M world unit :=
  match blocks with
  | [] => ret tt
  | block :: rest =>
      n <- call block BlockM.__len__ ;;
      if n =? 0 then refresh_from py rest leftHeight
      else if leftHeight <=? 2 then ret tt
      else
        let height := if n + 2 <? leftHeight then n + 2 else leftHeight in
        self <- self_console ;;
        printed <- attempt (call block (BlockM.print py height (__width self))) ;;
        if printed then
          let leftHeight := leftHeight - height in
          if 2 <=? leftHeight then
            separated <- attempt (io (print_ "")) ;;
            if separated then refresh_from py rest (leftHeight - 1)
            else refresh_from py rest leftHeight
          else refresh_from py rest leftHeight
        else refresh_from py rest leftHeight
  end.

(** [self.refresh(blocks)] *)
Definition refresh (py : dialect) (blocks : list nat) : M world unit :=
  io system_clear ;;
  self <- self_console ;;
  refresh_from py blocks (__height self).

(** [input(prompt)] *)
Definition input (prompt : string) : M term string :=
  write (Put prompt) ;;
  fun t =>
    match typed t with
    | line :: rest => (Ok line, set_typed t rest)
    | [] => (Raise EOFError, t)
    end.

(** The loop of [askForInput], with the [values] collected so far. *)
Fixpoint ask_from (attributes : list string) (values : list string)
    : M term (list string) :=
  match attributes with
  | [] => ret values
  | attribute :: rest =>
      v <- input (attribute ++ ": ") ;;
      if String.eqb v "" then ret values
      else ask_from rest (values ++ [v])%list
  end.

(** [self.askForInput] on the [attributes] *)
Definition askForInput (attributes : list string) : M world (list string) :=
  with_deactiveConsole (io (print_ "") ;; io (ask_from attributes [])).

End ConsoleM.

(** ** Vocabulary of the properties *)

(** A terminal on which nothing has happened yet. *)
Definition quiet : term := mkTerm [] [] false false false [] [] 0.

(** The suffix that [k] divisions by 1000 reach. *)
Definition reached_suffix (k : nat) : string := nth k ("" :: BlockM.fixes) "".

(** What [__cell] does with the result of a pure computation. *)
Definition returned (r : exn + string) : outcome cell :=
  match r with
  | inl e => Raise e
  | inr s => Ok (CStr s)
  end.

(** The number of [print(s)] calls among events: the lines started. *)
Fixpoint lines_of (evs : list event) : nat :=
  match evs with
  | [] => 0
  | Line _ :: rest => S (lines_of rest)
  | _ :: rest => lines_of rest
  end.

(** Every line of [rows] printed in turn, whatever the height. *)
Fixpoint each_line (py : dialect) (rows : list (list value)) (width : Z)
    : M (Block * term) unit :=
  match rows with
  | [] => ret tt
  | line :: rest =>
      self <- BlockM.self_ ;;
      if (length line <=? length (__columnHeaders self))%nat then
        BlockM.__printLine py line width false ;;
        each_line py rest width
      else raise AssertionError
  end.

(** A block whose headers are the same and whose columns are all at least
    as wide. *)
Definition widened (b b' : Block) : Prop :=
  __columnHeaders b' = __columnHeaders b
  /\ Forall2 Z.le (__columnWidths b) (__columnWidths b').

(** The operations of a block, and a run of them; the state after an
    operation that raised is the state it left. *)
Inductive operation :=
| DoReset (lines : list (list value))
| DoPrint (height width : Z).

Definition operate (py : dialect) (op : operation) : M (Block * term) unit :=
  match op with
  | DoReset lines => BlockM.reset lines
  | DoPrint height width => BlockM.print py height width
  end.

Fixpoint run (py : dialect) (ops : list operation) (s : Block * term) : Block * term :=
  match ops with
  | [] => s
  | op :: rest => run py rest (snd (operate py op s))
  end.

(** A terminal whose writes all succeed. *)
Definition healthy (t : term) : Prop := faults t = [].

(** A block of [n] rows of one cell under one header, not printed yet. *)
Definition sample_block (n : nat) : Block :=
  mkBlock ["name"] [6] (Some (replicate n [VStr "row"])).

(** The number of rows of the block at address [a] (0 when there is none). *)
Definition rows_at (w : world) (a : nat) : Z :=
  match heap w !! a with
  | Some b =>
      match __lines b with
      | Some rows => Z.of_nat (length rows)
      | None => 0
      end
  | None => 0
  end.

(** There is a block at address [a] and it has been [reset]. *)
Definition is_reset (w : world) (a : nat) : bool :=
  match heap w !! a with
  | Some b =>
      match __lines b with
      | Some _ => true
      | None => false
      end
  | None => false
  end.

(** The composition of a screen, as the specification words it: which
    blocks are rendered, on how many lines, and where a blank line
    separates them. *)
Inductive step :=
| Render (block : nat) (height : Z)
| Separate.

Fixpoint layout (rows : nat -> Z) (blocks : list nat) (remaining : Z) : list step :=
  match blocks with
  | [] => []
  | block :: rest =>
      if rows block =? 0 then
        (* a block with no rows is skipped entirely *)
        layout rows rest remaining
      else if remaining <=? 2 then
        (* no room for a header and a row: nothing more is rendered *)
        []
      else
        (* the block gets min(rows + 2, remaining) lines *)
        let height := Z.min (rows block + 2) remaining in
        Render block height ::
        (if 2 <=? remaining - height then
           (* room is left: a blank line, which costs one more *)
           Separate :: layout rows rest (remaining - height - 1)
         else layout rows rest (remaining - height))
  end.

(** The steps carried out one after the other. *)
Fixpoint perform (py : dialect) (width : Z) (steps : list step) : M world unit :=
  match steps with
  | [] => ret tt
  | Render block height :: rest =>
      call block (BlockM.print py height width) ;; perform py width rest
  | Separate :: rest =>
      io (print_ "") ;; perform py width rest
  end.

(** Three blocks, of 3, 0 and 2 rows, on a terminal of the given height
    whose coming writes fail as [fs] says. *)
Definition sample_world (height : Z) (fs : list bool) : world :=
  mkWorld [sample_block 3; sample_block 0; sample_block 2]
          (mkConsole height 80 None None)
          (set_output quiet [] fs).

(** What [askForInput] is to return: the responses before the first blank
    one, one per attribute at most. *)
Fixpoint answers (attributes responses : list string) : list string :=
  match attributes, responses with
  | _ :: attributes', r :: responses' =>
      if String.eqb r "" then [] else r :: answers attributes' responses'
  | _, _ => []
  end.

(** The attributes that are prompted for: each in turn, up to the one that
    gets the first blank response. *)
Fixpoint prompted (attributes responses : list string) : list string :=
  match attributes with
  | [] => []
  | a :: attributes' =>
      a :: match responses with
           | r :: responses' =>
               if String.eqb r "" then [] else prompted attributes' responses'
           | [] => []
           end
  end.

(** The user responds to every prompt: standard input does not end first. *)
Fixpoint answered (attributes responses : list string) : bool :=
  match attributes with
  | [] => true
  | _ :: attributes' =>
      match responses with
      | r :: responses' =>
          if String.eqb r "" then true else answered attributes' responses'
      | [] => false
      end
  end.

(** A process inside [with console:], on a quiet terminal with the given
    responses waiting on standard input. *)
Definition prompt_world (responses : list string) : world :=
  mkWorld [] (mkConsole 20 80 None (Some (Some false))) (set_typed quiet responses).



(** A float divided [k] times by 1000, each division rounded. *)
Definition scaled_down (k : nat) (x : float) : float :=
  Nat.iter k (fun v => v / 1000)%float x.

(** A float that is finite and not an integer. *)
Definition fractional (x : float) : bool :=
  match Prim2SF x with
  | S754_finite _ m e => (e <? 0) && negb (Z.pos m mod 2 ^ (- e) =? 0)
  | _ => false
  end.

(** A float that is zero, or negative and finite with an exponent below
    that of [1e50], or positive and below [2^a]. *)
Definition tame (a : Z) (x : spec_float) : Prop :=
  match x with
  | S754_zero _ => True
  | S754_finite true _ e => e < 114
  | S754_finite false m e => Z.pos (digits2_pos m) + e <= a
  | _ => False
  end.

(** A string that ends with a point and two decimal digits. *)
Definition two_decimals (s : string) : Prop :=
  exists (int_part : string) (d1 d2 : Z),
    0 <= d1 < 10 /\ 0 <= d2 < 10
    /\ s = int_part ++ "." ++ str_int d1 ++ str_int d2.

(** *** What computations leave behind *)

(** On the terminal.
    [quiet_on c]: when [c] completes, the terminal is as it was.
    [safe c]: on a healthy terminal, [c] leaves it healthy and does not
    raise [IOError]. *)
Definition quiet_on {A} (c : M term A) : Prop :=
  forall t a t', c t = (Ok a, t') -> t' = t.

Definition safe {A} (c : M term A) : Prop :=
  forall t, healthy t -> healthy (snd (c t)) /\ fst (c t) <> Raise IOError.

(** On a block and the terminal.
    [kept s s']: the headers and the lines are the same, no column is
    narrower, and a healthy terminal is still healthy.
    [steady c]: [c] keeps the state in that sense, however it ends, and
    does not raise [IOError] on a healthy terminal. *)
Definition kept (s s' : Block * term) : Prop :=
  widened (fst s) (fst s')
  /\ __lines (fst s') = __lines (fst s)
  /\ (healthy (snd s) -> healthy (snd s')).

Definition steady {A} (c : M (Block * term) A) : Prop :=
  forall s, kept s (snd (c s)) /\ (healthy (snd s) -> fst (c s) <> Raise IOError).

(** The lines that a method of [Block] starts.
    [emits n c]: when [c] completes, it has added events to the screen of
    which [n] are lines. *)
Definition emits {A} (n : nat) (c : M (Block * term) A) : Prop :=
  forall s a s', c s = (Ok a, s') ->
    exists evs, screen (snd s') = (screen (snd s) ++ evs)%list /\ lines_of evs = n.

(** On the process.
    [after w w']: the console is the same, every address holds a block with
    the same lines, and a healthy terminal is still healthy. *)
Definition after (w w' : world) : Prop :=
  console w' = console w
  /\ (forall a, rows_at w' a = rows_at w a)
  /\ (forall a, is_reset w' a = is_reset w a)
  /\ (healthy (terminal w) -> healthy (terminal w')).

(** ** Vocabulary of the further properties *)

(** How [__cell] may end, from the terminal [t]: it returns or raises
    [OverflowError] or [TypeError] with the terminal as it was, or it raises
    what [str(value)] raised after two lines of diagnostics, or a write of
    these diagnostics failed. *)
Definition cell_ending {A} (t : term) (r : outcome A * term) : Prop :=
  match r with
  | (Ok _, t') => t' = t
  | (Raise OverflowError, t') => t' = t
  | (Raise TypeError, t') => t' = t
  | (Raise StrError, t') =>
      exists evs : list event,
        screen t' = (screen t ++ evs)%list /\ lines_of evs = 2%nat
  | (Raise IOError, _) => ~ healthy t
  | (Raise _, _) => False
  end.

(** The cells of the items of a list, computed in turn: what [__cell]
    joins. *)
Fixpoint cells_of (py : dialect) (vs : list value) : M term (list cell) :=
  match vs with
  | [] => ret []
  | v :: rest =>
      c <- BlockM.__cell py v ;; cs <- cells_of py rest ;; ret (c :: cs)
  end.

(** A value on which [__cell] returns. *)
Definition printable (py : dialect) (v : value) : bool :=
  match fst (BlockM.__cell py v quiet) with
  | Ok _ => true
  | Raise _ => false
  end.

(** A value without its colour. *)
Definition plain (v : value) : value :=
  match v with
  | VColorStr c => VStr (_str c)
  | _ => v
  end.

(** The number of characters that events put on the screen. *)
Fixpoint chars_of (evs : list event) : Z :=
  match evs with
  | [] => 0
  | Clear :: rest => chars_of rest
  | Put s :: rest => len s + chars_of rest
  | Line s :: rest => len s + chars_of rest
  end.

(** What [__printLine] writes for one column: the cell [c] padded to the
    column width [w] and cut to [leftWidth], between the escape sequences
    that a terminal gets. *)
Definition show_cell (bold : bool) (c : cell) (w leftWidth : Z) : M term unit :=
  tty <- (t <- get ;; ret (stdout_isatty t)) ;;
  BlockM.when (bold && tty) (print_end (ESC ++ "[1m")) ;;
  BlockM.when (BlockM.colored c && tty)
    (print_end (match c with
                | CColorStr k => ColorStrM.color k
                | CStr _ => ""
                end)) ;;
  print_end (slice_to (BlockM.cell_ljust c w) leftWidth) ;;
  BlockM.when ((BlockM.colored c || bold) && tty) (print_end Color.RESET).

(** The block after column [i] has met a cell of length [n]: the width is
    raised for every column but the last of its line. *)
Definition met (b : Block) (inner : bool) (i : nat) (n w0 : Z) : Block :=
  if inner then
    mkBlock (__columnHeaders b) (<[i := Z.max (n + 2) w0]> (__columnWidths b))
            (__lines b)
  else b.

(** A block with one remembered width for each header. *)
Definition aligned (b : Block) : Prop :=
  length (__columnWidths b) = length (__columnHeaders b).

(** A process inside [with console:]: [__enter__] has saved the settings
    of the terminal that standard input is, or found that it is none. *)
Definition entered (w : world) : bool :=
  match __settings (console w) with
  | Some (Some _) => stdin_isatty (terminal w)
  | Some None => negb (stdin_isatty (terminal w))
  | None => false
  end.

(** * Properties *)

(** ** Integers and floats *)

Lemma append_empty_r (s : string) : s ++ "" = s.
Proof. induction s as [|c s IH]; simpl; [reflexivity | now rewrite IH]. Qed.

Lemma str_int_sign (n : Z) : sign_str (n <? 0) ++ str_int (Z.abs n) = str_int n.
Proof. destruct n; reflexivity. Qed.

Lemma digits2_pos_bounds (p : positive) :
  2 ^ (Z.pos (digits2_pos p) - 1) <= Z.pos p < 2 ^ Z.pos (digits2_pos p).
Proof.
  induction p as [p IH|p IH|]; simpl digits2_pos.
  - rewrite Pos2Z.inj_succ.
    replace (Z.succ (Z.pos (digits2_pos p)) - 1) with (Z.succ (Z.pos (digits2_pos p) - 1)) by lia.
    rewrite !Z.pow_succ_r by lia. lia.
  - rewrite Pos2Z.inj_succ.
    replace (Z.succ (Z.pos (digits2_pos p)) - 1) with (Z.succ (Z.pos (digits2_pos p) - 1)) by lia.
    rewrite !Z.pow_succ_r by lia. lia.
  - simpl. lia.
Qed.

Lemma iter_xO_value (p k : positive) :
  Z.pos (Pos.iter xO p k) = Z.pos p * 2 ^ Z.pos k.
Proof.
  induction k as [|k IH] using Pos.peano_ind.
  - simpl. lia.
  - rewrite Pos.iter_succ, Pos2Z.inj_succ, Z.pow_succ_r by lia.
    rewrite Pos2Z.inj_xO, IH. lia.
Qed.

Lemma iter_xO_digits (p k : positive) :
  digits2_pos (Pos.iter xO p k) = (digits2_pos p + k)%positive.
Proof.
  induction k as [|k IH] using Pos.peano_ind.
  - simpl. lia.
  - rewrite Pos.iter_succ. simpl. rewrite IH. lia.
Qed.

(** Rounding a mantissa that already fits changes nothing. *)
Lemma binary_round_aux_canonical (s : bool) (m : positive) (e : Z) :
  fexp 53 1024 (Z.pos (digits2_pos m) + e) = e -> e <= 971 ->
  binary_round_aux 53 1024 s (Z.pos m) e loc_Exact = S754_finite s m e.
Proof.
  intros Hc He. unfold binary_round_aux, shr_fexp.
  change (Zdigits2 (Z.pos m)) with (Z.pos (digits2_pos m)).
  rewrite Hc, Z.sub_diag. cbn [shr shr_record_of_loc shr_m loc_of_shr_record round_nearest_even].
  change (Zdigits2 (Z.pos m)) with (Z.pos (digits2_pos m)).
  rewrite Hc, Z.sub_diag. cbn [shr shr_record_of_loc shr_m].
  replace (e <=? 1024 - 53) with true by (symmetry; apply Z.leb_le; lia).
  reflexivity.
Qed.

(** An integer of at most 53 bits is a float: [sf_of_int] keeps its value. *)
Lemma binary_round_exact (s : bool) (p : positive) :
  Z.pos (digits2_pos p) <= 53 ->
  exists m e, binary_round 53 1024 s p 0 = S754_finite s m e
              /\ -52 <= e <= 0 /\ Z.pos m = Z.pos p * 2 ^ (- e).
Proof.
  intros Hd.
  unfold binary_round, shl_align.
  assert (Hf : fexp 53 1024 (Z.pos (digits2_pos p) + 0) = Z.pos (digits2_pos p) - 53)
    by (unfold fexp, SpecFloat.emin; lia).
  rewrite Hf.
  destruct (Z.pos (digits2_pos p) - 53 - 0) as [|k|k] eqn:Hk; try lia.
  - exists p, 0. split; [|split; [lia | simpl; lia]].
    apply binary_round_aux_canonical; [unfold fexp, SpecFloat.emin|]; lia.
  - exists (Pos.iter xO p k), (Z.neg k). split; [|split; [lia | apply iter_xO_value]].
    replace (Z.pos (digits2_pos p) - 53) with (Z.neg k) by lia.
    apply binary_round_aux_canonical; [|lia].
    rewrite iter_xO_digits. unfold fexp, SpecFloat.emin. lia.
Qed.

Lemma sf_of_int_exact (n : Z) :
  n <> 0 -> Z.abs n < 2 ^ 53 ->
  exists m e, sf_of_int n = S754_finite (n <? 0) m e
              /\ -52 <= e <= 0 /\ Z.pos m = Z.abs n * 2 ^ (- e).
Proof.
  intros Hn Hb. unfold sf_of_int, binary_normalize.
  destruct n as [|p|p]; [tauto| |];
    apply binary_round_exact;
    pose proof (digits2_pos_bounds p) as [Hl _];
    destruct (Z_le_gt_dec (Z.pos (digits2_pos p)) 53) as [|Hgt]; trivial;
    exfalso;
    assert (2 ^ 53 <= 2 ^ (Z.pos (digits2_pos p) - 1)) by (apply Z.pow_le_mono_r; lia);
    simpl Z.abs in Hb; lia.
Qed.

Lemma scaled_exact (m : positive) (e : Z) (a : Z) :
  e <= 0 -> Z.pos m = a * 2 ^ (- e) -> scaled m e 0 = a.
Proof.
  intros He Hm. unfold scaled.
  destruct (0 <=? e) eqn:E.
  - apply Z.leb_le in E. assert (e = 0) by lia. subst e.
    change (2 ^ (- 0)) with 1 in Hm. change (2 ^ 0 * 10 ^ Z.of_nat 0) with 1. lia.
  - unfold round_half_even. change (10 ^ Z.of_nat 0) with 1. rewrite Z.mul_1_r, Hm.
    assert (0 < 2 ^ (- e)) by (apply Z.pow_pos_nonneg; lia).
    rewrite Z.mod_mul, Z.div_mul by lia.
    simpl. destruct (2 ^ (- e)); lia.
Qed.

(** ['%.0f' % n] gives the decimal digits of [n] up to [2^53]. *)
Lemma pct_f_int_exact (py : dialect) (n : Z) :
  Z.abs n < 2 ^ 53 -> pct_f_int py 0 n = inr (str_int n).
Proof.
  intros Hb. unfold pct_f_int.
  destruct (Z.eq_dec n 0) as [->|Hn]; [destruct py; reflexivity|].
  destruct (sf_of_int_exact n Hn Hb) as (m & e & -> & He & Hm).
  f_equal. 
  assert (Hfix : fixed 0 (S754_finite (n <? 0) m e) = str_int n).
  { unfold fixed, fixed_point. rewrite (scaled_exact m e (Z.abs n)) by (trivial; lia).
    change (10 ^ Z.of_nat 0) with 1. rewrite Z.div_1_r, append_empty_r.
    apply str_int_sign. }
  destruct py; simpl; trivial.
  unfold sf_1e50. cbn [SFabs SFleb SFcompare].
  replace (114 ?= e) with Gt by (symmetry; apply Z.compare_gt_iff; lia).
  exact Hfix.
Qed.

Lemma pct_f_int_exact_le (py : dialect) (n : Z) :
  Z.abs n <= 2 ^ 53 -> pct_f_int py 0 n = inr (str_int n).
Proof.
  intros Hb. destruct (Z_lt_le_dec (Z.abs n) (2 ^ 53)) as [H|H].
  - now apply pct_f_int_exact.
  - assert (Hn : n = 2 ^ 53 \/ n = - 2 ^ 53) by lia.
    destruct Hn as [-> | ->]; destruct py; vm_compute; reflexivity.
Qed.

(** ** The integer case of [__cell] *)

Lemma cell_int (py : dialect) (n : Z) (t : term) :
  BlockM.__cell py (VInt n) t =
  (returned (BlockM.numeric py (BlockM.pct_f_num py 0) (BlockM.div_1000 py) (NInt n)), t).
Proof.
  cbn [BlockM.__cell]. unfold bind, lift_exn, returned.
  destruct (BlockM.numeric _ _ _ _); reflexivity.
Qed.

(** An integer below 10000, negative ones included, is returned by the first
    iteration: it is neither divided nor given a suffix. *)
Lemma numeric_below_10000 (py : dialect) (n : Z) :
  n < 10000 ->
  BlockM.numeric py (BlockM.pct_f_num py 0) (BlockM.div_1000 py) (NInt n)
  = pct_f_int py 0 n.
Proof.
  intros H. unfold BlockM.numeric. cbn [BlockM.for_fix BlockM.lt_10000 BlockM.pct_f_num].
  replace (n <? 10000) with true by (symmetry; apply Z.ltb_lt; lia).
  destruct (pct_f_int py 0 n); [reflexivity | now rewrite append_empty_r].
Qed.

(** C2.  For every non-negative integer [n] below 10000, on either
    interpreter, [__cell] returns the decimal digits of [n] and no suffix;
    12345 gives "12k", 999 gives "999" and 15000000 gives "15M". *)
Theorem cell_below_10000_exact :
  (forall (py : dialect) (n : Z) (t : term),
      0 <= n < 10000 -> BlockM.__cell py (VInt n) t = (Ok (CStr (str_int n)), t))
  /\ (forall (py : dialect) (t : term),
         BlockM.__cell py (VInt 12345) t = (Ok (CStr "12k"), t)
         /\ BlockM.__cell py (VInt 999) t = (Ok (CStr "999"), t)
         /\ BlockM.__cell py (VInt 15000000) t = (Ok (CStr "15M"), t)).
Proof.
  split.
  - intros py n t Hn.
    rewrite cell_int, numeric_below_10000, pct_f_int_exact by lia. reflexivity.
  - intros py t. rewrite !cell_int. destruct py; vm_compute; auto.
Qed.

Lemma cell_below_10000_exact_witness :
  0 <= 42 < 10000 /\ BlockM.__cell Py3 (VInt 42) quiet = (Ok (CStr "42"), quiet).
Proof.
  split; [lia | apply (proj1 cell_below_10000_exact Py3 42 quiet); lia].
Defined.

(** C10, as the code has it.  A negative integer passes the test
    [value < 10000] of the first iteration, so it is never divided and gets
    no suffix: the result is ['%.0f' % n].  That is the decimal
    representation of [n] down to [-2^53]. *)
Theorem cell_negative :
  forall (py : dialect) (n : Z) (t : term),
    n < 0 ->
    BlockM.__cell py (VInt n) t = (returned (pct_f_int py 0 n), t)
    /\ (- 2 ^ 53 <= n -> BlockM.__cell py (VInt n) t = (Ok (CStr (str_int n)), t)).
Proof.
  intros py n t Hn. rewrite cell_int, numeric_below_10000 by lia.
  split; [reflexivity|]. intros Hb. rewrite pct_f_int_exact_le by lia. reflexivity.
Qed.

Lemma cell_negative_witness :
  -20000 < 0
  /\ BlockM.__cell Py3 (VInt (-20000)) quiet = (Ok (CStr "-20000"), quiet).
Proof.
  split; [lia|].
  apply (proj2 (cell_negative Py3 (-20000) quiet ltac:(lia))). lia.
Defined.

(** C10, as stated, fails below [-2^53]: ['%.0f'] formats the float nearest
    to the integer. *)
Lemma cell_negative_not_exact :
  BlockM.__cell Py3 (VInt (-9007199254740993)) quiet
  = (Ok (CStr "-9007199254740992"), quiet)
  /\ str_int (-9007199254740993) = "-9007199254740993"
  /\ ~ (forall (py : dialect) (n : Z) (t : term),
           n < 0 -> BlockM.__cell py (VInt n) t = (Ok (CStr (str_int n)), t)).
Proof.
  assert (H : BlockM.__cell Py3 (VInt (-9007199254740993)) quiet
              = (Ok (CStr "-9007199254740992"), quiet)) by (vm_compute; reflexivity).
  split; [exact H|]. split; [reflexivity|].
  intros C. specialize (C Py3 (-9007199254740993) quiet). rewrite H in C.
  assert (Hlt : -9007199254740993 < 0) by lia.
  specialize (C Hlt). discriminate C.
Qed.

(** ** The loop on Python 2 *)

Lemma div_pow_succ (v : Z) (j : nat) :
  v / 1000 / 1000 ^ Z.of_nat j = v / 1000 ^ Z.of_nat (S j).
Proof.
  rewrite Z.div_div by (try apply Z.pow_pos_nonneg; lia).
  rewrite Nat2Z.inj_succ, Z.pow_succ_r by lia. reflexivity.
Qed.





(** ** Reasoning on computations *)

Lemma bind_ok {S A B} (c : M S A) (k : A -> M S B) (s s' : S) (a : A) :
  c s = (Ok a, s') -> bind c k s = k a s'.
Proof. intros H. unfold bind. now rewrite H. Qed.

Lemma bind_raise {S A B} (c : M S A) (k : A -> M S B) (s s' : S) (e : exn) :
  c s = (Raise e, s') -> bind c k s = (Raise e, s').
Proof. intros H. unfold bind. now rewrite H. Qed.

(** Induction on values, with the induction hypothesis on every item of a
    list. *)
Lemma value_induction (P : value -> Prop) :
  P VNone -> (forall n, P (VInt n)) -> (forall x, P (VFloat x)) ->
  (forall c, P (VColorStr c)) -> (forall vs, Forall P vs -> P (VList vs)) ->
  (forall s, P (VStr s)) -> (forall s, P (VOther s)) ->
  forall v, P v.
Proof.
  intros HN HI HF HC HL HS HO.
  fix IH 1. intros [ | n | x | c | vs | s | s];
    [exact HN | apply HI | apply HF | apply HC | | apply HS | apply HO].
  apply HL. induction vs as [|v vs IHvs]; constructor; [apply IH | exact IHvs].
Qed.

Lemma quiet_ret {A} (a : A) : quiet_on (ret a).
Proof. intros t a' t' H. now inversion H. Qed.

Lemma quiet_raise {A} (e : exn) : quiet_on (@raise term A e).
Proof. intros t a' t' H. discriminate H. Qed.

Lemma quiet_bind {A B} (c : M term A) (k : A -> M term B) :
  quiet_on c -> (forall a, quiet_on (k a)) -> quiet_on (bind c k).
Proof.
  intros Hc Hk t b t' H. unfold bind in H.
  destruct (c t) as [[a|e] t1] eqn:E; [|discriminate H].
  apply Hc in E. subst t1. eapply Hk, H.
Qed.

Lemma quiet_lift_exn {A} (r : exn + A) : quiet_on (lift_exn r).
Proof. destruct r; [apply quiet_raise | apply quiet_ret]. Qed.

Lemma safe_ret {A} (a : A) : safe (ret a).
Proof. intros t H. split; [exact H | discriminate]. Qed.

Lemma safe_raise {A} (e : exn) : e <> IOError -> safe (@raise term A e).
Proof. intros He t H. split; [exact H | simpl; congruence]. Qed.

Lemma safe_bind {A B} (c : M term A) (k : A -> M term B) :
  safe c -> (forall a, safe (k a)) -> safe (bind c k).
Proof.
  intros Hc Hk t H. unfold bind. specialize (Hc t H).
  destruct (c t) as [[a|e] t1]; simpl in *; [apply Hk, Hc|].
  split; [apply Hc|]. intros E. apply (proj2 Hc). congruence.
Qed.

Lemma safe_write (ev : event) : safe (write ev).
Proof.
  intros t H. unfold healthy in *. unfold write. rewrite H. simpl.
  split; [reflexivity | discriminate].
Qed.

(** *** [__cell] on the terminal *)

(** The two numeric loops only fail with [OverflowError]. *)
Lemma for_fix_error render divide :
  (forall v e, render v = inl e -> e = OverflowError) ->
  (forall v e, divide v = inl e -> e = OverflowError) ->
  forall fixs v e, BlockM.for_fix render divide fixs v = inl e -> e = OverflowError.
Proof.
  intros Hr Hd. induction fixs as [|f rest IH]; intros v e H; simpl in H; [discriminate|].
  destruct (BlockM.lt_10000 v).
  - destruct (render v) eqn:E; [|discriminate]. inversion H; subst. eapply Hr, E.
  - destruct (divide v) eqn:E; [inversion H; subst; eapply Hd, E | eapply IH, H].
Qed.

Lemma pct_f_int_error py p n e : pct_f_int py p n = inl e -> e = OverflowError.
Proof. unfold pct_f_int. destruct (sf_of_int n); intros H; now inversion H. Qed.

Lemma pct_f_num_error py p v e : BlockM.pct_f_num py p v = inl e -> e = OverflowError.
Proof. destruct v; simpl; [apply pct_f_int_error | discriminate]. Qed.

Lemma int_truediv_error n d e : int_truediv n d = inl e -> e = OverflowError.
Proof. unfold int_truediv. destruct (SFdiv _ _ _ _); intros H; now inversion H. Qed.

Lemma div_1000_error py v e : BlockM.div_1000 py v = inl e -> e = OverflowError.
Proof.
  destruct v as [n|x]; simpl; [|discriminate]. destruct py; [discriminate|].
  destruct n as [|m|m]; [discriminate| |];
    destruct (int_truediv m 1000) eqn:E; intros H; inversion H; subst;
    eapply int_truediv_error, E.
Qed.

Lemma float_div_1000_error v e : BlockM.float_div_1000 v = inl e -> e = OverflowError.
Proof.
  destruct v as [n|x]; simpl; [|discriminate].
  destruct (sf_of_int n); intros H; now inversion H.
Qed.

Lemma numeric_error py render divide v e :
  (forall v e, render v = inl e -> e = OverflowError) ->
  (forall v e, divide v = inl e -> e = OverflowError) ->
  BlockM.numeric py render divide v = inl e -> e = OverflowError.
Proof.
  intros Hr Hd. unfold BlockM.numeric.
  destruct (BlockM.for_fix render divide _ v) as [e'|[s|v']] eqn:E; intros H;
    inversion H; subst.
  eapply for_fix_error; eauto.
Qed.

Lemma safe_lift_overflow {A} (r : exn + A) :
  (forall e, r = inl e -> e = OverflowError) -> safe (lift_exn r).
Proof.
  intros H. destruct r as [e|a]; [|apply safe_ret].
  apply safe_raise. rewrite (H e eq_refl). discriminate.
Qed.

Lemma cell_quiet (py : dialect) (v : value) : quiet_on (BlockM.__cell py v).
Proof.
  induction v as [ | n | x | c | vs IH | s | [s|] ] using value_induction;
    cbn [BlockM.__cell].
  - apply quiet_ret.
  - apply quiet_bind; [apply quiet_lift_exn | intros; apply quiet_ret].
  - apply quiet_bind; [apply quiet_lift_exn | intros; apply quiet_ret].
  - apply quiet_ret.
  - apply quiet_bind.
    + induction IH as [|v vs Hv _ IHvs]; [apply quiet_ret|].
      apply quiet_bind; [exact Hv|]. intros c.
      apply quiet_bind; [exact IHvs | intros; apply quiet_ret].
    + intros cs. destruct (BlockM.strings_of cs); [apply quiet_ret | apply quiet_raise].
  - apply quiet_ret.
  - apply quiet_ret.
  - intros t a t' H. unfold bind in H.
    destruct (print_ _ t) as [[[]|e] t1]; [|discriminate].
    destruct (print_ _ t1) as [[[]|e] t2]; discriminate.
Qed.

Lemma cell_safe (py : dialect) (v : value) : safe (BlockM.__cell py v).
Proof.
  induction v as [ | n | x | c | vs IH | s | [s|] ] using value_induction;
    cbn [BlockM.__cell].
  - apply safe_ret.
  - apply safe_bind; [|intros; apply safe_ret].
    apply safe_lift_overflow. intros e. apply numeric_error.
    + apply pct_f_num_error.
    + apply div_1000_error.
  - apply safe_bind; [|intros; apply safe_ret].
    apply safe_lift_overflow. intros e. apply numeric_error.
    + apply pct_f_num_error.
    + apply float_div_1000_error.
  - apply safe_ret.
  - apply safe_bind.
    + induction IH as [|v vs Hv _ IHvs]; [apply safe_ret|].
      apply safe_bind; [exact Hv|]. intros c.
      apply safe_bind; [exact IHvs | intros; apply safe_ret].
    + intros cs. destruct (BlockM.strings_of cs); [apply safe_ret|].
      apply safe_raise. discriminate.
  - apply safe_ret.
  - apply safe_ret.
  - apply safe_bind; [apply safe_write|]. intros _.
    apply safe_bind; [apply safe_write|]. intros _.
    apply safe_raise. discriminate.
Qed.

Lemma Forall2_le_refl (l : list Z) : Forall2 Z.le l l.
Proof. induction l; constructor; [lia | assumption]. Qed.

Lemma Forall2_le_trans (l1 l2 l3 : list Z) :
  Forall2 Z.le l1 l2 -> Forall2 Z.le l2 l3 -> Forall2 Z.le l1 l3.
Proof.
  intros H. revert l3. induction H as [|x y l1 l2 Hxy _ IH]; intros l3 H3;
    inversion H3; subst; constructor; [lia | now apply IH].
Qed.

Lemma widened_refl (b : Block) : widened b b.
Proof. split; [reflexivity | apply Forall2_le_refl]. Qed.

Lemma widened_trans (b1 b2 b3 : Block) : widened b1 b2 -> widened b2 b3 -> widened b1 b3.
Proof.
  intros [H1 W1] [H2 W2]. split; [congruence | eapply Forall2_le_trans; eauto].
Qed.

Lemma kept_refl (s : Block * term) : kept s s.
Proof. split; [apply widened_refl | split; [reflexivity | trivial]]. Qed.

Lemma kept_trans (s1 s2 s3 : Block * term) : kept s1 s2 -> kept s2 s3 -> kept s1 s3.
Proof.
  intros (W1 & L1 & F1) (W2 & L2 & F2).
  split; [eapply widened_trans; eauto | split; [congruence | auto]].
Qed.

Lemma steady_ret {A} (a : A) : steady (ret a).
Proof. intros s. split; [apply kept_refl | discriminate]. Qed.

Lemma steady_raise {A} (e : exn) : e <> IOError -> steady (@raise (Block * term) A e).
Proof. intros He s. split; [apply kept_refl | simpl; congruence]. Qed.

Lemma steady_bind {A B} (c : M (Block * term) A) (k : A -> M (Block * term) B) :
  steady c -> (forall a, steady (k a)) -> steady (bind c k).
Proof.
  intros Hc Hk s. unfold bind. destruct (Hc s) as [K1 N1].
  destruct (c s) as [[a|e] s1]; simpl in *.
  - destruct (Hk a s1) as [K2 N2]. split; [eapply kept_trans; eauto|].
    intros H. apply N2, K1, H.
  - split; [exact K1|]. intros H E. apply (N1 H). congruence.
Qed.

Lemma steady_on_term {A} (c : M term A) : safe c -> steady (on_term c).
Proof.
  intros Hc [b t]. unfold on_term. destruct (c t) as [r t'] eqn:E. simpl.
  split.
  - split; [apply widened_refl | split; [reflexivity|]].
    simpl. intros H. pose proof (Hc t H) as [H' _]. now rewrite E in H'.
  - simpl. intros H. pose proof (Hc t H) as [_ H']. now rewrite E in H'.
Qed.

Lemma steady_self : steady BlockM.self_.
Proof. intros [b t]. split; [apply kept_refl | discriminate]. Qed.

Lemma steady_index {A} (l : list A) (i : nat) : steady (getitem l i).
Proof.
  unfold getitem. destruct (l !! i); [apply steady_ret | apply steady_raise; discriminate].
Qed.

Lemma insert_max_le (l : list Z) (i : nat) (n w : Z) :
  l !! i = Some w -> Forall2 Z.le l (<[i := Z.max n w]> l).
Proof.
  revert i. induction l as [|x l IH]; intros [|i] H; simpl in *; try discriminate.
  - inversion H; subst. constructor; [lia | apply Forall2_le_refl].
  - constructor; [lia | now apply IH].
Qed.

Lemma steady_grow (i : nat) (n : Z) : steady (BlockM.grow_columnWidth i n).
Proof.
  intros [b t]. unfold BlockM.grow_columnWidth.
  destruct (__columnWidths b !! i) as [w|] eqn:E; simpl.
  - split; [|discriminate].
    split; [|split; [reflexivity | trivial]].
    split; [reflexivity | now apply insert_max_le].
  - split; [apply kept_refl | discriminate].
Qed.

Lemma steady_when (b : bool) (c : M (Block * term) unit) : steady c -> steady (BlockM.when b c).
Proof. destruct b; [trivial | intros _; apply steady_ret]. Qed.

Lemma safe_get : safe (@get term).
Proof. intros t H. split; [exact H | discriminate]. Qed.

Lemma printLine_from_steady py bold n line :
  forall i leftWidth, steady (BlockM.printLine_from py bold n i line leftWidth).
Proof.
  induction line as [|v rest IH]; intros i leftWidth; cbn [BlockM.printLine_from].
  - apply steady_ret.
  - apply steady_bind; [apply steady_on_term, cell_safe | intros c].
    apply steady_bind; [apply steady_self | intros self].
    apply steady_bind; [apply steady_index | intros header].
    destruct (leftWidth <? len header); [apply steady_ret|].
    apply steady_bind; [apply steady_when, steady_grow | intros _].
    apply steady_bind.
    { apply steady_on_term, safe_bind; [apply safe_get | intros; apply safe_ret]. }
    intros tty.
    apply steady_bind; [apply steady_when, steady_on_term, safe_write | intros _].
    apply steady_bind; [apply steady_when, steady_on_term, safe_write | intros _].
    apply steady_bind; [apply steady_self | intros self'].
    apply steady_bind; [apply steady_index | intros w].
    apply steady_bind; [apply steady_on_term, safe_write | intros _].
    apply steady_bind; [apply steady_when, steady_on_term, safe_write | intros _].
    apply IH.
Qed.

Lemma printLine_steady py line leftWidth bold :
  steady (BlockM.__printLine py line leftWidth bold).
Proof.
  apply steady_bind; [apply printLine_from_steady | intros _].
  apply steady_on_term, safe_write.
Qed.

Lemma print_lines_steady py rows :
  forall height width, steady (BlockM.print_lines py rows height width).
Proof.
  induction rows as [|line rest IH]; intros height width; cbn [BlockM.print_lines].
  - apply steady_ret.
  - destruct (height <=? 1); [apply steady_ret|].
    apply steady_bind; [apply steady_self | intros self].
    destruct (length line <=? length (__columnHeaders self))%nat.
    + apply steady_bind; [apply printLine_steady | intros _; apply IH].
    + apply steady_raise. discriminate.
Qed.

Lemma print_steady py height width : steady (BlockM.print py height width).
Proof.
  unfold BlockM.print. destruct (1 <? height); [|apply steady_raise; discriminate].
  apply steady_bind; [apply steady_self | intros self].
  apply steady_bind; [apply printLine_steady | intros _].
  destruct (__lines self); [apply print_lines_steady | apply steady_raise; discriminate].
Qed.

(** C3.  The remembered widths start at 6; [reset] does not touch them;
    the one assignment to a width replaces it by the maximum of the new
    length and itself; so [print], however it ends, and any sequence of
    [reset] and [print], leave every column at least as wide as it was. *)
Theorem columnWidths_never_shrink :
  (forall headers : list string,
      __columnWidths (BlockM.__init__ headers) = replicate (length headers) 6)
  /\ (forall (lines : list (list value)) (b : Block) (t : term),
         __columnWidths (fst (snd (BlockM.reset lines (b, t)))) = __columnWidths b)
  /\ (forall (i : nat) (n w : Z) (b : Block) (t : term),
         __columnWidths b !! i = Some w ->
         __columnWidths (fst (snd (BlockM.grow_columnWidth i n (b, t))))
         = <[i := Z.max n w]> (__columnWidths b))
  /\ (forall (py : dialect) (height width : Z) (b : Block) (t : term),
         widened b (fst (snd (BlockM.print py height width (b, t)))))
  /\ (forall (py : dialect) (ops : list operation) (b : Block) (t : term),
         widened b (fst (run py ops (b, t)))).
Proof.
  split; [reflexivity|]. split; [reflexivity|].
  split.
  { intros i n w b t H. unfold BlockM.grow_columnWidth. now rewrite H. }
  assert (P : forall py height width b t,
             widened b (fst (snd (BlockM.print py height width (b, t))))).
  { intros py height width b t. apply (print_steady py height width (b, t)). }
  split; [exact P|].
  intros py ops. induction ops as [|op ops IH]; intros b t; [apply widened_refl|].
  cbn [run]. destruct (operate py op (b, t)) as [r [b1 t1]] eqn:E. simpl.
  eapply widened_trans; [|apply IH].
  destruct op as [lines | height width]; simpl in E.
  - inversion E; subst. split; [reflexivity | apply Forall2_le_refl].
  - pose proof (P py height width b t) as H. now rewrite E in H.
Qed.

Lemma lines_of_app (evs1 evs2 : list event) :
  lines_of (evs1 ++ evs2) = (lines_of evs1 + lines_of evs2)%nat.
Proof.
  induction evs1 as [|[ |s|s] evs1 IH]; simpl; auto.
Qed.

Lemma emits_ret {A} (a : A) : emits 0 (ret a).
Proof.
  intros s a' s' H. inversion H; subst. exists []. now rewrite app_nil_r.
Qed.

Lemma emits_raise {A} (n : nat) (e : exn) : emits n (@raise (Block * term) A e).
Proof. intros s a s' H. discriminate H. Qed.

Lemma emits_bind {A B} (n m : nat) (c : M (Block * term) A) (k : A -> M (Block * term) B) :
  emits n c -> (forall a, emits m (k a)) -> emits (n + m) (bind c k).
Proof.
  intros Hc Hk s b s' H. unfold bind in H.
  destruct (c s) as [[a|e] s1] eqn:E; [|discriminate H].
  destruct (Hc _ _ _ E) as (evs1 & S1 & L1).
  destruct (Hk _ _ _ _ H) as (evs2 & S2 & L2).
  exists (evs1 ++ evs2)%list. rewrite S2, S1, lines_of_app, L1, L2.
  split; [now rewrite app_assoc | reflexivity].
Qed.

Lemma emits_quiet {A} (c : M term A) : quiet_on c -> emits 0 (on_term c).
Proof.
  intros Hc [b t] a [b' t'] H. unfold on_term in H.
  destruct (c t) as [r t1] eqn:E. inversion H; subst.
  apply Hc in E. subst. exists []. simpl. now rewrite app_nil_r.
Qed.

Lemma emits_write (ev : event) : emits (lines_of [ev]) (on_term (write ev)).
Proof.
  intros [b t] a [b' t'] H. unfold on_term, write in H.
  exists [ev]. split; [|reflexivity].
  destruct (faults t) as [|[|] fs]; inversion H; subst; reflexivity.
Qed.

Lemma emits_self : emits 0 BlockM.self_.
Proof.
  intros [b t] a s' H. inversion H; subst. exists []. simpl. now rewrite app_nil_r.
Qed.

Lemma emits_getitem {A} (l : list A) (i : nat) : emits 0 (getitem l i).
Proof.
  unfold getitem. destruct (l !! i); [apply emits_ret | apply emits_raise].
Qed.

Lemma emits_grow (i : nat) (n : Z) : emits 0 (BlockM.grow_columnWidth i n).
Proof.
  intros [b t] a s' H. unfold BlockM.grow_columnWidth in H.
  destruct (__columnWidths b !! i); inversion H; subst.
  exists []. simpl. now rewrite app_nil_r.
Qed.

Lemma emits_when (b : bool) (c : M (Block * term) unit) :
  emits 0 c -> emits 0 (BlockM.when b c).
Proof. destruct b; [trivial | intros _; apply emits_ret]. Qed.

Lemma printLine_from_emits py bold n line :
  forall i leftWidth, emits 0 (BlockM.printLine_from py bold n i line leftWidth).
Proof.
  induction line as [|v rest IH]; intros i leftWidth; cbn [BlockM.printLine_from].
  - apply emits_ret.
  - apply (emits_bind 0 0); [apply emits_quiet, cell_quiet | intros c].
    apply (emits_bind 0 0); [apply emits_self | intros self].
    apply (emits_bind 0 0); [apply emits_getitem | intros header].
    destruct (leftWidth <? len header); [apply emits_ret|].
    apply (emits_bind 0 0); [apply emits_when, emits_grow | intros _].
    apply (emits_bind 0 0).
    { apply emits_quiet, quiet_bind; [|intros; apply quiet_ret].
      intros t a t' H. now inversion H. }
    intros tty.
    apply (emits_bind 0 0); [apply emits_when, (emits_write (Put _)) | intros _].
    apply (emits_bind 0 0); [apply emits_when, (emits_write (Put _)) | intros _].
    apply (emits_bind 0 0); [apply emits_self | intros self'].
    apply (emits_bind 0 0); [apply emits_getitem | intros w].
    apply (emits_bind 0 0); [apply (emits_write (Put _)) | intros _].
    apply (emits_bind 0 0); [apply emits_when, (emits_write (Put _)) | intros _].
    apply IH.
Qed.

(** [__printLine] starts exactly one line. *)
Lemma printLine_emits py line leftWidth bold :
  emits 1 (BlockM.__printLine py line leftWidth bold).
Proof.
  apply (emits_bind 0 1); [apply printLine_from_emits | intros _].
  apply (emits_write (Line "")).
Qed.

Lemma each_line_emits py rows width : emits (length rows) (each_line py rows width).
Proof.
  induction rows as [|line rest IH]; cbn [each_line length].
  - apply emits_ret.
  - apply (emits_bind 0 (S (length rest))); [apply emits_self | intros self].
    destruct (length line <=? length (__columnHeaders self))%nat; [|apply emits_raise].
    apply (emits_bind 1 (length rest)); [apply printLine_emits | intros _; exact IH].
Qed.

(** The loop of [print] prints the first [height - 1] lines and stops. *)
Lemma print_lines_take py rows :
  forall height width s,
    BlockM.print_lines py rows height width s
    = each_line py (take (Z.to_nat (height - 1)) rows) width s.
Proof.
  induction rows as [|line rest IH]; intros height width s;
    cbn [BlockM.print_lines].
  - now rewrite take_nil.
  - destruct (height <=? 1) eqn:E.
    + apply Z.leb_le in E. replace (Z.to_nat (height - 1)) with 0%nat by lia.
      reflexivity.
    + apply Z.leb_gt in E.
      replace (Z.to_nat (height - 1)) with (S (Z.to_nat (height - 1 - 1))) by lia.
      cbn [take each_line]. unfold bind.
      destruct (BlockM.self_ s) as [[self|e] s1]; [|reflexivity].
      destruct (length line <=? length (__columnHeaders self))%nat; [|reflexivity].
      destruct (BlockM.__printLine py line width false s1) as [[[]|e] s2];
        [apply IH | reflexivity].
Qed.

(** C1, as the code has it.  With [height > 1], [print] prints the header
    line, in bold, and then the first [height - 2] data rows, or all of
    them when there are fewer: it stops as soon as the rows are exhausted or
    fewer than 2 units of the height are left after the header.  When it
    completes it has started one line for the header and one per row shown:
    with [height = 5], that is the header and 3 rows of a block of 10, and
    the header and both rows of a block of 2. *)
Theorem print_header_then_rows :
  forall (py : dialect) (height width : Z) (b : Block) (t : term)
         (rows : list (list value)),
    1 < height ->
    __lines b = Some rows ->
    let shown := take (Z.to_nat (height - 2)) rows in
    BlockM.print py height width (b, t)
    = (BlockM.__printLine py (map VStr (__columnHeaders b)) width true ;;
       each_line py shown width) (b, t)
    /\ (forall s' : Block * term,
           BlockM.print py height width (b, t) = (Ok tt, s') ->
           exists evs : list event,
             screen (snd s') = (screen t ++ evs)%list
             /\ lines_of evs = S (length shown))
    /\ length shown = Nat.min (Z.to_nat (height - 2)) (length rows)
    /\ (height = 5 -> length rows = 10%nat -> length shown = 3%nat)
    /\ (height = 5 -> length rows = 2%nat -> length shown = 2%nat).
Proof.
  intros py height width b t rows Hh Hrows shown.
  assert (Heq : BlockM.print py height width (b, t)
                = (BlockM.__printLine py (map VStr (__columnHeaders b)) width true ;;
                   each_line py shown width) (b, t)).
  { unfold BlockM.print. replace (1 <? height) with true by (symmetry; apply Z.ltb_lt; lia).
    unfold bind at 1. cbn [BlockM.self_]. unfold bind.
    destruct (BlockM.__printLine py _ width true (b, t)) as [[[]|e] s1]; [|reflexivity].
    rewrite Hrows, print_lines_take.
    replace (height - 1 - 1) with (height - 2) by lia. reflexivity. }
  assert (Hlen : length shown = Nat.min (Z.to_nat (height - 2)) (length rows))
    by apply length_take.
  split; [exact Heq|]. split; [|split; [exact Hlen | split; intros; lia]].
  intros s' Hok. rewrite Heq in Hok.
  apply (emits_bind 1 (length shown) _ _ (printLine_emits _ _ _ _)
           (fun _ => each_line_emits py shown width)) in Hok.
  destruct Hok as (evs & Hs & Hl). exists evs. split; [exact Hs | exact Hl].
Qed.

Lemma print_header_then_rows_witness :
  1 < 5
  /\ __lines (sample_block 2) = Some (replicate 2 [VStr "row"])
  /\ exists evs : list event,
      screen (snd (snd (BlockM.print Py3 5 80 (sample_block 2, quiet)))) = evs
      /\ lines_of evs = 3%nat.
Proof.
  split; [lia|]. split; [reflexivity|].
  destruct (print_header_then_rows Py3 5 80 (sample_block 2) quiet
              (replicate 2 [VStr "row"]) ltac:(lia) eq_refl)
    as (_ & H & _).
  destruct (H (snd (BlockM.print Py3 5 80 (sample_block 2, quiet))) eq_refl)
    as (evs & Hs & Hl).
  exists evs. split; [exact Hs | exact Hl].
Defined.

(** C1, as stated, fails on its own example: with [height = 5] a block of
    10 rows is rendered as the header line and 3 data rows, not 4; the
    loop stops when one unit of the height is left. *)
Lemma print_five_of_ten :
  BlockM.print Py3 5 80 (sample_block 10, quiet)
  = (Ok tt,
     (sample_block 10,
      set_output quiet
        [Put "name  "; Line ""; Put "row   "; Line ""; Put "row   "; Line "";
         Put "row   "; Line ""] []))
  /\ lines_of [Put "name  "; Line ""; Put "row   "; Line ""; Put "row   "; Line "";
               Put "row   "; Line ""] = (1 + 3)%nat.
Proof. split; vm_compute; reflexivity. Qed.

(** ** [Console.refresh] *)

Lemma after_refl (w : world) : after w w.
Proof. repeat split; trivial. Qed.

Lemma world_eta (w : world) : mkWorld (heap w) (console w) (terminal w) = w.
Proof. now destruct w. Qed.

(** A method that keeps the block keeps the world. *)
Lemma call_steady {A} (a : nat) (m : M (Block * term) A) (w : world) :
  steady m ->
  after w (snd (call a m w))
  /\ (healthy (terminal w) -> fst (call a m w) <> Raise IOError).
Proof.
  intros Hm. unfold call.
  destruct (heap w !! a) as [b|] eqn:E; [|split; [apply after_refl | discriminate]].
  destruct (Hm (b, terminal w)) as [(W & L & F) N].
  destruct (m (b, terminal w)) as [r [b' t']]. simpl in *.
  split; [|exact N].
  assert (Hlook : forall a', option_map __lines (<[a := b']> (heap w) !! a')
                             = option_map __lines (heap w !! a')).
  { intros a'. destruct (decide (a = a')) as [<-|Hne].
    - rewrite list_lookup_insert_eq by (eapply lookup_lt_Some; eauto).
      rewrite E. simpl. now rewrite L.
    - now rewrite list_lookup_insert_ne. }
  split; [reflexivity|]. split; [|split; [|exact F]].
  - intros a'. unfold rows_at. simpl. specialize (Hlook a').
    destruct (<[a := b']> (heap w) !! a'), (heap w !! a'); simpl in Hlook;
      try discriminate; [|reflexivity].
    inversion Hlook as [H0]. now rewrite H0.
  - intros a'. unfold is_reset. simpl. specialize (Hlook a').
    destruct (<[a := b']> (heap w) !! a'), (heap w !! a'); simpl in Hlook;
      try discriminate; [|reflexivity].
    inversion Hlook as [H0]. now rewrite H0.
Qed.

(** [len(block)] of a block that has been [reset]. *)
Lemma call_len (w : world) (a : nat) :
  is_reset w a = true -> call a BlockM.__len__ w = (Ok (rows_at w a), w).
Proof.
  unfold is_reset, rows_at, call, BlockM.__len__.
  destruct (heap w !! a) as [b|] eqn:E; [|discriminate].
  destruct (__lines b) as [rows|]; [|discriminate]. intros _.
  rewrite list_insert_id by exact E. now rewrite world_eta.
Qed.

Lemma call_len_not_ioerror (w : world) (a : nat) :
  fst (call a BlockM.__len__ w) <> Raise IOError.
Proof.
  unfold call, BlockM.__len__. destruct (heap w !! a) as [b|]; [|discriminate].
  destruct (__lines b); discriminate.
Qed.

Lemma attempt_not_ioerror {S} (c : M S unit) (s : S) :
  fst (attempt c s) <> Raise IOError.
Proof.
  unfold attempt. destruct (c s) as [[[]|e] s']; [discriminate|].
  destruct e; simpl; congruence.
Qed.

(** An attempt that cannot fail on writing is the statement itself. *)
Lemma attempt_no_ioerror {S} (c : M S unit) (s : S) :
  fst (c s) <> Raise IOError ->
  attempt c s = match c s with
                | (Ok _, s') => (Ok true, s')
                | (Raise e, s') => (Raise e, s')
                end.
Proof.
  unfold attempt. destruct (c s) as [[[]|e] s']; simpl; [reflexivity|].
  intros H. destruct e; congruence.
Qed.

Lemma layout_ext (f g : nat -> Z) (blocks : list nat) :
  (forall a, f a = g a) -> forall remaining, layout f blocks remaining = layout g blocks remaining.
Proof.
  intros H. induction blocks as [|a rest IH]; intros remaining; simpl; [reflexivity|].
  rewrite H, !IH. reflexivity.
Qed.

Lemma io_print_healthy (s : string) (w : world) :
  healthy (terminal w) ->
  exists w', io (print_ s) w = (Ok tt, w') /\ after w w'.
Proof.
  intros H. unfold io, print_, write. unfold healthy in H. rewrite H.
  eexists. split; [reflexivity|]. repeat split.
Qed.

Lemma refresh_from_layout (py : dialect) (blocks : list nat) :
  forall (w : world) (leftHeight : Z),
    healthy (terminal w) ->
    Forall (fun a => is_reset w a = true) blocks ->
    ConsoleM.refresh_from py blocks leftHeight w
    = perform py (__width (console w)) (layout (rows_at w) blocks leftHeight) w.
Proof.
  induction blocks as [|block rest IH]; intros w leftHeight Hw Hreset; [reflexivity|].
  inversion Hreset as [|? ? Hb Hrest]; subst.
  cbn [ConsoleM.refresh_from layout].
  rewrite (bind_ok _ _ _ _ _ (call_len w block Hb)).
  destruct (rows_at w block =? 0); [now apply IH|].
  destruct (leftHeight <=? 2); [reflexivity|].
  replace (if rows_at w block + 2 <? leftHeight then rows_at w block + 2 else leftHeight)
    with (Z.min (rows_at w block + 2) leftHeight)
    by (destruct (Z.ltb_spec (rows_at w block + 2) leftHeight); lia).
  set (height := Z.min (rows_at w block + 2) leftHeight).
  unfold bind at 1. cbn [self_console].
  destruct (call_steady block (BlockM.print py height (__width (console w))) w
              (print_steady _ _ _)) as [(Hc & Hr & Hi & Hh) Hn].
  unfold bind at 1. rewrite attempt_no_ioerror by auto.
  cbn [perform].
  destruct (call block (BlockM.print py height (__width (console w))) w)
    as [[[]|e] w1] eqn:E;
    [rewrite (bind_ok _ _ _ _ _ E) | now rewrite (bind_raise _ _ _ _ _ E)].
  simpl in Hc, Hr, Hi, Hh.
  assert (Hreset1 : Forall (fun a => is_reset w1 a = true) rest).
  { eapply Forall_impl; [exact Hrest|]. intros a Ha. simpl in Ha. now rewrite Hi. }
  destruct (2 <=? leftHeight - height).
  - destruct (io_print_healthy "" w1 (Hh Hw)) as (w2 & Hp & Hc2 & Hr2 & Hi2 & Hh2).
    assert (Ha : attempt (io (print_ "")) w1 = (Ok true, w2)).
    { rewrite attempt_no_ioerror by (rewrite Hp; discriminate). now rewrite Hp. }
    rewrite (bind_ok _ _ _ _ _ Ha). cbn [perform].
    rewrite (bind_ok _ _ _ _ _ Hp).
    rewrite IH.
    + rewrite Hc2, Hc. f_equal. apply layout_ext. intros a. now rewrite Hr2, Hr.
    + auto.
    + eapply Forall_impl; [exact Hreset1|]. intros a Ha'. simpl in Ha'. now rewrite Hi2.
  - rewrite IH; auto.
    rewrite Hc. f_equal. apply layout_ext. intros a. now rewrite Hr.
Qed.

(** C4.  On a terminal whose writes succeed, [refresh] clears the screen
    and carries out the [layout] of the blocks within the height of the
    terminal: a block with no rows is skipped, nothing more is rendered once
    2 lines or fewer are left, a rendered block gets
    [min (rows + 2) remaining] lines, which are deducted, and when 2 lines or
    more are left after it a blank line follows, which costs one more. *)
Theorem refresh_follows_layout :
  forall (py : dialect) (blocks : list nat) (w : world),
    healthy (terminal w) ->
    Forall (fun a => is_reset w a = true) blocks ->
    ConsoleM.refresh py blocks w
    = (io ConsoleM.system_clear ;;
       perform py (__width (console w))
               (layout (rows_at w) blocks (__height (console w)))) w.
Proof.
  intros py blocks w Hw Hreset. unfold ConsoleM.refresh, bind.
  destruct (io ConsoleM.system_clear w) as [r w0] eqn:E.
  unfold io, ConsoleM.system_clear in E. inversion E; subst. clear E.
  cbn [self_console console].
  rewrite refresh_from_layout; [reflexivity | exact Hw | exact Hreset].
Qed.

Lemma refresh_follows_layout_witness :
  healthy (terminal (sample_world 20 []))
  /\ layout (rows_at (sample_world 20 [])) [0; 1; 2]%nat 20
     = [Render 0 5; Separate; Render 2 4; Separate]
  /\ ConsoleM.refresh Py3 [0; 1; 2]%nat (sample_world 20 [])
     = (io ConsoleM.system_clear ;;
        perform Py3 80 (layout (rows_at (sample_world 20 [])) [0; 1; 2]%nat 20))
         (sample_world 20 []).
Proof.
  split; [reflexivity|]. split; [reflexivity|].
  apply (refresh_follows_layout Py3 [0; 1; 2]%nat (sample_world 20 []));
    [reflexivity | repeat constructor].
Defined.

(** ** Write failures during [refresh] *)

Lemma refresh_from_not_ioerror (py : dialect) (blocks : list nat) :
  forall (leftHeight : Z) (w : world),
    fst (ConsoleM.refresh_from py blocks leftHeight w) <> Raise IOError.
Proof.
  induction blocks as [|block rest IH]; intros leftHeight w; [discriminate|].
  cbn [ConsoleM.refresh_from]. unfold bind at 1.
  pose proof (call_len_not_ioerror w block) as Hlen.
  destruct (call block BlockM.__len__ w) as [[n|e] w0]; [clear Hlen|].
  2: { simpl in *. congruence. }
  destruct (n =? 0); [apply IH|].
  destruct (leftHeight <=? 2); [discriminate|].
  unfold bind at 1. cbn [self_console]. unfold bind at 1.
  match goal with |- context [attempt ?c w0] =>
    pose proof (attempt_not_ioerror c w0) as Ha;
    destruct (attempt c w0) as [[printed|e] w1] end.
  2: { simpl in *. congruence. }
  clear Ha. destruct printed; [|apply IH].
  destruct (2 <=? _); [|apply IH].
  unfold bind at 1.
  match goal with |- context [attempt ?c w1] =>
    pose proof (attempt_not_ioerror c w1) as Ha;
    destruct (attempt c w1) as [[separated|e] w2] end.
  2: { simpl in *. congruence. }
  destruct separated; apply IH.
Qed.

(** C9.  [refresh] never ends on an [IOError]; when the [print] of a block
    raises it, the loop goes on with the next block, with the height that
    was left before and the state as the failed [print] left it. *)
Theorem refresh_survives_write_failure :
  (forall (py : dialect) (blocks : list nat) (w : world),
      fst (ConsoleM.refresh py blocks w) <> Raise IOError)
  /\ (forall (py : dialect) (block : nat) (rest : list nat) (leftHeight : Z)
             (w w1 : world),
         is_reset w block = true ->
         rows_at w block <> 0 ->
         2 < leftHeight ->
         call block (BlockM.print py (Z.min (rows_at w block + 2) leftHeight)
                                  (__width (console w))) w
         = (Raise IOError, w1) ->
         ConsoleM.refresh_from py (block :: rest) leftHeight w
         = ConsoleM.refresh_from py rest leftHeight w1).
Proof.
  split.
  - intros py blocks w. unfold ConsoleM.refresh, bind.
    destruct (io ConsoleM.system_clear w) as [[[]|e] w0] eqn:E.
    + cbn [self_console]. apply refresh_from_not_ioerror.
    + unfold io, ConsoleM.system_clear in E. discriminate E.
  - intros py block rest leftHeight w w1 Hb Hn Hl Hfail.
    cbn [ConsoleM.refresh_from].
    rewrite (bind_ok _ _ _ _ _ (call_len w block Hb)).
    replace (rows_at w block =? 0) with false by (symmetry; apply Z.eqb_neq; lia).
    replace (leftHeight <=? 2) with false by (symmetry; apply Z.leb_gt; lia).
    replace (if rows_at w block + 2 <? leftHeight then rows_at w block + 2 else leftHeight)
      with (Z.min (rows_at w block + 2) leftHeight)
      by (destruct (Z.ltb_spec (rows_at w block + 2) leftHeight); lia).
    unfold bind at 1. cbn [self_console].
    assert (Ha : attempt (call block (BlockM.print py
                   (Z.min (rows_at w block + 2) leftHeight) (__width (console w)))) w
                 = (Ok false, w1)).
    { unfold attempt. now rewrite Hfail. }
    now rewrite (bind_ok _ _ _ _ _ Ha).
Qed.

Lemma refresh_survives_write_failure_witness :
  is_reset (sample_world 20 [false; true]) 0 = true
  /\ (exists w1 : world,
         call 0%nat (BlockM.print Py3 5 80) (sample_world 20 [false; true])
         = (Raise IOError, w1)
         /\ ConsoleM.refresh_from Py3 [0; 1; 2]%nat 20 (sample_world 20 [false; true])
            = ConsoleM.refresh_from Py3 [1; 2]%nat 20 w1)
  /\ screen (terminal (snd (ConsoleM.refresh Py3 [0; 1; 2]%nat
                              (sample_world 20 [false; true]))))
     = [Clear; Put "name  "; Put "name  "; Line ""; Put "row   "; Line "";
        Put "row   "; Line ""; Line ""].
Proof.
  split; [reflexivity|]. split; [|vm_compute; reflexivity].
  eexists. split; [vm_compute; reflexivity|].
  apply (proj2 refresh_survives_write_failure Py3 0%nat [1; 2]%nat 20
           (sample_world 20 [false; true]));
    [reflexivity | vm_compute; discriminate | lia | vm_compute; reflexivity].
Defined.

(** ** [Console.askForInput] *)

Lemma ask_from_collects (attributes : list string) :
  forall (values : list string) (t : term),
    healthy t ->
    answered attributes (typed t) = true ->
    exists t' : term,
      ConsoleM.ask_from attributes values t
      = (Ok (values ++ answers attributes (typed t))%list, t')
      /\ screen t'
         = (screen t ++ map (fun a => Put (a ++ ": ")) (prompted attributes (typed t)))%list
      /\ healthy t'.
Proof.
  induction attributes as [|a rest IH]; intros values t Ht Hans.
  - exists t. cbn. rewrite !app_nil_r. auto.
  - cbn [ConsoleM.ask_from answered answers prompted] in *.
    unfold bind at 1. unfold ConsoleM.input, bind at 1, write.
    unfold healthy in Ht. rewrite Ht.
    destruct t as [sc fs o i cb ty ks cl]. cbn in *. subst fs.
    destruct ty as [|r rs]; [discriminate|]. cbn.
    destruct (String.eqb r "") eqn:E.
    + rewrite app_nil_r. eexists. split; [reflexivity|]. cbn.
      split; reflexivity.
    + destruct (IH (values ++ [r])%list (mkTerm (sc ++ [Put (a ++ ": ")]) [] o i cb rs ks cl))
        as (t' & Hrun & Hsc & Hh); [reflexivity | exact Hans |].
      exists t'. unfold set_typed, set_output. cbn in *.
      rewrite Hrun, Hsc, <- !app_assoc. auto.
Qed.

(** C8.  Inside [with console:], on a terminal whose writes succeed and
    for a user who responds to every prompt, [askForInput] prints a blank
    line, prompts for the attributes in order, up to the one that gets the
    first blank response, and returns the responses before that one.  So
    with the responses "Alice" and a blank one it returns ["Alice"], and
    with a blank first response it returns []. *)
Theorem askForInput_collects :
  forall (attributes : list string) (w : world) (saved : option bool),
    __settings (console w) = Some saved ->
    healthy (terminal w) ->
    answered attributes (typed (terminal w)) = true ->
    (exists w' : world,
        ConsoleM.askForInput attributes w
        = (Ok (answers attributes (typed (terminal w))), w')
        /\ screen (terminal w')
           = (screen (terminal w) ++
              Line "" :: map (fun a => Put (a ++ ": "))
                             (prompted attributes (typed (terminal w))))%list)
    /\ (forall rest : list string,
           attributes = ["name"; "email"] ->
           typed (terminal w) = "Alice" :: "" :: rest ->
           fst (ConsoleM.askForInput attributes w) = Ok ["Alice"])
    /\ (forall (a : string) (attributes' rest : list string),
           attributes = a :: attributes' ->
           typed (terminal w) = "" :: rest ->
           fst (ConsoleM.askForInput attributes w) = Ok []).
Proof.
  intros attributes w saved Hset Hw Hans.
  assert (Hrun : exists w' : world,
             ConsoleM.askForInput attributes w
             = (Ok (answers attributes (typed (terminal w))), w')
             /\ screen (terminal w')
                = (screen (terminal w) ++
                   Line "" :: map (fun a => Put (a ++ ": "))
                                  (prompted attributes (typed (terminal w))))%list).
  { destruct w as [hp [h wd last st] t]. cbn in *. subst st.
    destruct t as [sc fs o i cb ty ks cl]. unfold healthy in Hw. cbn in *. subst fs.
    destruct (ask_from_collects attributes [] (mkTerm (sc ++ [Line ""]) [] o i
                (match saved with Some b => b | None => cb end) ty ks cl))
      as (t' & Hask & Hsc & Hh); [reflexivity | exact Hans |].
    cbn in Hask, Hsc.
    unfold ConsoleM.askForInput, ConsoleM.with_deactiveConsole.
    destruct saved as [b|]; cbn; unfold bind, io, set_output, set_cbreak; cbn;
      rewrite Hask;
      destruct t' as [sc' fs' o' i' cb' ty' ks' cl']; cbn in *; subst sc';
      destruct i'; cbn; eexists; (split; [reflexivity|]); cbn;
      now rewrite <- app_assoc. }
  split; [exact Hrun|].
  destruct Hrun as (w' & Hrun & _). rewrite Hrun. cbn.
  split.
  - intros rest -> ->. reflexivity.
  - intros a attributes' rest -> ->. reflexivity.
Qed.

Lemma askForInput_collects_witness :
  fst (ConsoleM.askForInput ["name"; "email"] (prompt_world ["Alice"; ""]))
  = Ok ["Alice"]
  /\ fst (ConsoleM.askForInput ["name"; "email"] (prompt_world [""])) = Ok [].
Proof.
  split.
  - apply (proj1 (proj2 (askForInput_collects ["name"; "email"]
                           (prompt_world ["Alice"; ""]) (Some false)
                           eq_refl eq_refl eq_refl)) [] eq_refl eq_refl).
  - apply (proj2 (proj2 (askForInput_collects ["name"; "email"]
                           (prompt_world [""]) (Some false)
                           eq_refl eq_refl eq_refl)) "name" ["email"] [] eq_refl eq_refl).
Defined.

(** ** [Console.checkButton] *)








(** ** The float case of [__cell] *)

(** *** Rounding never passes the next power of two *)

Lemma Zdigits2_le (m k : Z) : 0 <= m -> 0 <= k -> m < 2 ^ k -> Zdigits2 m <= k.
Proof.
  intros Hm Hk H. destruct m as [|p|p]; [simpl; lia | | lia].
  simpl. pose proof (digits2_pos_bounds p) as [Hl _].
  destruct (Z_le_gt_dec (Z.pos (digits2_pos p)) k) as [|Hgt]; [assumption|].
  assert (2 ^ k <= 2 ^ (Z.pos (digits2_pos p) - 1)) by (apply Z.pow_le_mono_r; lia).
  lia.
Qed.

Lemma shr_1_m (mrs : shr_record) :
  0 <= shr_m mrs -> shr_m (shr_1 mrs) = shr_m mrs / 2.
Proof.
  destruct mrs as [m r s]. cbn [shr_m shr_1]. intros Hm.
  destruct m as [|[p|p|]|p]; try lia; cbn [shr_m].
  - reflexivity.
  - apply Z.div_unique with 1; lia.
  - apply Z.div_unique with 0; lia.
  - reflexivity.
Qed.

Lemma iter_shr_1_m (p : positive) :
  forall mrs : shr_record,
    0 <= shr_m mrs ->
    shr_m (SpecFloat.iter_pos shr_1 p mrs) = shr_m mrs / 2 ^ Z.pos p.
Proof.
  assert (Hpos : forall m k, 0 <= m -> 0 <= k -> 0 <= m / 2 ^ k)
    by (intros; apply Z.div_pos; [lia | apply Z.pow_pos_nonneg; lia]).
  induction p as [p IH|p IH|]; intros mrs Hm; cbn [SpecFloat.iter_pos];
    try assert (Hp : 0 < 2 ^ Z.pos p) by (apply Z.pow_pos_nonneg; lia).
  - assert (H1 : 0 <= shr_m (shr_1 mrs))
      by (rewrite shr_1_m; [apply Z.div_pos; lia | assumption]).
    assert (H2 : 0 <= shr_m (SpecFloat.iter_pos shr_1 p (shr_1 mrs)))
      by (rewrite IH by assumption; apply Hpos; lia).
    rewrite (IH _ H2), (IH _ H1), shr_1_m by assumption.
    rewrite !Z.div_div by lia.
    f_equal. replace (Z.pos p~1) with (1 + Z.pos p + Z.pos p) by lia.
    rewrite !Z.pow_add_r by lia. change (2 ^ 1) with 2. lia.
  - assert (H2 : 0 <= shr_m (SpecFloat.iter_pos shr_1 p mrs))
      by (rewrite IH by assumption; apply Hpos; lia).
    rewrite (IH _ H2), (IH _ Hm).
    rewrite !Z.div_div by lia.
    f_equal. replace (Z.pos p~0) with (Z.pos p + Z.pos p) by lia.
    rewrite Z.pow_add_r by lia. reflexivity.
  - rewrite shr_1_m by assumption. reflexivity.
Qed.

Lemma Zdigits2_le_succ (m k : Z) : 0 <= m -> 0 <= k -> m <= 2 ^ k -> Zdigits2 m <= k + 1.
Proof.
  intros Hm Hk H. apply Zdigits2_le; [lia | lia |].
  rewrite Z.pow_add_r by lia. change (2 ^ 1) with 2.
  assert (0 < 2 ^ k) by (apply Z.pow_pos_nonneg; lia). lia.
Qed.

Lemma shr_record_of_loc_m (m : Z) (l : location) : shr_m (shr_record_of_loc m l) = m.
Proof. destruct l as [|[ | | ]]; reflexivity. Qed.

(** Shifting a mantissa to its place keeps the number under [2^a]. *)
Lemma shr_fexp_bound (m e a : Z) (l : location) :
  0 <= m -> e <= a -> m <= 2 ^ (a - e) -> -1074 <= a ->
  forall mrs e', shr_fexp 53 1024 m e l = (mrs, e') ->
    0 <= shr_m mrs /\ e' <= a /\ shr_m mrs <= 2 ^ (a - e')
    /\ (m < 2 ^ (a - e) -> shr_m mrs < 2 ^ (a - e')).
Proof.
  intros Hm He Hle Ha mrs e' H. unfold shr_fexp, shr in H.
  assert (Hd : Zdigits2 m <= a - e + 1) by (apply Zdigits2_le_succ; lia).
  assert (Hf : fexp 53 1024 (Zdigits2 m + e) <= a) by (unfold fexp, SpecFloat.emin; lia).
  destruct (fexp 53 1024 (Zdigits2 m + e) - e) as [|p|p] eqn:En;
    inversion H; subst; clear H; rewrite ?shr_record_of_loc_m; auto.
  rewrite iter_shr_1_m by (rewrite shr_record_of_loc_m; assumption).
  rewrite shr_record_of_loc_m.
  assert (Hp : 0 < 2 ^ Z.pos p) by (apply Z.pow_pos_nonneg; lia).
  assert (Hsplit : 2 ^ (a - e) = 2 ^ Z.pos p * 2 ^ (a - (e + Z.pos p))).
  { rewrite <- Z.pow_add_r by lia. f_equal. lia. }
  split; [apply Z.div_pos; lia|]. split; [lia|]. split.
  - apply Z.div_le_upper_bound; [lia|]. rewrite <- Hsplit.
    assert (0 <= 2 ^ (a - e)) by (apply Z.pow_nonneg; lia).
    transitivity (2 ^ (a - e)); [assumption|].
    rewrite Hsplit. assert (0 < 2 ^ (a - (e + Z.pos p))) by (apply Z.pow_pos_nonneg; lia).
    nia.
  - intros Hlt. apply Z.div_lt_upper_bound; [lia|]. now rewrite <- Hsplit.
Qed.

Lemma round_nearest_even_bound (m : Z) (l : location) :
  m <= round_nearest_even m l <= m + 1.
Proof. destruct l as [|[ | | ]]; simpl; try lia. destruct (Z.even m); lia. Qed.

(** A number under [2^a] is rounded to zero or to a float of at most
    [a + 1] binary digits above the point. *)
Lemma binary_round_aux_below (sx : bool) (mx ex a : Z) (lx : location) :
  0 <= mx -> ex <= a -> mx < 2 ^ (a - ex) -> -1074 <= a <= 971 ->
  binary_round_aux 53 1024 sx mx ex lx = S754_zero sx
  \/ exists m' e',
      binary_round_aux 53 1024 sx mx ex lx = S754_finite sx m' e'
      /\ Z.pos (digits2_pos m') + e' <= a + 1.
Proof.
  intros Hm He Hlt Ha. unfold binary_round_aux.
  destruct (shr_fexp 53 1024 mx ex lx) as [mrs1 e1] eqn:E1.
  destruct (shr_fexp_bound mx ex a lx Hm He ltac:(lia) ltac:(lia) _ _ E1)
    as (H1 & He1 & _ & Hs1).
  specialize (Hs1 Hlt).
  pose proof (round_nearest_even_bound (shr_m mrs1) (loc_of_shr_record mrs1)) as Hr.
  destruct (shr_fexp 53 1024 (round_nearest_even (shr_m mrs1) (loc_of_shr_record mrs1))
                     e1 loc_Exact) as [mrs2 e2] eqn:E2.
  destruct (shr_fexp_bound (round_nearest_even (shr_m mrs1) (loc_of_shr_record mrs1))
              e1 a loc_Exact ltac:(lia) He1 ltac:(lia) ltac:(lia) _ _ E2)
    as (H2 & He2 & Hle2 & _).
  destruct (shr_m mrs2) as [|m|m] eqn:Em; [now left | | lia].
  right. exists m, e2.
  replace (e2 <=? 1024 - 53) with true by (symmetry; apply Z.leb_le; lia).
  split; [reflexivity|].
  pose proof (Zdigits2_le_succ (Z.pos m) (a - e2) ltac:(lia) ltac:(lia) Hle2) as Hd.
  simpl in Hd. lia.
Qed.

(** *** Division by 1000 *)

(** A float of at least 10000 divided by 1000 loses 8 binary digits above
    the point, at least. *)
Lemma div_1000_shrinks (m : positive) (e : Z) :
  Z.pos (digits2_pos m) = 53 -> -39 <= e <= 900 ->
  tame (53 + e - 8)
       (SFdiv 53 1024 (S754_finite false m e)
              (S754_finite false 8796093022208000 (-43))).
Proof.
  intros Hd He. cbn [SFdiv xorb]. unfold SFdiv_core_binary.
  change (Zdigits2 (Z.pos m)) with (Z.pos (digits2_pos m)). rewrite Hd.
  change (Zdigits2 (Z.pos 8796093022208000)) with 53.
  replace (Z.min (fexp 53 1024 (53 + e - (53 + -43))) (e - -43)) with (e - 10)
    by (unfold fexp, SpecFloat.emin; lia).
  replace (e - -43 - (e - 10)) with 53 by lia.
  destruct (Z.div_eucl (Z.shiftl (Z.pos m) 53) (Z.pos 8796093022208000)) as [q r] eqn:Ed.
  assert (Hq : q = Z.shiftl (Z.pos m) 53 / Z.pos 8796093022208000)
    by (unfold Z.div; now rewrite Ed).
  rewrite Z.shiftl_mul_pow2 in Hq by lia.
  pose proof (digits2_pos_bounds m) as [_ Hm]. rewrite Hd in Hm.
  assert (H0 : 0 <= q) by (subst q; apply Z.div_pos; lia).
  assert (H1 : q < 2 ^ (e + 44 - (e - 10))).
  { replace (e + 44 - (e - 10)) with 54 by lia. subst q.
    apply Z.div_lt_upper_bound; [lia|].
    change (2 ^ 53) with 9007199254740992 in *.
    change (2 ^ 54) with 18014398509481984. lia. }
  destruct (binary_round_aux_below false q (e - 10) (e + 44)
              (new_location (Z.pos 8796093022208000) r) H0 ltac:(lia) H1 ltac:(lia))
    as [-> | (m' & e' & -> & Hs)]; simpl; [trivial | lia].
Qed.

(** The floats that pass the test [value < 10000]. *)
Lemma tame_lt_10000 (x : float) :
  tame 13 (Prim2SF x) -> BlockM.lt_10000 (NFloat x) = true.
Proof.
  intros Ht. cbn [BlockM.lt_10000]. rewrite ltb_spec.
  pose proof (Prim2SF_valid x) as Hv.
  change (Prim2SF 10000) with (S754_finite false 5497558138880000 (-39)).
  destruct (Prim2SF x) as [s|s| |[|] m e]; simpl in Ht; try contradiction;
    try reflexivity.
  unfold SFltb, SFcompare.
  unfold valid_binary, bounded, canonical_mantissa in Hv.
  apply andb_prop in Hv. destruct Hv as [Hc _]. apply Z.eqb_eq in Hc.
  unfold fexp, SpecFloat.emin, prec, emax in Hc.
  replace (e ?= -39) with Lt by (symmetry; apply Z.compare_lt_iff; lia).
  reflexivity.
Qed.

(** The floats that do not pass it and are tame: they are at least 10000. *)
Lemma tame_not_lt_10000 (a : Z) (x : float) :
  tame a (Prim2SF x) -> BlockM.lt_10000 (NFloat x) = false ->
  exists m e, Prim2SF x = S754_finite false m e
              /\ Z.pos (digits2_pos m) = 53 /\ -39 <= e.
Proof.
  intros Ht. cbn [BlockM.lt_10000]. rewrite ltb_spec.
  pose proof (Prim2SF_valid x) as Hv.
  change (Prim2SF 10000) with (S754_finite false 5497558138880000 (-39)).
  destruct (Prim2SF x) as [s|s| |[|] m e]; simpl in Ht; try contradiction;
    try discriminate.
  unfold SFltb, SFcompare. intros Hlt.
  unfold valid_binary, bounded, canonical_mantissa in Hv.
  apply andb_prop in Hv. destruct Hv as [Hc _]. apply Z.eqb_eq in Hc.
  unfold fexp, SpecFloat.emin, prec, emax in Hc.
  exists m, e. split; [reflexivity|].
  destruct (Z.compare_spec e (-39)); try discriminate; lia.
Qed.

(** Python 2 formats a tame float that passes the test with ['%f']. *)
Lemma pct_f_tame (py : dialect) (a : Z) (p : nat) (x : float) :
  tame a (Prim2SF x) -> BlockM.lt_10000 (NFloat x) = true ->
  pct_f py p x = fixed p (Prim2SF x).
Proof.
  intros Ht. cbn [BlockM.lt_10000]. rewrite ltb_spec.
  change (Prim2SF 10000) with (S754_finite false 5497558138880000 (-39)).
  unfold pct_f, pct_f_sf. destruct py; [|reflexivity].
  unfold sf_1e50.
  destruct (Prim2SF x) as [s|s| |[|] m e]; simpl in Ht; try contradiction;
    try reflexivity; unfold SFltb, SFleb, SFabs, SFcompare; intros Hlt.
  - replace (114 ?= e) with Gt by (symmetry; apply Z.compare_gt_iff; lia).
    reflexivity.
  - assert (e <= -39) by (destruct (Z.compare_spec e (-39)); try discriminate; lia).
    replace (114 ?= e) with Gt by (symmetry; apply Z.compare_gt_iff; lia).
    reflexivity.
Qed.

Lemma tame_mono (a b : Z) (x : spec_float) : a <= b -> tame a x -> tame b x.
Proof. destruct x as [s|s| |[|] m e]; simpl; trivial. lia. Qed.

(** *** The loop on floats *)

(** On a tame float the loop stops at the first [k] for which the float,
    divided [k] times, is below 10000, and formats it with ['%.02f']. *)
Lemma for_fix_float (py : dialect) (fixs : list string) :
  forall v : float,
    fixs <> [] ->
    tame (13 + 8 * (Z.of_nat (length fixs) - 1)) (Prim2SF v) ->
    13 + 8 * (Z.of_nat (length fixs) - 1) <= 900 ->
    exists k : nat,
      (k < length fixs)%nat
      /\ (forall j : nat, (j < k)%nat ->
                          BlockM.lt_10000 (NFloat (scaled_down j v)) = false)
      /\ BlockM.lt_10000 (NFloat (scaled_down k v)) = true
      /\ tame (13 + 8 * (Z.of_nat (length fixs) - 1)) (Prim2SF (scaled_down k v))
      /\ BlockM.for_fix (BlockM.pct_f_num py 2) BlockM.float_div_1000 fixs (NFloat v)
         = inr (inl (fixed 2 (Prim2SF (scaled_down k v)) ++ nth k fixs "")).
Proof.
  induction fixs as [|f rest IH]; intros v Hne Ht Ha; [congruence|].
  cbn [BlockM.for_fix].
  destruct (BlockM.lt_10000 (NFloat v)) eqn:E.
  - exists 0%nat. cbn [scaled_down Nat.iter nth BlockM.pct_f_num].
    split; [simpl; lia|]. split; [intros; lia|]. split; [exact E|].
    split; [exact Ht|].
    now rewrite (pct_f_tame py _ 2 v Ht E).
  - destruct (tame_not_lt_10000 _ v Ht E) as (m & e & Hv & Hd & He).
    destruct rest as [|f' rest'].
    { cbn in Ht. rewrite (tame_lt_10000 v) in E; [discriminate|].
      change (13 + 8 * (1 - 1)) with 13 in Ht. exact Ht. }
    set (a := 13 + 8 * (Z.of_nat (length (f' :: rest')) - 1)) in *.
    assert (Hsucc : 13 + 8 * (Z.of_nat (length (f :: f' :: rest')) - 1) = a + 8)
      by (unfold a; cbn [length]; lia).
    rewrite Hsucc in *.
    assert (Ht' : tame a (Prim2SF (v / 1000))).
    { rewrite div_spec, Hv.
      change (Prim2SF 1000) with (S754_finite false 8796093022208000 (-43)).
      rewrite Hv in Ht. simpl in Ht.
      eapply tame_mono; [|apply div_1000_shrinks; [exact Hd | lia]]. lia. }
    destruct (IH (v / 1000)%float ltac:(congruence) Ht' ltac:(lia))
      as (k & Hk & Hmin & Hlt & Htk & Heq).
    exists (S k). unfold scaled_down in *.
    split; [cbn [length] in *; lia|]. split; [|split; [|split]].
    + intros [|j] Hj; [exact E|]. rewrite Nat.iter_succ_r. apply Hmin. lia.
    + rewrite Nat.iter_succ_r. exact Hlt.
    + rewrite Nat.iter_succ_r. eapply tame_mono; [|exact Htk]. lia.
    + cbn [BlockM.float_div_1000]. rewrite Heq, Nat.iter_succ_r. reflexivity.
Qed.

(** *** Two decimal digits *)

Lemma append_assoc (s1 s2 s3 : string) : (s1 ++ s2) ++ s3 = s1 ++ s2 ++ s3.
Proof. induction s1 as [|c s1 IH]; simpl; [reflexivity | now rewrite IH]. Qed.

Lemma zfill_two (r : Z) :
  0 <= r < 100 -> zfill 2 (str_int r) = str_int (r / 10) ++ str_int (r mod 10).
Proof.
  intros Hr.
  assert (Hall : forallb (fun n : nat =>
                            String.eqb (zfill 2 (str_int (Z.of_nat n)))
                                       (str_int (Z.of_nat n / 10)
                                        ++ str_int (Z.of_nat n mod 10)))
                         (seq 0 100) = true) by (vm_compute; reflexivity).
  rewrite forallb_forall in Hall.
  specialize (Hall (Z.to_nat r)). rewrite Z2Nat.id in Hall by lia.
  apply String.eqb_eq, Hall, in_seq. lia.
Qed.

Lemma fixed_two_decimals (a : Z) (x : spec_float) : tame a x -> two_decimals (fixed 2 x).
Proof.
  assert (H : forall (s : bool) (N : Z), two_decimals (sign_str s ++ fixed_point 2 N)).
  { intros s N. unfold fixed_point. change (10 ^ Z.of_nat 2) with 100.
    assert (Hr : 0 <= N mod 100 < 100) by (apply Z.mod_pos_bound; lia).
    exists (sign_str s ++ str_int (N / 100)), (N mod 100 / 10), (N mod 100 mod 10).
    split; [split; [apply Z.div_pos; lia | apply Z.div_lt_upper_bound; lia]|].
    split; [apply Z.mod_pos_bound; lia|].
    rewrite zfill_two by exact Hr. now rewrite append_assoc. }
  destruct x as [s|s| |s m e]; simpl; intros Ht; try contradiction; apply H.
Qed.

Lemma fractional_tame (x : float) : fractional x = true -> tame 77 (Prim2SF x).
Proof.
  unfold fractional. pose proof (Prim2SF_valid x) as Hv.
  destruct (Prim2SF x) as [s|s| |s m e]; try discriminate.
  intros H. apply andb_prop in H. destruct H as [He _]. apply Z.ltb_lt in He.
  unfold valid_binary, bounded, canonical_mantissa in Hv.
  apply andb_prop in Hv. destruct Hv as [Hc _]. apply Z.eqb_eq in Hc.
  unfold fexp, SpecFloat.emin, prec, emax in Hc.
  destruct s; simpl; lia.
Qed.

Lemma cell_float (py : dialect) (x : float) (t : term) :
  BlockM.__cell py (VFloat x) t =
  (returned (BlockM.numeric py (BlockM.pct_f_num py 2) BlockM.float_div_1000 (NFloat x)), t).
Proof.
  cbn [BlockM.__cell]. unfold bind, lift_exn, returned.
  destruct (BlockM.numeric _ _ _ _); reflexivity.
Qed.

(** C6.  For every float that is not an integer, on either interpreter,
    [__cell] runs the loop of the whole numbers, with the division of floats:
    the float is divided by 1000 while it is not below 10000, [k] times with
    [k <= 8], and the result is the float reached, in fixed notation with two
    decimal digits, followed by the [k]-th suffix.  12345.6 gives
    "12.35k". *)
Theorem compaction_fractional :
  (forall (py : dialect) (x : float) (t : term),
      fractional x = true ->
      exists k : nat,
        (k <= 8)%nat
        /\ (forall j : nat, (j < k)%nat ->
                            BlockM.lt_10000 (NFloat (scaled_down j x)) = false)
        /\ BlockM.lt_10000 (NFloat (scaled_down k x)) = true
        /\ BlockM.__cell py (VFloat x) t
           = (Ok (CStr (fixed 2 (Prim2SF (scaled_down k x)) ++ reached_suffix k)), t)
        /\ two_decimals (fixed 2 (Prim2SF (scaled_down k x))))
  /\ (forall (py : dialect) (t : term),
         BlockM.__cell py (VFloat 12345.6) t = (Ok (CStr "12.35k"), t)).
Proof.
  split.
  - intros py x t Hx.
    destruct (for_fix_float py ("" :: BlockM.fixes) x) as (k & Hk & Hmin & Hlt & Ht & Heq).
    + congruence.
    + apply fractional_tame, Hx.
    + cbn. lia.
    + exists k. split; [cbn [length BlockM.fixes] in Hk; lia|].
      split; [exact Hmin|]. split; [exact Hlt|].
      split; [|eapply fixed_two_decimals, Ht].
      rewrite cell_float. unfold BlockM.numeric. rewrite Heq. reflexivity.
  - intros py t. rewrite cell_float. destruct py; vm_compute; reflexivity.
Qed.

Lemma compaction_fractional_witness :
  fractional 12345.6 = true
  /\ exists k : nat,
      (k <= 8)%nat
      /\ BlockM.__cell Py3 (VFloat 12345.6) quiet
         = (Ok (CStr (fixed 2 (Prim2SF (scaled_down k 12345.6)) ++ reached_suffix k)),
            quiet).
Proof.
  split; [vm_compute; reflexivity|].
  destruct (proj1 compaction_fractional Py3 12345.6%float quiet)
    as (k & Hk & _ & _ & H & _); [vm_compute; reflexivity|].
  exists k. split; [exact Hk | exact H].
Defined.

(** * Further properties of [Block]

    ** How [__cell] ends *)

(** The cell of a list goes through the cells of its items. *)
Lemma cell_list (py : dialect) (vs : list value) :
  BlockM.__cell py (VList vs)
  = (cs <- cells_of py vs ;;
     match BlockM.strings_of cs with
     | Some ss => ret (CStr (join " / " ss))
     | None => raise TypeError
     end).
Proof.
  cbn [BlockM.__cell]. f_equal.
  induction vs as [|v vs IH]; [reflexivity|].
  cbn [cells_of]. rewrite <- IH. reflexivity.
Qed.

Lemma ending_ret {A} (a : A) (t : term) : cell_ending t (@ret term A a t).
Proof. reflexivity. Qed.

Lemma ending_bind {A B} (c : M term A) (k : A -> M term B) :
  (forall t, cell_ending t (c t)) -> (forall a t, cell_ending t (k a t)) ->
  forall t, cell_ending t (bind c k t).
Proof.
  intros Hc Hk t. unfold bind. specialize (Hc t).
  destruct (c t) as [[a|e] t1]; simpl in Hc.
  - subst t1. apply Hk.
  - destruct e; exact Hc.
Qed.

Lemma ending_overflow {A} (r : exn + A) (t : term) :
  (forall e, r = inl e -> e = OverflowError) -> cell_ending t (lift_exn r t).
Proof.
  intros H. destruct r as [e|a]; [|reflexivity].
  rewrite (H e eq_refl). reflexivity.
Qed.

Lemma cells_of_ending (py : dialect) (vs : list value) :
  Forall (fun v => forall t, cell_ending t (BlockM.__cell py v t)) vs ->
  forall t, cell_ending t (cells_of py vs t).
Proof.
  induction 1 as [|v vs Hv _ IH]; cbn [cells_of]; [intros; reflexivity|].
  apply ending_bind; [exact Hv | intros c].
  apply ending_bind; [exact IH | intros; reflexivity].
Qed.

Lemma cell_ends (py : dialect) (v : value) :
  forall t, cell_ending t (BlockM.__cell py v t).
Proof.
  induction v as [ | n | x | c | vs IH | s | [s|] ] using value_induction.
  - intros; reflexivity.
  - cbn [BlockM.__cell]. apply ending_bind; [|intros; reflexivity].
    intros t. apply ending_overflow. intros e. apply numeric_error.
    + apply pct_f_num_error.
    + apply div_1000_error.
  - cbn [BlockM.__cell]. apply ending_bind; [|intros; reflexivity].
    intros t. apply ending_overflow. intros e. apply numeric_error.
    + apply pct_f_num_error.
    + apply float_div_1000_error.
  - intros; reflexivity.
  - rewrite cell_list. apply ending_bind; [apply cells_of_ending, IH|].
    intros cs t. destruct (BlockM.strings_of cs); reflexivity.
  - intros; reflexivity.
  - intros; reflexivity.
  - intros t. cbn [BlockM.__cell]. unfold bind, print_, write, healthy.
    destruct (faults t) as [|[|] [|[|] fs]] eqn:E; simpl; try rewrite E; simpl;
      try discriminate;
      try (eexists; split; [rewrite <- app_assoc; reflexivity | reflexivity]);
      unfold healthy; congruence.
Qed.

(** *** X1 *)


(** *** The cell does not depend on the terminal *)

Lemma cells_of_uniform (py : dialect) (vs : list value) :
  Forall (fun v => (exists c, forall t, BlockM.__cell py v t = (Ok c, t))
                   \/ (forall t, exists e t', BlockM.__cell py v t = (Raise e, t'))) vs ->
  (exists cs, (forall t, cells_of py vs t = (Ok cs, t))
              /\ Forall2 (fun v c => forall t, BlockM.__cell py v t = (Ok c, t)) vs cs)
  \/ (forall t, exists e t', cells_of py vs t = (Raise e, t')).
Proof.
  induction 1 as [|v vs Hv _ IH]; cbn [cells_of].
  - left. exists []. split; [reflexivity | constructor].
  - destruct Hv as [[c Hc]|Hv].
    + destruct IH as [[cs [Hcs Hall]]|IH].
      * left. exists (c :: cs). split; [|constructor; assumption].
        intros t. rewrite (bind_ok _ _ _ _ _ (Hc t)), (bind_ok _ _ _ _ _ (Hcs t)).
        reflexivity.
      * right. intros t. destruct (IH t) as [e [t' He]]. exists e, t'.
        rewrite (bind_ok _ _ _ _ _ (Hc t)). apply (bind_raise _ _ _ _ _ He).
    + right. intros t. destruct (Hv t) as [e [t' He]]. exists e, t'.
      apply (bind_raise _ _ _ _ _ He).
Qed.

Lemma returned_uniform (r : exn + string) :
  (exists c, forall t : term, (returned r, t) = (Ok c, t))
  \/ (forall t : term, exists e t', (returned r, t) = (Raise e : outcome cell, t')).
Proof.
  destruct r as [e|s]; [right; intros t; exists e, t | left; exists (CStr s)];
    reflexivity.
Qed.

Lemma cell_uniform (py : dialect) (v : value) :
  (exists c, forall t, BlockM.__cell py v t = (Ok c, t))
  \/ (forall t, exists e t', BlockM.__cell py v t = (Raise e, t')).
Proof.
  induction v as [ | n | x | c | vs IH | s | [s|] ] using value_induction.
  - left. exists (CStr ""). reflexivity.
  - destruct (returned_uniform
                (BlockM.numeric py (BlockM.pct_f_num py 0) (BlockM.div_1000 py) (NInt n)))
      as [[c H]|H]; [left; exists c | right]; intros t; rewrite cell_int; apply H.
  - destruct (returned_uniform
                (BlockM.numeric py (BlockM.pct_f_num py 2) BlockM.float_div_1000 (NFloat x)))
      as [[c H]|H]; [left; exists c | right]; intros t; rewrite cell_float; apply H.
  - left. exists (CColorStr c). reflexivity.
  - rewrite cell_list. destruct (cells_of_uniform py vs IH) as [[cs [Hcs _]]|H].
    + destruct (BlockM.strings_of cs) as [ss|] eqn:E.
      * left. exists (CStr (join " / " ss)). intros t.
        rewrite (bind_ok _ _ _ _ _ (Hcs t)), E. reflexivity.
      * right. intros t. exists TypeError, t.
        rewrite (bind_ok _ _ _ _ _ (Hcs t)), E. reflexivity.
    + right. intros t. destruct (H t) as [e [t' He]]. exists e, t'.
      apply (bind_raise _ _ _ _ _ He).
  - left. exists (CStr s). reflexivity.
  - left. exists (CStr s). reflexivity.
  - right. intros t. cbn [BlockM.__cell]. unfold bind.
    destruct (print_ _ t) as [[[]|e] t1]; [|eauto].
    destruct (print_ _ t1) as [[[]|e] t2]; eauto.
Qed.

(** A printable value has one cell, on every terminal. *)
Lemma printable_cell (py : dialect) (v : value) :
  printable py v = true -> exists c, forall t, BlockM.__cell py v t = (Ok c, t).
Proof.
  intros H. destruct (cell_uniform py v) as [Hc|Hr]; [exact Hc|].
  unfold printable in H. destruct (Hr quiet) as [e [t' He]].
  rewrite He in H. discriminate H.
Qed.

Lemma cell_printable (py : dialect) (v : value) (t t' : term) (c : cell) :
  BlockM.__cell py v t = (Ok c, t') ->
  printable py v = true /\ forall t2, BlockM.__cell py v t2 = (Ok c, t2).
Proof.
  intros H. destruct (cell_uniform py v) as [[c' Hc]|Hr].
  - rewrite Hc in H. inversion H; subst. split; [|exact Hc].
    unfold printable. now rewrite Hc.
  - destruct (Hr t) as [e [t1 He]]. rewrite He in H. discriminate H.
Qed.

Lemma cells_of_printable (py : dialect) (vs : list value) :
  Forall (fun v => printable py v = true) vs ->
  exists cs, (forall t, cells_of py vs t = (Ok cs, t))
             /\ Forall2 (fun v c => forall t, BlockM.__cell py v t = (Ok c, t)) vs cs.
Proof.
  induction 1 as [|v vs Hv _ [cs [Hcs Hall]]]; cbn [cells_of].
  - exists []. split; [reflexivity | constructor].
  - destruct (printable_cell py v Hv) as [c Hc]. exists (c :: cs).
    split; [|constructor; assumption].
    intros t. rewrite (bind_ok _ _ _ _ _ (Hc t)), (bind_ok _ _ _ _ _ (Hcs t)).
    reflexivity.
Qed.

(** *** X2 *)

Lemma strings_of_strings (ss : list string) :
  BlockM.strings_of (map CStr ss) = Some ss.
Proof. induction ss as [|s ss IH]; simpl; [reflexivity | now rewrite IH]. Qed.

(** X2. The cell of a list.  When the cells of the items are character
    strings, it is these strings joined by [" / "] (the empty string for the
    empty list).  A [ColorStr] cannot be an item: when the cells of all the
    items have been computed, the join raises [TypeError], and nothing has
    been written. *)
Theorem cell_of_list :
  (forall (py : dialect) (vs : list value) (ss : list string) (t : term),
      Forall2 (fun v s => BlockM.__cell py v t = (Ok (CStr s), t)) vs ss ->
      BlockM.__cell py (VList vs) t = (Ok (CStr (join " / " ss)), t))
  /\ (forall (py : dialect) (vs : list value) (k : ColorStr) (t : term),
         In (VColorStr k) vs ->
         Forall (fun v => printable py v = true) vs ->
         BlockM.__cell py (VList vs) t = (Raise TypeError, t)).
Proof.
  split.
  - intros py vs ss t H. rewrite cell_list.
    assert (E : cells_of py vs t = (Ok (map CStr ss), t)).
    { induction H as [|v s vs ss Hv _ IH]; [reflexivity|].
      cbn [cells_of map]. rewrite (bind_ok _ _ _ _ _ Hv), (bind_ok _ _ _ _ _ IH).
      reflexivity. }
    rewrite (bind_ok _ _ _ _ _ E), strings_of_strings. reflexivity.
  - intros py vs k t Hin Hall. rewrite cell_list.
    destruct (cells_of_printable py vs Hall) as [cs [Hcs H2]].
    rewrite (bind_ok _ _ _ _ _ (Hcs t)).
    assert (E : BlockM.strings_of cs = None); [|now rewrite E].
    clear Hcs Hall. induction H2 as [|v c vs cs Hv _ IH]; [destruct Hin|].
    destruct Hin as [->|Hin].
    + specialize (Hv quiet). inversion Hv. reflexivity.
    + cbn [BlockM.strings_of]. destruct c; [|reflexivity].
      now rewrite (IH Hin).
Qed.

Lemma cell_of_list_witness :
  BlockM.__cell Py3 (VList [VInt 12345; VNone; VList [VStr "a"; VInt 2]]) quiet
  = (Ok (CStr "12k /  / a / 2"), quiet)
  /\ In (VColorStr (mkColorStr "up" (Some Color.GREEN)))
        [VInt 3; VColorStr (mkColorStr "up" (Some Color.GREEN))]
  /\ BlockM.__cell Py3 (VList [VInt 3; VColorStr (mkColorStr "up" (Some Color.GREEN))])
                   quiet
     = (Raise TypeError, quiet).
Proof.
  split; [|split; [right; left; reflexivity|]].
  - apply (proj1 cell_of_list Py3 [VInt 12345; VNone; VList [VStr "a"; VInt 2]]
             ["12k"; ""; "a / 2"] quiet).
    repeat constructor.
  - apply (proj2 cell_of_list Py3 _ (mkColorStr "up" (Some Color.GREEN))).
    + right; left; reflexivity.
    + repeat constructor.
Defined.

(** *** X3 *)

Lemma for_fix_exhausted render divide (fixs : list string) :
  forall (v : float),
    (forall x, divide (NFloat x) = inr (NFloat (x / 1000)%float)) ->
    (forall j : nat, (j < length fixs)%nat ->
                     BlockM.lt_10000 (NFloat (scaled_down j v)) = false) ->
    BlockM.for_fix render divide fixs (NFloat v)
    = inr (inr (NFloat (scaled_down (length fixs) v))).
Proof.
  induction fixs as [|f rest IH]; intros v Hd H; [reflexivity|].
  assert (Hs : forall (k : nat) (u : float),
             scaled_down (S k) u = scaled_down k (u / 1000)%float).
  { intros k u. unfold scaled_down.
    change (S k) with (1 + k)%nat. rewrite Nat.add_comm. apply Nat.iter_add. }
  cbn [BlockM.for_fix length].
  pose proof (H 0%nat) as H0. change (scaled_down 0 v) with v in H0.
  rewrite H0 by (cbn [length]; lia).
  rewrite Hd, IH; [|exact Hd|].
  - now rewrite Hs.
  - intros j Hj. rewrite <- Hs. apply H. simpl. lia.
Qed.

Lemma for_fix_exhausted_py2 (fixs : list string) :
  forall (n : Z),
    10000 * 1000 ^ (Z.of_nat (length fixs) - 1) <= n ->
    BlockM.for_fix (BlockM.pct_f_num Py2 0) (BlockM.div_1000 Py2) fixs (NInt n)
    = inr (inr (NInt (n / 1000 ^ Z.of_nat (length fixs)))).
Proof.
  induction fixs as [|f rest IH]; intros n H.
  - simpl. now rewrite Z.div_1_r.
  - cbn [BlockM.for_fix BlockM.lt_10000 BlockM.div_1000].
    assert (Hp : 0 < 1000 ^ Z.of_nat (length rest)) by (apply Z.pow_pos_nonneg; lia).
    replace (Z.of_nat (length (f :: rest)) - 1) with (Z.of_nat (length rest)) in H
      by (cbn [length]; lia).
    destruct (n <? 10000) eqn:E; [apply Z.ltb_lt in E; nia|].
    destruct rest as [|f' rest'].
    + simpl. reflexivity.
    + rewrite IH.
      * rewrite div_pow_succ. reflexivity.
      * replace (Z.of_nat (length (f' :: rest'))) with
          (Z.of_nat (length (f' :: rest')) - 1 + 1) in H by lia.
        rewrite Z.pow_add_r in H by (cbn [length]; lia).
        apply Z.div_le_lower_bound; lia.
Qed.

(** X3. A number that no suffix brings below 10000 loses the suffix
    altogether: after the loop has divided it nine times, [__cell] returns
    [str] of what is left.  So it is for a float none of whose nine first
    quotients is below 10000 (the infinity and the NaN among them) and, on
    Python 2, for an integer from [10^28] on. *)
Theorem cell_beyond_largest_suffix :
  (forall (py : dialect) (x : float) (t : term),
      (forall j : nat, (j <= 8)%nat ->
                       BlockM.lt_10000 (NFloat (scaled_down j x)) = false) ->
      BlockM.__cell py (VFloat x) t
      = (Ok (CStr (str_float py (scaled_down 9 x))), t))
  /\ (forall (n : Z) (t : term),
         10 ^ 28 <= n ->
         BlockM.__cell Py2 (VInt n) t = (Ok (CStr (str_int (n / 10 ^ 27))), t)).
Proof.
  split.
  - intros py x t H. rewrite cell_float. unfold BlockM.numeric.
    rewrite for_fix_exhausted; [reflexivity | reflexivity |].
    intros j Hj. apply H. cbn [length BlockM.fixes] in Hj. lia.
  - intros n t H. rewrite cell_int. unfold BlockM.numeric.
    rewrite for_fix_exhausted_py2; [reflexivity|].
    cbn [length BlockM.fixes]. exact H.
Qed.

Lemma cell_beyond_largest_suffix_witness :
  (forall j : nat, (j <= 8)%nat ->
                   BlockM.lt_10000 (NFloat (scaled_down j 1e40)) = false)
  /\ BlockM.__cell Py3 (VFloat 1e40) quiet = (Ok (CStr "10000000000000.0"), quiet)
  /\ 10 ^ 28 <= 5 * 10 ^ 30
  /\ BlockM.__cell Py2 (VInt (5 * 10 ^ 30)) quiet = (Ok (CStr "5000"), quiet).
Proof.
  assert (H : forall j : nat, (j <= 8)%nat ->
                BlockM.lt_10000 (NFloat (scaled_down j 1e40)) = false).
  { intros j Hj. do 9 (destruct j as [|j]; [vm_compute; reflexivity|]). lia. }
  split; [exact H|]. split.
  - refine (eq_trans (proj1 cell_beyond_largest_suffix Py3 1e40%float quiet H) _).
    vm_compute. reflexivity.
  - split; [vm_compute; discriminate|].
    refine (eq_trans (proj2 cell_beyond_largest_suffix (5 * 10 ^ 30) quiet _) _);
      [vm_compute; discriminate | vm_compute; reflexivity].
Defined.

(** ** One line, column by column *)

Lemma length_append (s1 s2 : string) :
  String.length (s1 ++ s2) = (String.length s1 + String.length s2)%nat.
Proof. induction s1 as [|c s1 IH]; simpl; [reflexivity | now rewrite IH]. Qed.

Lemma length_spaces (n : nat) : String.length (spaces n) = n.
Proof. induction n as [|n IH]; simpl; [reflexivity | now rewrite IH]. Qed.

Lemma len_ljust (s : string) (w : Z) : len (ljust s w) = Z.max (len s) w.
Proof. unfold ljust, len. rewrite length_append, length_spaces. lia. Qed.

Lemma length_substring (s : string) :
  forall n : nat, String.length (substring 0 n s) = Nat.min n (String.length s).
Proof.
  induction s as [|c s IH]; intros [|n]; simpl; try reflexivity.
  now rewrite IH.
Qed.

Lemma len_slice_to (s : string) (n : Z) :
  0 <= n -> len (slice_to s n) = Z.min (len s) n.
Proof.
  intros H. unfold slice_to, len. destruct (n <? 0) eqn:E; [apply Z.ltb_lt in E; lia|].
  rewrite length_substring. lia.
Qed.

Lemma len_nonneg (s : string) : 0 <= len s.
Proof. unfold len. lia. Qed.

Lemma bind_on_term {A B} (c : M term A) (k : A -> M (Block * term) B)
    (b : Block) (t : term) :
  bind (on_term c) k (b, t)
  = match c t with
    | (Ok a, t1) => k a (b, t1)
    | (Raise e, t1) => (Raise e, (b, t1))
    end.
Proof. unfold bind, on_term. destruct (c t) as [[a|e] t1]; reflexivity. Qed.

Lemma bind_when_on_term {B} (g : bool) (c : M term unit)
    (k : unit -> M (Block * term) B) (b : Block) (t : term) :
  bind (BlockM.when g (on_term c)) k (b, t)
  = if g then
      match c t with
      | (Ok _, t1) => k tt (b, t1)
      | (Raise e, t1) => (Raise e, (b, t1))
      end
    else k tt (b, t).
Proof.
  destruct g; simpl; [|reflexivity].
  rewrite bind_on_term. destruct (c t) as [[[]|e] t1]; reflexivity.
Qed.

Lemma block_eta (b : Block) :
  mkBlock (__columnHeaders b) (__columnWidths b) (__lines b) = b.
Proof. now destruct b. Qed.

(** The width that column [i] has once a cell of length [n] has been met. *)
Lemma met_width (b : Block) (inner : bool) (i : nat) (n w0 : Z) :
  __columnWidths b !! i = Some w0 ->
  __columnWidths (met b inner i n w0) !! i
  = Some (if inner then Z.max (n + 2) w0 else w0).
Proof.
  intros H. destruct inner; simpl; [|exact H].
  apply list_lookup_insert_eq. apply lookup_lt_Some in H. exact H.
Qed.

(** One turn of the loop of [__printLine], for a cell that is computed and a
    column that has a header and a width. *)
Lemma printLine_from_step (py : dialect) (bold : bool) (n i : nat) (v : value)
    (rest : list value) (leftWidth : Z) (b : Block) (t : term)
    (c : cell) (header : string) (w0 : Z) :
  BlockM.__cell py v t = (Ok c, t) ->
  __columnHeaders b !! i = Some header ->
  __columnWidths b !! i = Some w0 ->
  BlockM.printLine_from py bold n i (v :: rest) leftWidth (b, t)
  = if leftWidth <? len header then (Ok tt, (b, t))
    else
      let inner := Z.of_nat i + 1 <? Z.of_nat n in
      let w := if inner then Z.max (BlockM.cell_len c + 2) w0 else w0 in
      let b1 := met b inner i (BlockM.cell_len c) w0 in
      match show_cell bold c w leftWidth t with
      | (Ok _, t1) =>
          BlockM.printLine_from py bold n (S i) rest (leftWidth - w) (b1, t1)
      | (Raise e, t1) => (Raise e, (b1, t1))
      end.
Proof.
  intros Hc Hh Hw. cbn [BlockM.printLine_from].
  pose proof (met_width b (Z.of_nat i + 1 <? Z.of_nat n) i (BlockM.cell_len c) w0 Hw)
    as Hm.
  unfold show_cell, bind, on_term, BlockM.self_, getitem, get, ret.
  rewrite Hc, Hh.
  destruct (leftWidth <? len header); [reflexivity|].
  cbv zeta.
  destruct (Z.of_nat i + 1 <? Z.of_nat n);
    unfold BlockM.when at 1; unfold BlockM.grow_columnWidth, met in *;
    try rewrite Hw; cbn [__columnWidths __columnHeaders __lines] in *;
    cbv beta iota;
    destruct bold, (stdout_isatty t) eqn:Etty, (BlockM.colored c);
    cbn [BlockM.when andb orb ret];
    repeat first
      [ progress cbn [__columnWidths __columnHeaders __lines fst snd]
      | progress cbv beta iota
      | progress cbn [BlockM.when andb orb ret]
      | rewrite Etty
      | rewrite Hm
      | rewrite Hw
      | match goal with
        | |- context [print_end ?s ?u] =>
            destruct (print_end s u) as [[[]|?] ?]
        end ];
    reflexivity.
Qed.

(** *** What a write leaves of the terminal *)

Lemma write_tty (ev : event) (t : term) :
  stdout_isatty (snd (write ev t)) = stdout_isatty t.
Proof. unfold write. destruct (faults t) as [|[|] fs]; reflexivity. Qed.

Lemma print_end_tty (s : string) (t t' : term) (r : outcome unit) :
  print_end s t = (r, t') -> stdout_isatty t' = stdout_isatty t.
Proof. intros H. rewrite <- (write_tty (Put s) t). unfold print_end in H. now rewrite H. Qed.

Lemma write_ok (ev : event) (t t' : term) :
  write ev t = (Ok tt, t') ->
  screen t' = (screen t ++ [ev])%list /\ (healthy t -> healthy t').
Proof.
  unfold write, healthy. destruct (faults t) as [|[|] fs] eqn:E; intros H;
    inversion H; subst; simpl; split; try reflexivity; try discriminate.
Qed.

Lemma write_healthy (ev : event) (t : term) :
  healthy t -> write ev t = (Ok tt, set_output t (screen t ++ [ev])%list []).
Proof. unfold write, healthy. intros ->. reflexivity. Qed.

(** Where standard output is no terminal, a column is the text of its
    cell. *)
Lemma show_cell_plain (bold : bool) (c : cell) (w leftWidth : Z) (t : term) :
  stdout_isatty t = false ->
  show_cell bold c w leftWidth t
  = print_end (slice_to (BlockM.cell_ljust c w) leftWidth) t.
Proof.
  intros H. unfold show_cell, bind, get, ret. rewrite H.
  rewrite !andb_false_r. cbn [BlockM.when ret].
  destruct (print_end _ t) as [[[]|e] t1]; reflexivity.
Qed.

(** ** Escape sequences go to a terminal only *)

Lemma plain_cell (py : dialect) (v : value) (c : cell) :
  (forall t, BlockM.__cell py v t = (Ok c, t)) ->
  exists c', (forall t, BlockM.__cell py (plain v) t = (Ok c', t))
             /\ BlockM.cell_len c' = BlockM.cell_len c
             /\ (forall w, BlockM.cell_ljust c' w = BlockM.cell_ljust c w).
Proof.
  intros H. destruct v as [ | n | x | k | vs | s | s];
    try (exists c; repeat split; exact H).
  specialize (H quiet). inversion H; subst.
  exists (CStr (_str k)). repeat split.
Qed.

Lemma printLine_from_plain (py : dialect) (bold : bool) (n : nat) (line : list value) :
  forall (i : nat) (leftWidth : Z) (b : Block) (t : term),
    stdout_isatty t = false ->
    BlockM.printLine_from py bold n i line leftWidth (b, t)
    = BlockM.printLine_from py false n i (map plain line) leftWidth (b, t).
Proof.
  induction line as [|v rest IH]; intros i leftWidth b t Htty; [reflexivity|].
  destruct (cell_uniform py v) as [[c Hc]|Hr].
  - destruct (plain_cell py v c Hc) as [c' [Hc' [Hlen Hljust]]].
    cbn [BlockM.printLine_from map].
    rewrite !bind_on_term, Hc, Hc'.
    unfold bind, on_term, BlockM.self_, getitem, get, ret.
    destruct (__columnHeaders b !! i) as [header|]; [|reflexivity].
    destruct (leftWidth <? len header); [reflexivity|].
    rewrite Hlen.
    destruct (Z.of_nat i + 1 <? Z.of_nat n);
      unfold BlockM.when at 1; unfold BlockM.when at 4;
      unfold BlockM.grow_columnWidth;
      destruct (__columnWidths b !! i) as [w0|] eqn:Hw; try reflexivity;
      cbv beta iota; rewrite ?Htty, ?andb_false_r;
      cbn [BlockM.when andb orb ret __columnWidths __columnHeaders __lines];
      repeat first
        [ progress cbv beta iota
        | progress cbn [BlockM.when andb orb ret __columnWidths __columnHeaders
                        __lines]
        | rewrite Hw
        | rewrite Htty
        | rewrite andb_false_r
        | rewrite Hljust
        | match goal with
          | |- context [<[i := ?x]> (__columnWidths b) !! i] =>
              rewrite (list_lookup_insert_eq (__columnWidths b) i x)
                by (apply lookup_lt_Some in Hw; exact Hw)
          | |- context [print_end ?s ?u] =>
              let E := fresh "E" in
              destruct (print_end s u) as [[[]|?] ?] eqn:E;
              apply print_end_tty in E
          end ];
      try reflexivity;
      apply IH; congruence.
  - assert (Hp : plain v = v).
    { destruct v; try reflexivity. destruct (Hr quiet) as [e [t' He]]. discriminate He. }
    cbn [BlockM.printLine_from map]. rewrite Hp, !bind_on_term.
    destruct (Hr t) as [e [t' He]]. rewrite He. reflexivity.
Qed.

(** X4. Where standard output is not a terminal, [__printLine] writes no
    escape sequence: a line in bold with coloured cells is written, and
    remembered in the column widths, as the same line of plain strings. *)
Theorem printLine_plain_off_terminal :
  forall (py : dialect) (line : list value) (leftWidth : Z) (bold : bool)
         (b : Block) (t : term),
    stdout_isatty t = false ->
    BlockM.__printLine py line leftWidth bold (b, t)
    = BlockM.__printLine py (map plain line) leftWidth false (b, t).
Proof.
  intros py line leftWidth bold b t H. unfold BlockM.__printLine.
  unfold bind. rewrite length_map.
  now rewrite (printLine_from_plain py bold (length line) line 0 leftWidth b t H).
Qed.

Lemma printLine_plain_off_terminal_witness :
  stdout_isatty quiet = false
  /\ BlockM.__printLine Py3 [VColorStr (mkColorStr "up" (Some Color.GREEN)); VInt 7]
                        80 true (BlockM.__init__ ["state"; "n"], quiet)
     = BlockM.__printLine Py3 [VStr "up"; VInt 7] 80 false
                          (BlockM.__init__ ["state"; "n"], quiet).
Proof.
  split; [reflexivity|].
  exact (printLine_plain_off_terminal Py3
           [VColorStr (mkColorStr "up" (Some Color.GREEN)); VInt 7] 80 true
           (BlockM.__init__ ["state"; "n"]) quiet eq_refl).
Defined.

(** ** A line is cut to the width *)

(** A column that has no remembered width cannot be written. *)
Lemma printLine_from_no_width (py : dialect) (bold : bool) (n i : nat) (v : value)
    (rest : list value) (leftWidth : Z) (b : Block) (t : term)
    (c : cell) (header : string) :
  BlockM.__cell py v t = (Ok c, t) ->
  __columnHeaders b !! i = Some header ->
  (leftWidth <? len header) = false ->
  __columnWidths b !! i = None ->
  exists e s1,
    BlockM.printLine_from py bold n i (v :: rest) leftWidth (b, t) = (Raise e, s1).
Proof.
  intros Hc Hh HL Hw. cbn [BlockM.printLine_from].
  rewrite bind_on_term, Hc.
  unfold bind, on_term, BlockM.self_, getitem, get, ret.
  rewrite Hh, HL.
  destruct (Z.of_nat i + 1 <? Z.of_nat n);
    unfold BlockM.when at 1; unfold BlockM.grow_columnWidth.
  - rewrite Hw. cbv beta iota. eauto.
  - cbv beta iota.
    destruct bold, (stdout_isatty t) eqn:Etty, (BlockM.colored c);
      repeat first
        [ progress cbv beta iota
        | progress cbn [BlockM.when andb orb ret]
        | rewrite Etty
        | rewrite Hw
        | match goal with
          | |- context [print_end ?s ?u] =>
              destruct (print_end s u) as [[[]|?] ?]
          end ];
      eauto.
Qed.

Lemma chars_of_nonneg (evs : list event) : 0 <= chars_of evs.
Proof.
  induction evs as [|[|s|s] evs IH]; simpl; try lia; pose proof (len_nonneg s); lia.
Qed.

Lemma len_cell_ljust (c : cell) (w : Z) :
  len (BlockM.cell_ljust c w) = Z.max (BlockM.cell_len c) w.
Proof. destruct c; apply len_ljust. Qed.

Lemma printLine_from_cut (py : dialect) (bold : bool) (n : nat) (line : list value) :
  forall (i : nat) (leftWidth : Z) (b : Block) (t : term) (s' : Block * term),
    stdout_isatty t = false ->
    (i + length line = n)%nat ->
    BlockM.printLine_from py bold n i line leftWidth (b, t) = (Ok tt, s') ->
    exists evs : list event,
      screen (snd s') = (screen t ++ evs)%list
      /\ chars_of evs <= Z.max 0 leftWidth.
Proof.
  induction line as [|v rest IH]; intros i leftWidth b t s' Htty Hn H.
  - inversion H; subst. exists []. rewrite app_nil_r. split; [reflexivity | simpl; lia].
  - destruct (cell_uniform py v) as [[c Hc]|Hr].
    2:{ cbn [BlockM.printLine_from] in H. rewrite bind_on_term in H.
        destruct (Hr t) as [e [t' He]]. rewrite He in H. discriminate H. }
    destruct (__columnHeaders b !! i) as [header|] eqn:Hh.
    2:{ cbn [BlockM.printLine_from] in H. rewrite bind_on_term, Hc in H.
        unfold bind, BlockM.self_, getitem in H. rewrite Hh in H. discriminate H. }
    destruct (leftWidth <? len header) eqn:HL.
    { destruct (__columnWidths b !! i) as [w0|] eqn:Hw.
      - rewrite (printLine_from_step py bold n i v rest leftWidth b t c header w0
                   (Hc t) Hh Hw), HL in H.
        inversion H; subst. exists []. rewrite app_nil_r.
        split; [reflexivity | simpl; lia].
      - cbn [BlockM.printLine_from] in H. rewrite bind_on_term, Hc in H.
        unfold bind, BlockM.self_, getitem in H. rewrite Hh in H. cbn [ret] in H.
        rewrite HL in H. inversion H; subst. exists []. rewrite app_nil_r.
        split; [reflexivity | simpl; lia]. }
    apply Z.ltb_ge in HL. pose proof (len_nonneg header) as Hpos.
    destruct (__columnWidths b !! i) as [w0|] eqn:Hw.
    2:{ destruct (printLine_from_no_width py bold n i v rest leftWidth b t c header
                    (Hc t) Hh (proj2 (Z.ltb_ge _ _) HL) Hw) as [e [s1 He]].
        rewrite He in H. discriminate H. }
    rewrite (printLine_from_step py bold n i v rest leftWidth b t c header w0
               (Hc t) Hh Hw) in H.
    rewrite (proj2 (Z.ltb_ge _ _) HL) in H. cbv zeta in H.
    rewrite show_cell_plain in H by exact Htty.
    destruct (print_end _ t) as [[[]|e] t1] eqn:E; [|discriminate H].
    pose proof (print_end_tty _ _ _ _ E) as Htty1.
    apply write_ok in E. destruct E as [Hs _].
    destruct rest as [|v' rest'].
    + inversion H; subst. eexists. split; [exact Hs|].
      cbn [chars_of]. rewrite len_slice_to by lia. lia.
    + assert (Hin : (Z.of_nat i + 1 <? Z.of_nat n) = true).
      { apply Z.ltb_lt. cbn [length] in Hn. lia. }
      rewrite Hin in H.
      apply IH in H; [|congruence | cbn [length] in *; lia].
      destruct H as [evs [Hevs Hb]].
      eexists. split.
      * rewrite Hevs, Hs, <- app_assoc. reflexivity.
      * cbn [chars_of app]. rewrite Hin. rewrite len_slice_to by lia.
        rewrite len_cell_ljust. pose proof (chars_of_nonneg evs). lia.
Qed.

(** X5. Where standard output is not a terminal, the cells that
    [__printLine] writes before the new line hold no more characters than
    the width given (none when the width is negative). *)
Theorem printLine_cut_to_width :
  forall (py : dialect) (line : list value) (leftWidth : Z) (bold : bool)
         (b : Block) (t : term) (s' : Block * term),
    stdout_isatty t = false ->
    BlockM.__printLine py line leftWidth bold (b, t) = (Ok tt, s') ->
    exists evs : list event,
      screen (snd s') = (screen t ++ evs ++ [Line ""])%list
      /\ lines_of evs = 0%nat
      /\ chars_of evs <= Z.max 0 leftWidth.
Proof.
  intros py line leftWidth bold b t s' Htty H. unfold BlockM.__printLine in H.
  unfold bind in H.
  destruct (BlockM.printLine_from py bold (length line) 0 line leftWidth (b, t))
    as [[[]|e] [b1 t1]] eqn:E; [|discriminate H].
  pose proof (printLine_from_emits py bold (length line) line 0%nat leftWidth
                (b, t) tt (b1, t1) E) as [evs0 [Hs0 Hl0]].
  apply printLine_from_cut in E; [|exact Htty | reflexivity].
  destruct E as [evs [Hs Hc]]. simpl in Hs, Hs0.
  assert (evs0 = evs).
  { apply (List.app_inv_head (screen t)). now rewrite <- Hs, <- Hs0. }
  subst evs0.
  unfold on_term in H.
  destruct (print_ "" t1) as [[[]|e] t2] eqn:E2; inversion H; subst.
  apply write_ok in E2. destruct E2 as [Hs2 _].
  exists evs. simpl. rewrite Hs2, Hs, <- app_assoc. auto.
Qed.

Lemma printLine_cut_to_width_witness :
  stdout_isatty quiet = false
  /\ exists evs : list event,
      screen (snd (snd (BlockM.__printLine Py3 [VStr "a long name"; VInt 7] 9 false
                                           (BlockM.__init__ ["name"; "count"], quiet))))
      = (screen quiet ++ evs ++ [Line ""])%list
      /\ lines_of evs = 0%nat
      /\ chars_of evs <= Z.max 0 9.
Proof.
  split; [reflexivity|].
  apply (printLine_cut_to_width Py3 [VStr "a long name"; VInt 7] 9 false
           (BlockM.__init__ ["name"; "count"]) quiet);
    [reflexivity | vm_compute; reflexivity].
Defined.

(** ** What [print] needs, and what it cannot raise *)

Lemma write_healthy_ok (ev : event) (t : term) :
  healthy t ->
  exists t', write ev t = (Ok tt, t') /\ healthy t'
             /\ screen t' = (screen t ++ [ev])%list.
Proof.
  intros H. rewrite (write_healthy ev t H). eexists. repeat split.
Qed.

Lemma write_raises (ev : event) (t t' : term) (e : exn) :
  write ev t = (Raise e, t') -> e = IOError.
Proof.
  unfold write. destruct (faults t) as [|[|] fs]; intros H; now inversion H.
Qed.

Lemma when_raises (g : bool) (s : string) (t t' : term) (e : exn) :
  BlockM.when g (print_end s) t = (Raise e, t') -> e = IOError.
Proof. destruct g; [apply write_raises | discriminate]. Qed.

(** A column is written, or the write fails. *)
Lemma show_cell_raises (bold : bool) (c : cell) (w leftWidth : Z) (t t' : term)
    (e : exn) :
  show_cell bold c w leftWidth t = (Raise e, t') -> e = IOError.
Proof.
  unfold show_cell, bind, get, ret.
  destruct (BlockM.when (bold && _) _ t) as [[[]|e1] t1] eqn:E1.
  2:{ intros H. inversion H; subst. eapply when_raises, E1. }
  destruct (BlockM.when (BlockM.colored c && _) _ t1) as [[[]|e2] t2] eqn:E2.
  2:{ intros H. inversion H; subst. eapply when_raises, E2. }
  destruct (print_end _ t2) as [[[]|e3] t3] eqn:E3.
  2:{ intros H. inversion H; subst. eapply write_raises, E3. }
  apply when_raises.
Qed.

Lemma when_healthy (g : bool) (s : string) (t : term) :
  healthy t -> exists t', BlockM.when g (print_end s) t = (Ok tt, t') /\ healthy t'.
Proof.
  intros H. destruct g; simpl; [|exists t; now split].
  destruct (write_healthy_ok (Put s) t H) as [t' [E [H' _]]]. exists t'. now split.
Qed.

Lemma show_cell_healthy (bold : bool) (c : cell) (w leftWidth : Z) (t : term) :
  healthy t ->
  exists t', show_cell bold c w leftWidth t = (Ok tt, t') /\ healthy t'.
Proof.
  intros H. unfold show_cell, bind, get, ret.
  destruct (when_healthy (bold && stdout_isatty t) (ESC ++ "[1m") t H)
    as [t1 [E1 H1]]. rewrite E1.
  destruct (when_healthy (BlockM.colored c && stdout_isatty t)
              match c with CStr _ => "" | CColorStr k => ColorStrM.color k end t1 H1)
    as [t2 [E2 H2]]. rewrite E2.
  destruct (write_healthy_ok (Put (slice_to (BlockM.cell_ljust c w) leftWidth)) t2 H2)
    as [t3 [E3 [H3 _]]]. unfold print_end at 1. rewrite E3.
  apply when_healthy, H3.
Qed.

Lemma met_aligned (b : Block) (inner : bool) (i : nat) (n w0 : Z) :
  aligned b -> aligned (met b inner i n w0).
Proof.
  unfold aligned, met. destruct inner; simpl; [|auto].
  now rewrite length_insert.
Qed.

Lemma met_headers (b : Block) (inner : bool) (i : nat) (n w0 : Z) :
  __columnHeaders (met b inner i n w0) = __columnHeaders b.
Proof. unfold met. now destruct inner. Qed.

Lemma widened_aligned (b b' : Block) : widened b b' -> aligned b -> aligned b'.
Proof.
  intros [Hh Hw] H. unfold aligned in *. rewrite Hh, <- H.
  symmetry. eapply Forall2_length, Hw.
Qed.

(** The loop of [__printLine], when a cell cannot be computed. *)
Lemma printLine_from_raise (py : dialect) (bold : bool) (n i : nat) (v : value)
    (rest : list value) (leftWidth : Z) (b : Block) (t t' : term) (e : exn) :
  BlockM.__cell py v t = (Raise e, t') ->
  BlockM.printLine_from py bold n i (v :: rest) leftWidth (b, t) = (Raise e, (b, t')).
Proof.
  intros H. cbn [BlockM.printLine_from]. rewrite bind_on_term, H. reflexivity.
Qed.

Lemma cell_not_IndexError (py : dialect) (v : value) (t t' : term) :
  BlockM.__cell py v t <> (Raise IndexError, t').
Proof. intros H. pose proof (cell_ends py v t) as E. rewrite H in E. exact E. Qed.

Lemma printLine_from_no_index (py : dialect) (bold : bool) (n : nat)
    (line : list value) :
  forall (i : nat) (leftWidth : Z) (b : Block) (t : term),
    aligned b ->
    (i + length line <= length (__columnHeaders b))%nat ->
    fst (BlockM.printLine_from py bold n i line leftWidth (b, t)) <> Raise IndexError.
Proof.
  induction line as [|v rest IH]; intros i leftWidth b t Ha Hn; [discriminate|].
  cbn [length] in Hn.
  destruct (BlockM.__cell py v t) as [[c|e] t1] eqn:Hc.
  2:{ rewrite (printLine_from_raise _ _ _ _ _ _ _ _ _ _ _ Hc). simpl.
      intros E. inversion E; subst. eapply cell_not_IndexError, Hc. }
  assert (t1 = t) by (eapply cell_quiet, Hc). subst t1.
  destruct (lookup_lt_is_Some_2 (__columnHeaders b) i ltac:(lia)) as [header Hh].
  destruct (lookup_lt_is_Some_2 (__columnWidths b) i ltac:(unfold aligned in Ha; lia))
    as [w0 Hw].
  rewrite (printLine_from_step py bold n i v rest leftWidth b t c header w0 Hc Hh Hw).
  destruct (leftWidth <? len header); [discriminate|]. cbv zeta.
  destruct (show_cell _ _ _ _ t) as [[[]|e] t1] eqn:E.
  - apply IH; [apply met_aligned, Ha | rewrite met_headers; lia].
  - apply show_cell_raises in E. subst e. discriminate.
Qed.

Lemma printLine_no_index (py : dialect) (line : list value) (leftWidth : Z)
    (bold : bool) (b : Block) (t : term) :
  aligned b ->
  (length line <= length (__columnHeaders b))%nat ->
  fst (BlockM.__printLine py line leftWidth bold (b, t)) <> Raise IndexError.
Proof.
  intros Ha Hn. unfold BlockM.__printLine, bind.
  pose proof (printLine_from_no_index py bold (length line) line 0 leftWidth b t Ha Hn)
    as H.
  destruct (BlockM.printLine_from _ _ _ _ _ _ _) as [[[]|e] [b1 t1]]; [|exact H].
  unfold on_term. destruct (print_ "" t1) as [[[]|e] t2] eqn:E; [discriminate|].
  apply write_raises in E. subst e. discriminate.
Qed.

Lemma printLine_kept (py : dialect) (line : list value) (leftWidth : Z)
    (bold : bool) (s : Block * term) :
  kept s (snd (BlockM.__printLine py line leftWidth bold s)).
Proof. apply (printLine_steady py line leftWidth bold s). Qed.

Lemma kept_aligned (s s' : Block * term) : kept s s' -> aligned (fst s) -> aligned (fst s').
Proof. intros [H _]. now apply widened_aligned. Qed.

Lemma kept_headers (s s' : Block * term) :
  kept s s' -> __columnHeaders (fst s') = __columnHeaders (fst s).
Proof. intros [[H _] _]. exact H. Qed.

Lemma each_line_no_index (py : dialect) (rows : list (list value)) (width : Z) :
  forall s : Block * term,
    aligned (fst s) -> fst (each_line py rows width s) <> Raise IndexError.
Proof.
  induction rows as [|line rest IH]; intros [b t] Ha; [discriminate|].
  cbn [each_line]. unfold bind at 1. cbn [BlockM.self_].
  destruct (length line <=? length (__columnHeaders b))%nat eqn:E; [|discriminate].
  apply Nat.leb_le in E. unfold bind.
  pose proof (printLine_no_index py line width false b t Ha E) as H.
  pose proof (printLine_kept py line width false (b, t)) as K.
  destruct (BlockM.__printLine py line width false (b, t)) as [[[]|e] s1]; [|exact H].
  apply IH. eapply kept_aligned; [exact K | exact Ha].
Qed.

(** [print], when the height and the block allow it, is the header line and
    then the first [height - 2] rows. *)
Lemma print_as_lines (py : dialect) (height width : Z) (b : Block) (t : term)
    (rows : list (list value)) :
  1 < height ->
  __lines b = Some rows ->
  BlockM.print py height width (b, t)
  = (BlockM.__printLine py (map VStr (__columnHeaders b)) width true ;;
     each_line py (take (Z.to_nat (height - 2)) rows) width) (b, t).
Proof.
  intros Hh Hrows. unfold BlockM.print.
  replace (1 <? height) with true by (symmetry; apply Z.ltb_lt; lia).
  unfold bind at 1. cbn [BlockM.self_]. unfold bind.
  destruct (BlockM.__printLine py _ width true (b, t)) as [[[]|e] s1]; [|reflexivity].
  rewrite Hrows, print_lines_take.
  replace (height - 1 - 1) with (height - 2) by lia. reflexivity.
Qed.

Lemma print_no_index (py : dialect) (height width : Z) (b : Block) (t : term) :
  aligned b -> fst (BlockM.print py height width (b, t)) <> Raise IndexError.
Proof.
  intros Ha. destruct (Z.ltb_spec 1 height) as [Hh|Hh].
  2:{ unfold BlockM.print. replace (1 <? height) with false
        by (symmetry; apply Z.ltb_ge; lia). discriminate. }
  destruct (__lines b) as [rows|] eqn:Hrows.
  - rewrite (print_as_lines py height width b t rows Hh Hrows). unfold bind.
    pose proof (printLine_no_index py (map VStr (__columnHeaders b)) width true b t Ha)
      as H. rewrite length_map in H. specialize (H (Nat.le_refl _)).
    pose proof (printLine_kept py (map VStr (__columnHeaders b)) width true (b, t)) as K.
    destruct (BlockM.__printLine py _ width true (b, t)) as [[[]|e] s1]; [|exact H].
    apply each_line_no_index. eapply kept_aligned; [exact K | exact Ha].
  - unfold BlockM.print. replace (1 <? height) with true
      by (symmetry; apply Z.ltb_lt; lia).
    unfold bind at 1. cbn [BlockM.self_]. unfold bind.
    pose proof (printLine_no_index py (map VStr (__columnHeaders b)) width true b t Ha)
      as H. rewrite length_map in H. specialize (H (Nat.le_refl _)).
    destruct (BlockM.__printLine py _ width true (b, t)) as [[[]|e] s1]; [|exact H].
    rewrite Hrows. discriminate.
Qed.

Lemma init_aligned (headers : list string) : aligned (BlockM.__init__ headers).
Proof. unfold aligned. simpl. apply length_replicate. Qed.

Lemma run_aligned (py : dialect) (ops : list operation) :
  forall s : Block * term, aligned (fst s) -> aligned (fst (run py ops s)).
Proof.
  induction ops as [|op ops IH]; intros [b t] Ha; [exact Ha|].
  cbn [run]. apply IH. destruct op as [lines | height width]; cbn [operate].
  - exact Ha.
  - eapply kept_aligned; [apply (print_steady py height width (b, t)) | exact Ha].
Qed.

(** X6. A block made by [Block(columnHeaders)] never indexes its headers or
    its widths out of range: whatever has been done to it by [reset] and
    [print], no [print] raises [IndexError] (the assertion on the length of
    a row comes first). *)
Theorem print_never_IndexError :
  forall (py : dialect) (headers : list string) (ops : list operation) (t : term)
         (height width : Z),
    fst (BlockM.print py height width (run py ops (BlockM.__init__ headers, t)))
    <> Raise IndexError.
Proof.
  intros py headers ops t height width.
  pose proof (run_aligned py ops (BlockM.__init__ headers, t) (init_aligned headers))
    as Ha.
  destruct (run py ops (BlockM.__init__ headers, t)) as [b t1].
  apply print_no_index, Ha.
Qed.

(** *** When [print] completes *)

Lemma printLine_from_runs (py : dialect) (bold : bool) (n : nat) (line : list value) :
  forall (i : nat) (leftWidth : Z) (b : Block) (t : term),
    healthy t ->
    aligned b ->
    (i + length line <= length (__columnHeaders b))%nat ->
    Forall (fun v => printable py v = true) line ->
    exists s', BlockM.printLine_from py bold n i line leftWidth (b, t) = (Ok tt, s').
Proof.
  induction line as [|v rest IH]; intros i leftWidth b t Ht Ha Hn Hp.
  - eexists. reflexivity.
  - cbn [length] in Hn. inversion Hp as [|? ? Hv Hrest]; subst.
    destruct (printable_cell py v Hv) as [c Hc].
    destruct (lookup_lt_is_Some_2 (__columnHeaders b) i ltac:(lia)) as [header Hh].
    destruct (lookup_lt_is_Some_2 (__columnWidths b) i ltac:(unfold aligned in Ha; lia))
      as [w0 Hw].
    rewrite (printLine_from_step py bold n i v rest leftWidth b t c header w0
               (Hc t) Hh Hw).
    destruct (leftWidth <? len header); [eexists; reflexivity|]. cbv zeta.
    destruct (show_cell_healthy bold c
                (if Z.of_nat i + 1 <? Z.of_nat n
                 then Z.max (BlockM.cell_len c + 2) w0 else w0) leftWidth t Ht)
      as [t1 [E H1]].
    rewrite E. apply IH; [exact H1 | apply met_aligned, Ha | | exact Hrest].
    rewrite met_headers. lia.
Qed.

Lemma printLine_runs (py : dialect) (line : list value) (leftWidth : Z) (bold : bool)
    (b : Block) (t : term) :
  healthy t ->
  aligned b ->
  (length line <= length (__columnHeaders b))%nat ->
  Forall (fun v => printable py v = true) line ->
  exists s', BlockM.__printLine py line leftWidth bold (b, t) = (Ok tt, s')
             /\ kept (b, t) s'.
Proof.
  intros Ht Ha Hn Hp.
  pose proof (printLine_kept py line leftWidth bold (b, t)) as K.
  unfold BlockM.__printLine, bind in *.
  destruct (printLine_from_runs py bold (length line) line 0 leftWidth b t Ht Ha Hn Hp)
    as [[b1 t1] E].
  pose proof (printLine_from_steady py bold (length line) line 0%nat leftWidth (b, t))
    as [[_ [_ K1]] _].
  rewrite E in *. simpl in K1. specialize (K1 Ht).
  unfold on_term in *.
  destruct (write_healthy_ok (Line "") t1 K1) as [t2 [E2 _]].
  unfold print_ in *. rewrite E2 in *. eexists. split; [reflexivity | exact K].
Qed.

(** A row that [print] accepts and can write: it has no more cells than
    there are headers, and every cell can be computed. *)
Lemma each_line_runs (py : dialect) (rows : list (list value)) (width : Z) :
  forall (b : Block) (t : term),
    healthy t ->
    aligned b ->
    Forall (fun line => (length line <= length (__columnHeaders b))%nat
                        /\ Forall (fun v => printable py v = true) line) rows ->
    exists s', each_line py rows width (b, t) = (Ok tt, s') /\ kept (b, t) s'.
Proof.
  induction rows as [|line rest IH]; intros b t Ht Ha Hr.
  - eexists. split; [reflexivity | apply kept_refl].
  - inversion Hr as [|? ? [Hn Hp] Hrest]; subst.
    cbn [each_line]. unfold bind at 1. cbn [BlockM.self_].
    replace (length line <=? length (__columnHeaders b))%nat with true
      by (symmetry; apply Nat.leb_le; exact Hn).
    destruct (printLine_runs py line width false b t Ht Ha Hn Hp) as [[b1 t1] [E K]].
    unfold bind. rewrite E.
    destruct (IH b1 t1) as [s' [E' K']].
    + apply K, Ht.
    + apply (kept_aligned _ _ K Ha).
    + pose proof (kept_headers _ _ K) as Hk. simpl in Hk. rewrite Hk. exact Hrest.
    + exists s'. split; [exact E' | eapply kept_trans; eassumption].
Qed.

Lemma header_printable (py : dialect) (headers : list string) :
  Forall (fun v => printable py v = true) (map VStr headers).
Proof. induction headers; constructor; [reflexivity | assumption]. Qed.

(** X7. [print] completes when the terminal takes the writes, the block has
    one width for each header and has been [reset], the height is above 1,
    and each of the first [height - 2] rows has no more cells than there
    are headers and holds values whose cells can be computed.  It has then
    written the header line and these rows, one line each, and the block
    has the same headers and lines and no narrower column. *)
Theorem print_completes :
  forall (py : dialect) (height width : Z) (b : Block) (t : term)
         (rows : list (list value)),
    healthy t ->
    aligned b ->
    __lines b = Some rows ->
    1 < height ->
    Forall (fun line => (length line <= length (__columnHeaders b))%nat
                        /\ Forall (fun v => printable py v = true) line)
           (take (Z.to_nat (height - 2)) rows) ->
    exists (b' : Block) (t' : term) (evs : list event),
      BlockM.print py height width (b, t) = (Ok tt, (b', t'))
      /\ healthy t'
      /\ widened b b'
      /\ __lines b' = Some rows
      /\ screen t' = (screen t ++ evs)%list
      /\ lines_of evs = S (Nat.min (Z.to_nat (height - 2)) (length rows)).
Proof.
  intros py height width b t rows Ht Ha Hrows Hh Hgood.
  pose proof (print_as_lines py height width b t rows Hh Hrows) as Heq.
  destruct (printLine_runs py (map VStr (__columnHeaders b)) width true b t Ht Ha)
    as [[b1 t1] [E1 K1]]; [now rewrite length_map | apply header_printable|].
  destruct (each_line_runs py (take (Z.to_nat (height - 2)) rows) width b1 t1)
    as [[b2 t2] [E2 K2]].
  - apply K1, Ht.
  - apply (kept_aligned _ _ K1 Ha).
  - pose proof (kept_headers _ _ K1) as Hk. simpl in Hk. rewrite Hk. exact Hgood.
  - assert (E : BlockM.print py height width (b, t) = (Ok tt, (b2, t2))).
    { rewrite Heq. unfold bind. rewrite E1. exact E2. }
    pose proof (kept_trans _ _ _ K1 K2) as [Hw [Hl Hhe]]. simpl in *.
    rewrite Heq in E.
    apply (emits_bind 1 (length (take (Z.to_nat (height - 2)) rows)) _ _
             (printLine_emits _ _ _ _)
             (fun _ => each_line_emits py _ width)) in E.
    destruct E as (evs & Hs & Hn). simpl in Hs.
    exists b2, t2, evs. rewrite Heq. unfold bind. rewrite E1.
    split; [exact E2|]. split; [apply Hhe, Ht|]. split; [exact Hw|].
    split; [congruence|]. split; [exact Hs|].
    rewrite Hn. cbn [Nat.add]. now rewrite length_take.
Qed.

Lemma print_completes_witness :
  healthy quiet
  /\ 1 < 4
  /\ exists (b' : Block) (t' : term) (evs : list event),
      BlockM.print Py3 4 80 (sample_block 5, quiet) = (Ok tt, (b', t'))
      /\ screen t' = (screen quiet ++ evs)%list
      /\ lines_of evs = 3%nat.
Proof.
  split; [reflexivity|]. split; [lia|].
  destruct (print_completes Py3 4 80 (sample_block 5) quiet (replicate 5 [VStr "row"]))
    as (b' & t' & evs & E & _ & _ & _ & Hs & Hn);
    [reflexivity | reflexivity | reflexivity | lia | repeat constructor|].
  exists b', t', evs. repeat split; assumption.
Defined.

(** *** What stops [print] *)

Lemma each_line_long_row (py : dialect) (width : Z) (rows : list (list value)) :
  forall (k n : nat) (line : list value) (b : Block) (t : term),
    healthy t ->
    aligned b ->
    rows !! k = Some line ->
    (k < n)%nat ->
    (length (__columnHeaders b) < length line)%nat ->
    Forall (fun line => (length line <= length (__columnHeaders b))%nat
                        /\ Forall (fun v => printable py v = true) line)
           (take k rows) ->
    exists (s' : Block * term) (evs : list event),
      each_line py (take n rows) width (b, t) = (Raise AssertionError, s')
      /\ screen (snd s') = (screen t ++ evs)%list
      /\ lines_of evs = k.
Proof.
  induction rows as [|r rest IH]; intros k n line b t Ht Ha Hk Hn Hlong Hgood;
    [discriminate Hk|].
  destruct n as [|n]; [lia|]. cbn [take each_line].
  unfold bind at 1. cbn [BlockM.self_].
  destruct k as [|k].
  - inversion Hk; subst r.
    replace (length line <=? length (__columnHeaders b))%nat with false
      by (symmetry; apply Nat.leb_gt; exact Hlong).
    exists (b, t), []. rewrite app_nil_r. repeat split.
  - cbn [take] in Hgood. inversion Hgood as [|? ? [Hr Hp] Hrest]; subst.
    replace (length r <=? length (__columnHeaders b))%nat with true
      by (symmetry; apply Nat.leb_le; exact Hr).
    destruct (printLine_runs py r width false b t Ht Ha Hr Hp) as [[b1 t1] [E K]].
    destruct (printLine_emits py r width false (b, t) tt (b1, t1) E)
      as [evs1 [Hs1 Hl1]].
    pose proof (kept_headers _ _ K) as Hh. simpl in Hh, Hs1.
    destruct (IH k n line b1 t1) as [s' [evs [E' [Hs Hl]]]].
    + apply K, Ht.
    + apply (kept_aligned _ _ K Ha).
    + exact Hk.
    + lia.
    + now rewrite Hh.
    + now rewrite Hh.
    + exists s', (evs1 ++ evs)%list. unfold bind. rewrite E.
      split; [exact E'|]. split.
      * rewrite Hs, Hs1. now rewrite app_assoc.
      * rewrite lines_of_app, Hl1, Hl. reflexivity.
Qed.

(** X9. The two assertions of [print].  A height of 1 or less is refused
    before anything is written.  A row with more cells than there are
    headers stops [print] with [AssertionError] when it is reached, within
    the first [height - 2] rows: the header line and the rows before it have
    been written. *)
Theorem print_asserts :
  (forall (py : dialect) (height width : Z) (s : Block * term),
      height <= 1 -> BlockM.print py height width s = (Raise AssertionError, s))
  /\ (forall (py : dialect) (height width : Z) (b : Block) (t : term)
             (rows : list (list value)) (k : nat) (line : list value),
         healthy t ->
         aligned b ->
         __lines b = Some rows ->
         rows !! k = Some line ->
         Z.of_nat k < height - 2 ->
         (length (__columnHeaders b) < length line)%nat ->
         Forall (fun line => (length line <= length (__columnHeaders b))%nat
                             /\ Forall (fun v => printable py v = true) line)
                (take k rows) ->
         exists (s' : Block * term) (evs : list event),
           BlockM.print py height width (b, t) = (Raise AssertionError, s')
           /\ screen (snd s') = (screen t ++ evs)%list
           /\ lines_of evs = S k).
Proof.
  split.
  - intros py height width s H. unfold BlockM.print.
    replace (1 <? height) with false by (symmetry; apply Z.ltb_ge; lia).
    reflexivity.
  - intros py height width b t rows k line Ht Ha Hrows Hk Hh Hlong Hgood.
    rewrite (print_as_lines py height width b t rows ltac:(lia) Hrows).
    destruct (printLine_runs py (map VStr (__columnHeaders b)) width true b t Ht Ha)
      as [[b1 t1] [E1 K1]]; [now rewrite length_map | apply header_printable|].
    destruct (printLine_emits py _ width true (b, t) tt (b1, t1) E1)
      as [evs1 [Hs1 Hl1]].
    pose proof (kept_headers _ _ K1) as Hhe. simpl in Hhe, Hs1.
    destruct (each_line_long_row py width rows k (Z.to_nat (height - 2)) line b1 t1)
      as [s' [evs [E [Hs Hl]]]].
    + apply K1, Ht.
    + apply (kept_aligned _ _ K1 Ha).
    + exact Hk.
    + lia.
    + now rewrite Hhe.
    + now rewrite Hhe.
    + exists s', (evs1 ++ evs)%list. unfold bind. rewrite E1.
      split; [exact E|]. split.
      * rewrite Hs, Hs1. now rewrite app_assoc.
      * rewrite lines_of_app, Hl1, Hl. reflexivity.
Qed.

Lemma print_asserts_witness :
  1 <= 1
  /\ BlockM.print Py3 1 80 (sample_block 3, quiet)
     = (Raise AssertionError, (sample_block 3, quiet))
  /\ exists (s' : Block * term) (evs : list event),
      BlockM.print Py3 9 80
        (mkBlock ["name"] [6] (Some [[VStr "a"]; [VStr "b"; VInt 2]; [VStr "c"]]),
         quiet)
      = (Raise AssertionError, s')
      /\ screen (snd s') = (screen quiet ++ evs)%list
      /\ lines_of evs = 2%nat.
Proof.
  split; [lia|]. split.
  - apply (proj1 print_asserts). lia.
  - apply (proj2 print_asserts Py3 9 80
             (mkBlock ["name"] [6] (Some [[VStr "a"]; [VStr "b"; VInt 2]; [VStr "c"]]))
             quiet [[VStr "a"]; [VStr "b"; VInt 2]; [VStr "c"]] 1%nat
             [VStr "b"; VInt 2]);
      try reflexivity; try (simpl; lia); repeat constructor.
Defined.

(** *** A block that has not been [reset] *)

Lemma list_insert_same {A} (l : list A) (i : nat) (x : A) :
  l !! i = Some x -> <[i := x]> l = l.
Proof. apply list_insert_id. Qed.

(** X10. A block has no lines before its first [reset]: [len] raises
    [AttributeError]; [print] writes the header line and then raises it;
    [refresh] raises it on reaching the block, having only cleared the
    screen when the block comes first. *)
Theorem unreset_block_raises :
  (forall (b : Block) (t : term),
      __lines b = None -> BlockM.__len__ (b, t) = (Raise AttributeError, (b, t)))
  /\ (forall (py : dialect) (height width : Z) (b : Block) (t : term),
         __lines b = None ->
         healthy t ->
         aligned b ->
         1 < height ->
         exists (s' : Block * term) (evs : list event),
           BlockM.print py height width (b, t) = (Raise AttributeError, s')
           /\ screen (snd s') = (screen t ++ evs)%list
           /\ lines_of evs = 1%nat)
  /\ (forall (py : dialect) (block : nat) (rest : list nat) (w : world) (b : Block),
         heap w !! block = Some b ->
         __lines b = None ->
         ConsoleM.refresh py (block :: rest) w
         = (Raise AttributeError,
            mkWorld (heap w) (console w)
                    (set_output (terminal w) (screen (terminal w) ++ [Clear])%list
                                (faults (terminal w))))).
Proof.
  split; [|split].
  - intros b t H. unfold BlockM.__len__. now rewrite H.
  - intros py height width b t Hl Ht Ha Hh. unfold BlockM.print.
    replace (1 <? height) with true by (symmetry; apply Z.ltb_lt; lia).
    unfold bind at 1. cbn [BlockM.self_].
    destruct (printLine_runs py (map VStr (__columnHeaders b)) width true b t Ht Ha)
      as [[b1 t1] [E1 K1]]; [now rewrite length_map | apply header_printable|].
    destruct (printLine_emits py _ width true (b, t) tt (b1, t1) E1)
      as [evs1 [Hs1 Hl1]].
    unfold bind. rewrite E1, Hl. exists (b1, t1), evs1. repeat split; assumption.
  - intros py block rest w b Hb Hl. unfold ConsoleM.refresh.
    unfold bind at 1. unfold io at 1. unfold ConsoleM.system_clear.
    unfold bind at 1. unfold self_console at 1.
    cbn [ConsoleM.refresh_from]. unfold bind at 1. unfold call, BlockM.__len__.
    cbn [heap terminal console]. rewrite Hb, Hl.
    now rewrite (list_insert_same _ _ _ Hb).
Qed.

Lemma unreset_block_raises_witness :
  __lines (BlockM.__init__ ["name"]) = None
  /\ BlockM.__len__ (BlockM.__init__ ["name"], quiet)
     = (Raise AttributeError, (BlockM.__init__ ["name"], quiet))
  /\ fst (ConsoleM.refresh Py3 [0%nat]
            (mkWorld [BlockM.__init__ ["name"]] (ConsoleM.__init__ None) quiet))
     = Raise AttributeError.
Proof.
  split; [reflexivity|]. split.
  - apply (proj1 unreset_block_raises). reflexivity.
  - rewrite (proj2 (proj2 unreset_block_raises) Py3 0%nat []
               (mkWorld [BlockM.__init__ ["name"]] (ConsoleM.__init__ None) quiet)
               (BlockM.__init__ ["name"]) eq_refl eq_refl).
    reflexivity.
Defined.

(** ** The widths settle *)

Lemma printLine_from_narrow (py : dialect) (bold : bool) (n i : nat) (v : value)
    (rest : list value) (leftWidth : Z) (b : Block) (t : term)
    (c : cell) (header : string) :
  BlockM.__cell py v t = (Ok c, t) ->
  __columnHeaders b !! i = Some header ->
  leftWidth < len header ->
  BlockM.printLine_from py bold n i (v :: rest) leftWidth (b, t) = (Ok tt, (b, t)).
Proof.
  intros Hc Hh HL. cbn [BlockM.printLine_from]. rewrite bind_on_term, Hc.
  unfold bind, BlockM.self_, getitem. rewrite Hh. cbn [ret].
  replace (leftWidth <? len header) with true by (symmetry; apply Z.ltb_lt; lia).
  reflexivity.
Qed.

Lemma printLine_from_no_header (py : dialect) (bold : bool) (n i : nat) (v : value)
    (rest : list value) (leftWidth : Z) (b : Block) (t : term) (c : cell) :
  BlockM.__cell py v t = (Ok c, t) ->
  __columnHeaders b !! i = None ->
  BlockM.printLine_from py bold n i (v :: rest) leftWidth (b, t)
  = (Raise IndexError, (b, t)).
Proof.
  intros Hc Hh. cbn [BlockM.printLine_from]. rewrite bind_on_term, Hc.
  unfold bind, BlockM.self_, getitem. now rewrite Hh.
Qed.

(** A column that is wide enough for its cell stays as it is. *)
Lemma met_settled (b : Block) (inner : bool) (i : nat) (n w : Z) :
  __columnWidths b !! i = Some w ->
  (inner = true -> n + 2 <= w) ->
  met b inner i n w = b
  /\ (if inner then Z.max (n + 2) w else w) = w.
Proof.
  intros Hw Hn. unfold met. destruct inner; [|split; reflexivity].
  specialize (Hn eq_refl). rewrite Z.max_r by lia.
  rewrite (list_insert_id _ _ _ Hw). split; [apply block_eta | reflexivity].
Qed.

Lemma printLine_from_settled (py : dialect) (bold : bool) (n : nat)
    (line : list value) :
  forall (i : nat) (leftWidth : Z) (b : Block) (t : term) (b' : Block) (t' : term),
    BlockM.printLine_from py bold n i line leftWidth (b, t) = (Ok tt, (b', t')) ->
    forall (b2 : Block) (leftWidth2 : Z) (t2 : term),
      __columnHeaders b2 = __columnHeaders b ->
      Forall2 Z.le (__columnWidths b') (__columnWidths b2) ->
      leftWidth2 <= leftWidth ->
      healthy t2 ->
      exists t2',
        BlockM.printLine_from py bold n i line leftWidth2 (b2, t2) = (Ok tt, (b2, t2'))
        /\ healthy t2'.
Proof.
  induction line as [|v rest IH];
    intros i leftWidth b t b' t' H b2 leftWidth2 t2 Hhe Hle HL Ht2.
  - exists t2. split; [reflexivity | exact Ht2].
  - destruct (cell_uniform py v) as [[c Hc]|Hr].
    2:{ destruct (Hr t) as [e [t1 He]].
        rewrite (printLine_from_raise _ _ _ _ _ _ _ _ _ _ _ He) in H. discriminate H. }
    destruct (__columnHeaders b !! i) as [header|] eqn:Hh.
    2:{ rewrite (printLine_from_no_header _ _ _ _ _ _ _ _ _ _ (Hc t) Hh) in H.
        discriminate H. }
    assert (Hh2 : __columnHeaders b2 !! i = Some header) by now rewrite Hhe.
    destruct (Z.ltb_spec leftWidth2 (len header)) as [HL2|HL2].
    { exists t2. split; [|exact Ht2].
      apply (printLine_from_narrow _ _ _ _ _ _ _ _ _ c header (Hc t2) Hh2 HL2). }
    assert (HL1 : (leftWidth <? len header) = false) by (apply Z.ltb_ge; lia).
    destruct (__columnWidths b !! i) as [w0|] eqn:Hw.
    2:{ destruct (printLine_from_no_width py bold n i v rest leftWidth b t c header
                    (Hc t) Hh HL1 Hw) as [e [s1 He]].
        rewrite He in H. discriminate H. }
    rewrite (printLine_from_step py bold n i v rest leftWidth b t c header w0
               (Hc t) Hh Hw), HL1 in H.
    cbv zeta in H.
    set (inner := Z.of_nat i + 1 <? Z.of_nat n) in *.
    set (w := if inner then Z.max (BlockM.cell_len c + 2) w0 else w0) in *.
    set (b1 := met b inner i (BlockM.cell_len c) w0) in *.
    destruct (show_cell bold c w leftWidth t) as [[[]|e] t1]; [|discriminate H].
    (* the width of the column in the three blocks *)
    pose proof (met_width b inner i (BlockM.cell_len c) w0 Hw) as Hw1.
    fold b1 in Hw1. fold w in Hw1.
    pose proof (printLine_from_steady py bold n rest (S i) (leftWidth - w) (b1, t1))
      as [[[_ Hb1] _] _].
    rewrite H in Hb1. simpl in Hb1.
    destruct (Forall2_lookup_l _ _ _ _ _ Hb1 Hw1) as [w' [Hw' Hle1]].
    destruct (Forall2_lookup_l _ _ _ _ _ Hle Hw') as [w2 [Hw2 Hle2]].
    assert (Hinner : inner = true -> BlockM.cell_len c + 2 <= w2).
    { intros Hi. unfold w in Hle1. rewrite Hi in Hle1. lia. }
    destruct (met_settled b2 inner i (BlockM.cell_len c) w2 Hw2 Hinner) as [Hm Hwm].
    rewrite (printLine_from_step py bold n i v rest leftWidth2 b2 t2 c header w2
               (Hc t2) Hh2 Hw2).
    replace (leftWidth2 <? len header) with false by (symmetry; apply Z.ltb_ge; lia).
    cbv zeta. fold inner. rewrite Hm, Hwm.
    destruct (show_cell_healthy bold c w2 leftWidth2 t2 Ht2) as [t3 [E3 Ht3]].
    rewrite E3.
    apply (IH (S i) (leftWidth - w) b1 t1 b' t' H b2 (leftWidth2 - w2) t3);
      [|exact Hle | lia | exact Ht3].
    unfold b1. now rewrite met_headers.
Qed.

Lemma printLine_settled (py : dialect) (line : list value) (bold : bool)
    (leftWidth : Z) (b : Block) (t : term) (b' : Block) (t' : term) :
  BlockM.__printLine py line leftWidth bold (b, t) = (Ok tt, (b', t')) ->
  forall (b2 : Block) (leftWidth2 : Z) (t2 : term),
    __columnHeaders b2 = __columnHeaders b ->
    Forall2 Z.le (__columnWidths b') (__columnWidths b2) ->
    leftWidth2 <= leftWidth ->
    healthy t2 ->
    exists t2',
      BlockM.__printLine py line leftWidth2 bold (b2, t2) = (Ok tt, (b2, t2'))
      /\ healthy t2'.
Proof.
  unfold BlockM.__printLine. intros H b2 leftWidth2 t2 Hhe Hle HL Ht2.
  unfold bind in *.
  destruct (BlockM.printLine_from py bold (length line) 0 line leftWidth (b, t))
    as [[[]|e] [b1 t1]] eqn:E; [|discriminate H].
  unfold on_term in H. destruct (print_ "" t1) as [[[]|e] t1'];
    inversion H; subst.
  destruct (printLine_from_settled py bold (length line) line 0%nat leftWidth b t
              b' t1 E b2 leftWidth2 t2 Hhe Hle HL Ht2) as [t3 [E3 Ht3]].
  rewrite E3. unfold on_term.
  destruct (write_healthy_ok (Line "") t3 Ht3) as [t4 [E4 [Ht4 _]]].
  unfold print_. rewrite E4. exists t4. split; [reflexivity | exact Ht4].
Qed.

Lemma each_line_steady (py : dialect) (rows : list (list value)) (width : Z) :
  steady (each_line py rows width).
Proof.
  induction rows as [|line rest IH]; cbn [each_line]; [apply steady_ret|].
  apply steady_bind; [apply steady_self | intros self].
  destruct (length line <=? length (__columnHeaders self))%nat.
  - apply steady_bind; [apply printLine_steady | intros _; exact IH].
  - apply steady_raise. discriminate.
Qed.

Lemma each_line_settled (py : dialect) (rows : list (list value)) :
  forall (width : Z) (b : Block) (t : term) (b' : Block) (t' : term),
    each_line py rows width (b, t) = (Ok tt, (b', t')) ->
    forall (k : nat) (b2 : Block) (width2 : Z) (t2 : term),
      __columnHeaders b2 = __columnHeaders b ->
      Forall2 Z.le (__columnWidths b') (__columnWidths b2) ->
      width2 <= width ->
      healthy t2 ->
      exists t2',
        each_line py (take k rows) width2 (b2, t2) = (Ok tt, (b2, t2'))
        /\ healthy t2'.
Proof.
  induction rows as [|line rest IH];
    intros width b t b' t' H k b2 width2 t2 Hhe Hle HW Ht2.
  - rewrite take_nil. exists t2. split; [reflexivity | exact Ht2].
  - destruct k as [|k]; [exists t2; split; [reflexivity | exact Ht2]|].
    cbn [take each_line] in *. unfold bind at 1 in H. unfold bind at 1.
    cbn [BlockM.self_] in *. rewrite Hhe.
    destruct (length line <=? length (__columnHeaders b))%nat; [|discriminate H].
    unfold bind in *.
    destruct (BlockM.__printLine py line width false (b, t)) as [[[]|e] [b1 t1]] eqn:E;
      [|discriminate H].
    pose proof (each_line_steady py rest width (b1, t1)) as [[[Hh1 Hb1] _] _].
    rewrite H in Hh1, Hb1. simpl in Hh1, Hb1.
    pose proof (printLine_kept py line width false (b, t)) as [[Hh0 _] _].
    rewrite E in Hh0. simpl in Hh0.
    destruct (printLine_settled py line false width b t b1 t1 E b2 width2 t2 Hhe
                (Forall2_le_trans _ _ _ Hb1 Hle) HW Ht2) as [t3 [E3 Ht3]].
    rewrite E3.
    apply (IH width b1 t1 b' t' H k b2 width2 t3); [congruence | exact Hle | exact HW
                                                   | exact Ht3].
Qed.

(** X8. The column widths settle with one [print]: once [print] has
    completed, printing the block again, on no more height and no more
    width, completes on a terminal that takes the writes and leaves the
    block as it is, so that no column moves. *)
Theorem print_again_keeps_widths :
  forall (py : dialect) (height width : Z) (b : Block) (t : term)
         (b1 : Block) (t1 : term),
    BlockM.print py height width (b, t) = (Ok tt, (b1, t1)) ->
    forall (height2 width2 : Z) (t2 : term),
      1 < height2 <= height ->
      width2 <= width ->
      healthy t2 ->
      exists t2' : term,
        BlockM.print py height2 width2 (b1, t2) = (Ok tt, (b1, t2')).
Proof.
  intros py height width b t b1 t1 H height2 width2 t2 Hh HW Ht2.
  destruct (__lines b) as [rows|] eqn:Hrows.
  2:{ unfold BlockM.print in H.
      destruct (1 <? height); [|discriminate H].
      unfold bind at 1 in H. cbn [BlockM.self_] in H. unfold bind in H.
      destruct (BlockM.__printLine py _ width true (b, t)) as [[[]|e] s1];
        [|discriminate H].
      rewrite Hrows in H. discriminate H. }
  pose proof (print_steady py height width (b, t)) as [[[Hhe _] [Hl _]] _].
  rewrite H in Hhe, Hl. simpl in Hhe, Hl.
  rewrite (print_as_lines py height width b t rows ltac:(lia) Hrows) in H.
  rewrite (print_as_lines py height2 width2 b1 t2 rows ltac:(lia) ltac:(congruence)).
  unfold bind in *. rewrite Hhe.
  destruct (BlockM.__printLine py _ width true (b, t)) as [[[]|e] [bh th]] eqn:E;
    [|discriminate H].
  pose proof (each_line_steady py (take (Z.to_nat (height - 2)) rows) width (bh, th))
    as [[[Hh1 Hb1] _] _].
  rewrite H in Hh1, Hb1. simpl in Hh1, Hb1.
  pose proof (printLine_kept py (map VStr (__columnHeaders b)) width true (b, t))
    as [[Hh0 _] _].
  rewrite E in Hh0. simpl in Hh0.
  destruct (printLine_settled py _ true width b t bh th E b1 width2 t2 Hhe Hb1 HW Ht2)
    as [t3 [E3 Ht3]].
  rewrite E3.
  destruct (each_line_settled py (take (Z.to_nat (height - 2)) rows) width bh th b1 t1 H
              (Z.to_nat (height2 - 2)) b1 width2 t3 Hh1 (Forall2_le_refl _) HW Ht3)
    as [t4 [E4 _]].
  rewrite take_take in E4.
  replace (Z.to_nat (height2 - 2) `min` Z.to_nat (height - 2))%nat
    with (Z.to_nat (height2 - 2)) in E4 by lia.
  exists t4. exact E4.
Qed.

Lemma print_again_keeps_widths_witness :
  exists (b1 : Block) (t1 t2' : term),
    BlockM.print Py3 9 80
      (mkBlock ["host"; "ops"] [6; 6]
               (Some [[VStr "db1.example.org"; VInt 1234567]]), quiet)
    = (Ok tt, (b1, t1))
    /\ __columnWidths b1 = [17; 6]
    /\ BlockM.print Py3 9 80 (b1, quiet) = (Ok tt, (b1, t2')).
Proof.
  eexists. eexists.
  assert (E : BlockM.print Py3 9 80
                (mkBlock ["host"; "ops"] [6; 6]
                         (Some [[VStr "db1.example.org"; VInt 1234567]]), quiet)
              = (Ok tt,
                 snd (BlockM.print Py3 9 80
                        (mkBlock ["host"; "ops"] [6; 6]
                                 (Some [[VStr "db1.example.org"; VInt 1234567]]),
                         quiet)))) by (vm_compute; reflexivity).
  rewrite (surjective_pairing (snd _)) in E.
  destruct (print_again_keeps_widths Py3 9 80 _ _ _ _ E 9 80 quiet
              ltac:(lia) ltac:(lia) eq_refl) as [t2' E2].
  exists t2'. split; [exact E|]. split; [vm_compute; reflexivity | exact E2].
Defined.

(** ** The screen is not overrun *)






(** ** The columns line up *)

(** The loop of [__printLine] from column [i] on leaves the widths of the
    columns before [i] alone. *)
Lemma printLine_from_below (py : dialect) (bold : bool) (n : nat) (line : list value) :
  forall (i : nat) (leftWidth : Z) (b : Block) (t : term) (b' : Block) (t' : term),
    BlockM.printLine_from py bold n i line leftWidth (b, t) = (Ok tt, (b', t')) ->
    forall j : nat, (j < i)%nat -> __columnWidths b' !! j = __columnWidths b !! j.
Proof.
  induction line as [|v rest IH]; intros i leftWidth b t b' t' H j Hj.
  - now inversion H.
  - destruct (cell_uniform py v) as [[c Hc]|Hr].
    2:{ destruct (Hr t) as [e [t1 He]].
        rewrite (printLine_from_raise _ _ _ _ _ _ _ _ _ _ _ He) in H. discriminate H. }
    destruct (__columnHeaders b !! i) as [header|] eqn:Hh.
    2:{ rewrite (printLine_from_no_header _ _ _ _ _ _ _ _ _ _ (Hc t) Hh) in H.
        discriminate H. }
    destruct (Z.ltb_spec leftWidth (len header)) as [HL|HL].
    { rewrite (printLine_from_narrow _ _ _ _ _ _ _ _ _ c header (Hc t) Hh HL) in H.
      now inversion H. }
    assert (HL1 : (leftWidth <? len header) = false) by (apply Z.ltb_ge; lia).
    destruct (__columnWidths b !! i) as [w0|] eqn:Hw.
    2:{ destruct (printLine_from_no_width py bold n i v rest leftWidth b t c header
                    (Hc t) Hh HL1 Hw) as [e [s1 He]].
        rewrite He in H. discriminate H. }
    rewrite (printLine_from_step py bold n i v rest leftWidth b t c header w0
               (Hc t) Hh Hw), HL1 in H.
    cbv zeta in H.
    destruct (show_cell _ _ _ _ t) as [[[]|e] t1]; [|discriminate H].
    rewrite (IH _ _ _ _ _ _ H j ltac:(lia)).
    unfold met. destruct (Z.of_nat i + 1 <? Z.of_nat n); [|reflexivity].
    cbn [__columnWidths]. apply list_lookup_insert_ne. lia.
Qed.

Lemma printLine_from_columns (py : dialect) (bold : bool) (n : nat)
    (line : list value) :
  forall (i : nat) (leftWidth : Z) (b : Block) (t : term) (b' : Block) (t' : term),
    stdout_isatty t = false ->
    (i + length line = n)%nat ->
    BlockM.printLine_from py bold n i line leftWidth (b, t) = (Ok tt, (b', t')) ->
    exists texts : list string,
      screen t' = (screen t ++ map Put texts)%list
      /\ (length texts <= length line)%nat
      /\ (texts <> [] -> 0 <= leftWidth)
      /\ (forall (k : nat) (txt : string),
             texts !! k = Some txt -> (S k < length texts)%nat ->
             __columnWidths b' !! (i + k)%nat = Some (len txt)).
Proof.
  induction line as [|v rest IH]; intros i leftWidth b t b' t' Htty Hn H.
  - inversion H; subst. exists []. rewrite app_nil_r.
    split; [reflexivity|]. split; [reflexivity|]. split; [congruence|].
    intros k txt Hk. discriminate Hk.
  - destruct (cell_uniform py v) as [[c Hc]|Hr].
    2:{ destruct (Hr t) as [e [t1 He]].
        rewrite (printLine_from_raise _ _ _ _ _ _ _ _ _ _ _ He) in H. discriminate H. }
    destruct (__columnHeaders b !! i) as [header|] eqn:Hh.
    2:{ rewrite (printLine_from_no_header _ _ _ _ _ _ _ _ _ _ (Hc t) Hh) in H.
        discriminate H. }
    destruct (Z.ltb_spec leftWidth (len header)) as [HL|HL].
    { rewrite (printLine_from_narrow _ _ _ _ _ _ _ _ _ c header (Hc t) Hh HL) in H.
      inversion H; subst. exists []. rewrite app_nil_r.
      split; [reflexivity|]. split; [cbn [length]; lia|]. split; [congruence|].
      intros k txt Hk. discriminate Hk. }
    assert (HL1 : (leftWidth <? len header) = false) by (apply Z.ltb_ge; lia).
    pose proof (len_nonneg header) as Hpos.
    destruct (__columnWidths b !! i) as [w0|] eqn:Hw.
    2:{ destruct (printLine_from_no_width py bold n i v rest leftWidth b t c header
                    (Hc t) Hh HL1 Hw) as [e [s1 He]].
        rewrite He in H. discriminate H. }
    rewrite (printLine_from_step py bold n i v rest leftWidth b t c header w0
               (Hc t) Hh Hw), HL1 in H.
    cbv zeta in H.
    set (inner := Z.of_nat i + 1 <? Z.of_nat n) in *.
    set (w := if inner then Z.max (BlockM.cell_len c + 2) w0 else w0) in *.
    set (b1 := met b inner i (BlockM.cell_len c) w0) in *.
    rewrite show_cell_plain in H by exact Htty.
    destruct (print_end _ t) as [[[]|e] t1] eqn:E; [|discriminate H].
    pose proof (print_end_tty _ _ _ _ E) as Htty1.
    apply write_ok in E. destruct E as [Hs _].
    pose proof (printLine_from_below py bold n rest (S i) (leftWidth - w) b1 t1 b' t' H
                  i ltac:(lia)) as Hsame.
    pose proof (met_width b inner i (BlockM.cell_len c) w0 Hw) as Hw1.
    fold b1 in Hw1. fold w in Hw1.
    apply IH in H; [|congruence | cbn [length] in Hn; lia].
    destruct H as [texts (Hscr & Hlen & Hleft & Hcols)].
    exists (slice_to (BlockM.cell_ljust c w) leftWidth :: texts).
    split; [|split; [cbn [length]; lia | split; [intros _; lia|]]].
    { rewrite Hscr, Hs, <- app_assoc. reflexivity. }
    intros [|k] txt Hk Hlt.
    + inversion Hk; subst txt. cbn [length] in Hlt.
      assert (Hne : texts <> []) by (destruct texts; [cbn in Hlt; lia | discriminate]).
      specialize (Hleft Hne).
      assert (Hin : inner = true).
      { unfold inner. apply Z.ltb_lt. destruct rest as [|v' rest'].
        - cbn [length] in Hlen. destruct texts; [congruence | cbn in Hlen; lia].
        - cbn [length] in Hn. lia. }
      rewrite Nat.add_0_r, Hsame, Hw1. f_equal.
      rewrite len_slice_to by lia. rewrite len_cell_ljust.
      unfold w in *. rewrite Hin in *. lia.
    + cbn [length] in Hlt. replace (i + S k)%nat with (S i + k)%nat by lia.
      apply Hcols; [exact Hk | lia].
Qed.

(** X17. Where standard output is not a terminal, a line of [__printLine]
    that completes is one text for each column written and the new line.
    Every text but the last one is exactly as long as the width remembered
    for its column after the line: in a block whose widths have settled,
    the columns of all lines start at the same places. *)
Theorem printLine_columns :
  forall (py : dialect) (line : list value) (leftWidth : Z) (bold : bool)
         (b : Block) (t : term) (b' : Block) (t' : term),
    stdout_isatty t = false ->
    BlockM.__printLine py line leftWidth bold (b, t) = (Ok tt, (b', t')) ->
    exists texts : list string,
      screen t' = (screen t ++ map Put texts ++ [Line ""])%list
      /\ (length texts <= length line)%nat
      /\ (forall (k : nat) (txt : string),
             texts !! k = Some txt -> (S k < length texts)%nat ->
             __columnWidths b' !! k = Some (len txt)).
Proof.
  intros py line leftWidth bold b t b' t' Htty H. unfold BlockM.__printLine in H.
  unfold bind in H.
  destruct (BlockM.printLine_from py bold (length line) 0 line leftWidth (b, t))
    as [[[]|e] [b1 t1]] eqn:E; [|discriminate H].
  apply printLine_from_columns in E; [|exact Htty | reflexivity].
  destruct E as [texts (Hs & Hlen & _ & Hcols)].
  unfold on_term in H.
  destruct (print_ "" t1) as [[[]|e] t2] eqn:E2; inversion H; subst.
  apply write_ok in E2. destruct E2 as [Hs2 _].
  exists texts. split; [|split; [exact Hlen | exact Hcols]].
  rewrite Hs2, Hs, <- app_assoc. reflexivity.
Qed.

Lemma printLine_columns_witness :
  stdout_isatty quiet = false
  /\ exists (b' : Block) (t' : term) (texts : list string),
      BlockM.__printLine Py3 [VStr "db1.example.org"; VInt 1234567; VFloat 0.5] 80 false
                         (BlockM.__init__ ["host"; "ops"; "load"], quiet)
      = (Ok tt, (b', t'))
      /\ screen t' = (map Put texts ++ [Line ""])%list
      /\ __columnWidths b' = [17; 7; 6]
      /\ texts = ["db1.example.org  "; "1235k  "; "0.50  "].
Proof.
  split; [reflexivity|].
  assert (E : BlockM.__printLine Py3 [VStr "db1.example.org"; VInt 1234567; VFloat 0.5]
                80 false (BlockM.__init__ ["host"; "ops"; "load"], quiet)
              = (Ok tt,
                 snd (BlockM.__printLine Py3
                        [VStr "db1.example.org"; VInt 1234567; VFloat 0.5] 80 false
                        (BlockM.__init__ ["host"; "ops"; "load"], quiet))))
    by (vm_compute; reflexivity).
  rewrite (surjective_pairing (snd _)) in E.
  destruct (printLine_columns Py3 _ 80 false _ quiet _ _ eq_refl E)
    as [texts (Hs & _ & _)].
  eexists. eexists. exists ["db1.example.org  "; "1235k  "; "0.50  "].
  split; [exact E|]. repeat split; vm_compute; reflexivity.
Defined.

(** * Further properties of [Console]

    ** The line discipline *)

Lemma term_eta (t : term) :
  mkTerm (screen t) (faults t) (stdout_isatty t) (stdin_isatty t) (cbreak t)
         (typed t) (keys t) (clock t) = t.
Proof. now destruct t. Qed.

(** X12. [with console: pass] leaves the terminal as it found it: [__exit__]
    undoes what [__enter__] did to the line discipline, and where standard
    input is no terminal neither touches it.  In between, the terminal is
    in cbreak mode if it is one. *)
Theorem enter_exit_restores :
  forall w : world,
    (exists w' : world,
        (ConsoleM.__enter__ ;; ConsoleM.__exit__) w = (Ok tt, w')
        /\ terminal w' = terminal w
        /\ heap w' = heap w)
    /\ fst (ConsoleM.__enter__ w) = Ok tt
    /\ cbreak (terminal (snd (ConsoleM.__enter__ w)))
       = (stdin_isatty (terminal w) || cbreak (terminal w))%bool.
Proof.
  intros [h c t]. unfold ConsoleM.__enter__, ConsoleM.__exit__, bind, self_console,
    io, get, put, set_console. cbn [terminal console heap].
  destruct (stdin_isatty t) eqn:E; cbn [terminal console heap __settings].
  - split; [|split; reflexivity].
    eexists. split; [reflexivity|]. split; [|reflexivity].
    cbn [terminal]. unfold set_cbreak. cbn. apply term_eta.
  - split; [|split; reflexivity].
    eexists. split; [reflexivity|]. split; reflexivity.
Qed.

(** *** [askForInput] *)

Lemma write_mode (ev : event) (t : term) :
  cbreak (snd (write ev t)) = cbreak t
  /\ stdin_isatty (snd (write ev t)) = stdin_isatty t.
Proof. unfold write. destruct (faults t) as [|[|] fs]; split; reflexivity. Qed.

Lemma input_mode (prompt : string) (t : term) :
  cbreak (snd (ConsoleM.input prompt t)) = cbreak t
  /\ stdin_isatty (snd (ConsoleM.input prompt t)) = stdin_isatty t.
Proof.
  unfold ConsoleM.input, bind. pose proof (write_mode (Put prompt) t) as H.
  destruct (write (Put prompt) t) as [[[]|e] t1]; simpl in *; [|exact H].
  destruct (typed t1); exact H.
Qed.

Lemma ask_from_mode (attributes : list string) :
  forall (values : list string) (t : term),
    cbreak (snd (ConsoleM.ask_from attributes values t)) = cbreak t
    /\ stdin_isatty (snd (ConsoleM.ask_from attributes values t)) = stdin_isatty t.
Proof.
  induction attributes as [|a rest IH]; intros values t; [split; reflexivity|].
  cbn [ConsoleM.ask_from]. unfold bind.
  pose proof (input_mode (a ++ ": ") t) as H.
  destruct (ConsoleM.input (a ++ ": ") t) as [[v|e] t1]; simpl in *; [|exact H].
  destruct (String.eqb v ""); [exact H|].
  destruct (IH (values ++ [v])%list t1) as [H1 H2]. destruct H as [H3 H4].
  split; congruence.
Qed.

(** The prompts leave the line discipline, the console and the blocks as
    they are, however they end. *)
Lemma prompts_mode (attributes : list string) (w : world) :
  let r := (io (print_ "") ;; io (ConsoleM.ask_from attributes [])) w in
  heap (snd r) = heap w
  /\ console (snd r) = console w
  /\ cbreak (terminal (snd r)) = cbreak (terminal w)
  /\ stdin_isatty (terminal (snd r)) = stdin_isatty (terminal w).
Proof.
  destruct w as [h c t]. unfold bind, io. cbn [terminal console heap].
  pose proof (write_mode (Line "") t) as H. unfold print_.
  destruct (write (Line "") t) as [[[]|e] t1]; simpl in *; [|tauto].
  pose proof (ask_from_mode attributes [] t1) as H1.
  destruct (ConsoleM.ask_from attributes [] t1) as [r t2]; simpl in *.
  destruct H, H1. repeat split; congruence.
Qed.

Lemma enter_eq (h : list Block) (c : Console) (t : term) :
  ConsoleM.__enter__ (mkWorld h c t)
  = (Ok tt,
     if stdin_isatty t then
       mkWorld h (mkConsole (__height c) (__width c) (__lastCheckTime c)
                            (Some (Some (cbreak t))))
               (set_cbreak t true)
     else
       mkWorld h (mkConsole (__height c) (__width c) (__lastCheckTime c) (Some None)) t).
Proof.
  unfold ConsoleM.__enter__, bind, self_console, io, get, put, set_console.
  cbn [terminal console heap]. destruct (stdin_isatty t); reflexivity.
Qed.

(** [with self.__deactiveConsole: body] inside [with console:]: the body
    runs on the saved line discipline and the console is entered again. *)
Lemma with_deactiveConsole_eq {A} (body : M world A) (h : list Block) (c : Console)
    (t : term) (d : option bool) :
  __settings c = Some d ->
  ConsoleM.with_deactiveConsole body (mkWorld h c t)
  = (fst (body (mkWorld h c match d with
                            | Some saved => set_cbreak t saved
                            | None => t
                            end)),
     snd (ConsoleM.__enter__
            (snd (body (mkWorld h c match d with
                                    | Some saved => set_cbreak t saved
                                    | None => t
                                    end))))).
Proof.
  intros H. unfold ConsoleM.with_deactiveConsole, ConsoleM.__exit__.
  unfold bind at 1. unfold bind at 1. unfold self_console at 1.
  cbn [console]. rewrite H.
  destruct d as [saved|].
  - unfold bind at 1. unfold io at 1, get at 1. cbn [terminal heap console].
    unfold io at 1, put at 1. cbn [terminal heap console].
    destruct (body _) as [[a|e] [h2 c2 t2]]; unfold bind; cbn [fst snd];
      rewrite enter_eq; reflexivity.
  - cbn [ret].
    destruct (body _) as [[a|e] [h2 c2 t2]]; unfold bind; cbn [fst snd];
      rewrite enter_eq; reflexivity.
Qed.

(** X13. [askForInput] leaves the console as it was entered, however the
    prompts end (with the values, at the end of standard input, on a failed
    write): the saved settings are the same and the terminal, if standard
    input is one, is in cbreak mode again. *)
Theorem askForInput_restores_console :
  forall (attributes : list string) (w : world),
    entered w = true ->
    console (snd (ConsoleM.askForInput attributes w)) = console w
    /\ heap (snd (ConsoleM.askForInput attributes w)) = heap w
    /\ cbreak (terminal (snd (ConsoleM.askForInput attributes w)))
       = (stdin_isatty (terminal w) || cbreak (terminal w))%bool.
Proof.
  intros attributes [h [hh ww lc st] t] He. unfold ConsoleM.askForInput.
  unfold entered in He. cbn [console __settings terminal heap] in *.
  destruct st as [d|]; [|discriminate He].
  rewrite (with_deactiveConsole_eq _ h (mkConsole hh ww lc (Some d)) t d eq_refl).
  cbn [snd].
  match goal with
  | |- context [(io (print_ "") ;; io (ConsoleM.ask_from attributes [])) ?w] =>
      pose proof (prompts_mode attributes w) as (Hh & Hc & Hb & Hi);
      cbv zeta in Hh, Hc, Hb, Hi;
      destruct ((io (print_ "") ;; io (ConsoleM.ask_from attributes [])) w)
        as [r [h2 c2 t2]]
  end.
  cbn [snd heap console terminal] in *. subst h2 c2.
  rewrite enter_eq. cbn [__height __width __lastCheckTime].
  destruct d as [saved|].
  - cbn [set_cbreak stdin_isatty cbreak] in Hi, Hb. rewrite Hi, He, Hb.
    repeat split.
  - apply negb_true_iff in He. rewrite Hi, He. cbn [console heap terminal].
    repeat split. exact Hb.
Qed.

Lemma askForInput_restores_console_witness :
  entered (mkWorld [] (mkConsole 20 80 None (Some (Some false)))
                   (mkTerm [] [] true true true [] [] 0)) = true
  /\ cbreak (terminal (snd (ConsoleM.askForInput ["name"]
                              (mkWorld [] (mkConsole 20 80 None (Some (Some false)))
                                       (mkTerm [] [] true true true [] [] 0)))))
     = true
  /\ fst (ConsoleM.askForInput ["name"]
            (mkWorld [] (mkConsole 20 80 None (Some (Some false)))
                     (mkTerm [] [] true true true [] [] 0)))
     = Raise EOFError.
Proof.
  split; [reflexivity|]. split; [|reflexivity].
  exact (proj2 (proj2 (askForInput_restores_console ["name"]
                         (mkWorld [] (mkConsole 20 80 None (Some (Some false)))
                                  (mkTerm [] [] true true true [] [] 0))
                         eq_refl))).
Defined.

(** *** When [askForInput] raises *)

Lemma ask_from_eof (attributes : list string) :
  forall (values : list string) (t : term),
    healthy t ->
    answered attributes (typed t) = false ->
    fst (ConsoleM.ask_from attributes values t) = Raise EOFError.
Proof.
  induction attributes as [|a rest IH]; intros values t Ht Ha; [discriminate Ha|].
  cbn [ConsoleM.ask_from answered] in *. unfold bind, ConsoleM.input, bind.
  rewrite (write_healthy _ _ Ht). cbn [typed set_output].
  destruct (typed t) as [|r rs] eqn:E; [reflexivity|].
  destruct (String.eqb r "") eqn:Er; [discriminate Ha|].
  apply IH; [reflexivity | exact Ha].
Qed.

(** X14. The two ways in which [askForInput] raises where the writes
    succeed.  Outside [with console:] it raises [AttributeError] before
    anything is written: there are no settings to restore.  Inside, it
    raises [EOFError] when standard input ends before a prompt is answered;
    the values read so far are lost. *)
Theorem askForInput_raises :
  (forall (attributes : list string) (w : world),
      __settings (console w) = None ->
      ConsoleM.askForInput attributes w = (Raise AttributeError, w))
  /\ (forall (attributes : list string) (w : world) (saved : option bool),
         __settings (console w) = Some saved ->
         healthy (terminal w) ->
         answered attributes (typed (terminal w)) = false ->
         fst (ConsoleM.askForInput attributes w) = Raise EOFError).
Proof.
  split.
  - intros attributes w H. unfold ConsoleM.askForInput, ConsoleM.with_deactiveConsole.
    unfold bind at 1. unfold ConsoleM.__exit__. unfold bind at 1.
    unfold self_console at 1. now rewrite H.
  - intros attributes [h c t] saved Hs Ht Ha. cbn [console terminal] in *.
    unfold ConsoleM.askForInput.
    rewrite (with_deactiveConsole_eq _ h c t saved Hs). cbn [fst].
    set (t1 := match saved with Some d => set_cbreak t d | None => t end).
    assert (Ht1 : healthy t1 /\ typed t1 = typed t) by (unfold t1; now destruct saved).
    destruct Ht1 as [Ht1 Hty].
    unfold bind, io. cbn [terminal heap console]. unfold print_.
    rewrite (write_healthy _ _ Ht1).
    pose proof (ask_from_eof attributes [] (set_output t1 (screen t1 ++ [Line ""]) []))
      as H.
    cbn [typed set_output] in H. rewrite Hty in H. specialize (H eq_refl Ha).
    destruct (ConsoleM.ask_from attributes [] _) as [r t2]. simpl in *. exact H.
Qed.

Lemma askForInput_raises_witness :
  __settings (console (mkWorld [] (ConsoleM.__init__ None) quiet)) = None
  /\ ConsoleM.askForInput ["name"] (mkWorld [] (ConsoleM.__init__ None) quiet)
     = (Raise AttributeError, mkWorld [] (ConsoleM.__init__ None) quiet)
  /\ answered ["name"; "email"] (typed (terminal (prompt_world ["Alice"]))) = false
  /\ fst (ConsoleM.askForInput ["name"; "email"] (prompt_world ["Alice"]))
     = Raise EOFError.
Proof.
  split; [reflexivity|]. split.
  - apply (proj1 askForInput_raises). reflexivity.
  - split; [reflexivity|].
    apply (proj2 askForInput_raises ["name"; "email"] (prompt_world ["Alice"])
             (Some false)); reflexivity.
Defined.

(** ** The keyboard *)





